(** * The grouping engine of the Konva shape editor

    A shallow embedding of [useKonvaApp] (KonvaApp.ts) and of the button
    logic of [KonvaShapeEditor] (KonvaShapeEditor.tsx).

    - JavaScript numbers are read as real numbers: the arithmetic of the
      engine ([+], [-], [*], [/], [Math.min], [Math.max], [Math.cos],
      [Math.sin]) is the arithmetic of [R], so every law below is the exact
      law that the floating-point program follows up to rounding.
    - The React state ([shapes], [groups], [selectedIds], [hoveredId]) is one
      record that every operation receives and returns; an operation that
      stops at an [alert] returns the state it was given together with the
      message.
    - The Konva scene graph is part of that record: every [ShapeData] carries
      the attributes of its Konva node and the container its wrapper group
      is attached to, every [GroupData] the attributes of its group node and
      of its background rectangle.  A Konva group node is named by the [id]
      attribute [createGroup] gives it.
    - A group node carries the scale a resize gesture of the selection
      transformer leaves on it: no listener takes it back.  A shape node is
      at scale 1 whenever an operation of the engine runs, because its
      [transformend] listener folds the scale of a gesture into its size
      and writes the scale back to 1; these listeners are modelled on their
      own, on the record [Sized].
    - Of Konva itself the model has what the engine calls: the transform of
      a node, the product of transforms, and the position and the rotation
      that [getAbsolutePosition] and [getAbsoluteRotation] read off the
      absolute transform.
    - [Date.now()] and [Math.random()] are inputs of the operations that
      call them.  The canvas is taken as mounted ([layerRef.current] is
      set), which holds from the first effect on. *)

From Stdlib Require Import String List Bool ZArith Lia DecimalString DecimalZ.
From Stdlib Require Import Reals Lra.
Import ListNotations.

Local Open Scope string_scope.
Local Open Scope list_scope.
Local Open Scope R_scope.

(** ** Data model *)

(** [interface Point]. *)
Record Point := mkPoint { px : R; py : R }.

(** [type: 'rectangle' | 'circle']. *)
Inductive ShapeType := rectangle | circle.

(** The attributes of a [Konva.Rect] or [Konva.Circle] that the engine reads
    or writes.  [width] and [height] are those of a rectangle, [radius] that
    of a circle. *)
Record ShapeNode := mkShapeNode {
  position : Point;
  rotation : R;
  draggable : bool;
  width : R;
  height : R;
  radius : R;
  fill : string
}.

(** Where a shape's wrapper [Konva.Group] is attached: the layer (the root),
    the node of a group, or nowhere (after [remove] or [destroy]). *)
Inductive Container :=
| Layer
| GroupNode (g : string)
| Detached.

(** [interface ShapeData].  [group] is the wrapper created with the shape; it
    keeps the identity transform, so only its parent is recorded. *)
Record ShapeData := mkShapeData {
  id : string;
  node : ShapeNode;
  group : Container;
  type : ShapeType;
  groupId : option string
}.

(** The attributes of the [Konva.Group] node of a group.  [createGroup]
    gives it its position and leaves rotation and scale at 0 and 1; a
    gesture of the selection transformer on the group changes all three. *)
Record GroupNodeAttrs := mkGroupNode {
  g_position : Point;
  g_rotation : R;
  g_scaleX : R;
  g_scaleY : R;
  g_draggable : bool
}.

(** The attributes of the background [Konva.Rect] of a group. *)
Record Background := mkBackground {
  bg_position : Point;
  bg_width : R;
  bg_height : R
}.

(** [interface GroupData]. *)
Record GroupData := mkGroupData {
  gid : string;
  gnode : GroupNodeAttrs;
  backgroundNode : Background
}.

(** The four [useState] cells of [useKonvaApp]. *)
Record State := mkState {
  shapes : list ShapeData;
  groups : list GroupData;
  selectedIds : list string;
  hoveredId : option string
}.

Definition initialState : State :=
  {| shapes := []; groups := []; selectedIds := []; hoveredId := None |}.

(** ** JavaScript helpers *)

(** [array.includes(s)]. *)
Definition includes (l : list string) (s : string) : bool :=
  existsb (String.eqb s) l.

(** Truthiness of a [string | null]: [null] and the empty string are falsy. *)
Definition truthy (g : option string) : bool :=
  match g with
  | Some s => negb (String.eqb s "")
  | None => false
  end.

(** [g === i] for [g : string | null] and a string [i]. *)
Definition is_id (g : option string) (i : string) : bool :=
  match g with
  | Some s => String.eqb s i
  | None => false
  end.

(** [array.findIndex(p)], [None] standing for [-1]. *)
Fixpoint findIndex {A : Type} (p : A -> bool) (l : list A) : option nat :=
  match l with
  | [] => None
  | a :: l' => if p a then Some 0%nat else option_map S (findIndex p l')
  end.

(** [array[i] = f(array[i])]; nothing happens out of range. *)
Fixpoint update_at {A : Type} (i : nat) (f : A -> A) (l : list A) : list A :=
  match l, i with
  | [], _ => []
  | a :: l', O => f a :: l'
  | a :: l', S i' => a :: update_at i' f l'
  end.

(** The template literal [`${Date.now()}`]. *)
Definition timestamp (now : Z) : string :=
  NilZero.string_of_int (Z.to_int now).

Definition rectId (now : Z) : string := String.append "rect-" (timestamp now).
Definition circleId (now : Z) : string := String.append "circle-" (timestamp now).
Definition mkGroupId (now : Z) : string := String.append "group-" (timestamp now).

(** [Number.MAX_VALUE], the largest double, and [Number.MIN_VALUE], the
    smallest positive double. *)
Definition MAX_VALUE : R := (2 - / 2 ^ 52) * 2 ^ 1023.
Definition MIN_VALUE : R := / 2 ^ 1074.

(** ** The Konva scene graph *)

(** [Konva.Transform]: the matrix [[a, b, c, d, e, f]], which takes the
    point [(x, y)] to [(a x + c y + e, b x + d y + f)]. *)
Record Transform := mkTransform {
  m_a : R;
  m_b : R;
  m_c : R;
  m_d : R;
  m_e : R;
  m_f : R
}.

(** [m.multiply(n)]: the transform [n] followed by [m]. *)
Definition multiply (m n : Transform) : Transform :=
  {| m_a := m_a m * m_a n + m_c m * m_b n;
     m_b := m_b m * m_a n + m_d m * m_b n;
     m_c := m_a m * m_c n + m_c m * m_d n;
     m_d := m_b m * m_c n + m_d m * m_d n;
     m_e := m_a m * m_e n + m_c m * m_f n + m_e m;
     m_f := m_b m * m_e n + m_d m * m_f n + m_f m |}.

(** [node.getTransform()] of a node at [pos], turned by [deg] degrees and
    scaled by [sx] and [sy], without offset or skew: the translation, then
    the rotation, then the scale. *)
Definition getTransform (pos : Point) (deg sx sy : R) : Transform :=
  let rad := deg * PI / 180 in
  {| m_a := cos rad * sx;
     m_b := sin rad * sx;
     m_c := - sin rad * sy;
     m_d := cos rad * sy;
     m_e := px pos;
     m_f := py pos |}.

(** [a != 0 || b != 0]. *)
Definition nonzero (a b : R) : bool :=
  if Req_dec_T a 0 then (if Req_dec_T b 0 then false else true) else true.

(** [m.decompose().rotation], in degrees: the angle of the image of the
    first axis when there is one, else that of the second axis less a
    quarter turn. *)
Definition decomposeRotation (m : Transform) : R :=
  let a := m_a m in
  let b := m_b m in
  let c := m_c m in
  let d := m_d m in
  let rotation :=
    if nonzero a b then
      let r := sqrt (a * a + b * b) in
      if Rlt_dec 0 b then acos (a / r) else - acos (a / r)
    else if nonzero c d then
      let s := sqrt (c * c + d * d) in
      PI / 2 - (if Rlt_dec 0 d then acos (- c / s) else - acos (c / s))
    else 0 in
  rotation * 180 / PI.

(** [groups.find(g => g.id === i)]. *)
Definition findGroup (gs : list GroupData) (i : string) : option GroupData :=
  find (fun g => String.eqb (gid g) i) gs.

(** The transform of a shape node, which is at scale 1, and of the node of
    a group. *)
Definition shapeTransform (s : ShapeData) : Transform :=
  getTransform (position (node s)) (rotation (node s)) 1 1.

Definition groupTransform (G : GroupData) : Transform :=
  getTransform (g_position (gnode G)) (g_rotation (gnode G))
               (g_scaleX (gnode G)) (g_scaleY (gnode G)).

(** [shape.node.getAbsoluteTransform()]: the transform of the node after
    that of the group node its wrapper hangs in (the wrapper, the layer and
    the stage are identities). *)
Definition getAbsoluteTransform (gs : list GroupData) (s : ShapeData)
    : Transform :=
  match group s with
  | GroupNode g =>
      match findGroup gs g with
      | Some G => multiply (groupTransform G) (shapeTransform s)
      | None => shapeTransform s
      end
  | _ => shapeTransform s
  end.

(** [shape.node.getAbsolutePosition()]: the translation of the absolute
    transform. *)
Definition getAbsolutePosition (gs : list GroupData) (s : ShapeData) : Point :=
  {| px := m_e (getAbsoluteTransform gs s);
     py := m_f (getAbsoluteTransform gs s) |}.

(** [shape.node.getAbsoluteRotation()]: the rotation that [decompose]
    reads off the absolute transform. *)
Definition getAbsoluteRotation (gs : list GroupData) (s : ShapeData) : R :=
  decomposeRotation (getAbsoluteTransform gs s).

(** [group.node.getAbsoluteRotation()] for the node of a group, which hangs
    in the layer. *)
Definition groupAbsoluteRotation (G : GroupData) : R :=
  decomposeRotation (groupTransform G).

(** Setters of the node attributes. *)
Definition set_position (p : Point) (n : ShapeNode) : ShapeNode :=
  {| position := p; rotation := rotation n; draggable := draggable n;
     width := width n; height := height n; radius := radius n;
     fill := fill n |}.

Definition set_rotation (r : R) (n : ShapeNode) : ShapeNode :=
  {| position := position n; rotation := r; draggable := draggable n;
     width := width n; height := height n; radius := radius n;
     fill := fill n |}.

Definition set_draggable (b : bool) (n : ShapeNode) : ShapeNode :=
  {| position := position n; rotation := rotation n; draggable := b;
     width := width n; height := height n; radius := radius n;
     fill := fill n |}.

Definition with_node (f : ShapeNode -> ShapeNode) (s : ShapeData) : ShapeData :=
  {| id := id s; node := f (node s); group := group s; type := type s;
     groupId := groupId s |}.

(** [s.group.remove(); parent.add(s.group)]. *)
Definition moveTo (c : Container) (s : ShapeData) : ShapeData :=
  {| id := id s; node := node s; group := c; type := type s;
     groupId := groupId s |}.

Definition with_groupId (g : option string) (s : ShapeData) : ShapeData :=
  {| id := id s; node := node s; group := group s; type := type s;
     groupId := g |}.

(** ** Objects shared between [shapes] and [updatedShapes]

    [const updatedShapes = [...shapes]] copies the array, not the objects:
    [updatedShapes[i]] is the object [shapes[i]] until the engine stores a
    spread copy [{...updatedShapes[i], groupId: g}] there, and the copy
    still shares the Konva node and the wrapper with the original.  An
    object is named by its index in [shapes] (a [Ref]).  A [Slot] holds the
    original object with its node and wrapper, and the [groupId] of the copy
    once there is one. *)

Definition Ref := nat.

Record Slot := mkSlot {
  obj : ShapeData;
  copied : option (option string)
}.

(** [[...shapes]]. *)
Definition spread (l : list ShapeData) : list Slot :=
  map (fun s => {| obj := s; copied := None |}) l.

(** [updatedShapes[i].groupId]. *)
Definition updated_groupId (c : Slot) : option string :=
  match copied c with
  | Some g => g
  | None => groupId (obj c)
  end.

(** [updatedShapes[i]], as the value [setShapes(updatedShapes)] stores. *)
Definition updated (c : Slot) : ShapeData :=
  with_groupId (updated_groupId c) (obj c).

(** A change of the node or of the wrapper, seen through both objects. *)
Definition on_obj (f : ShapeData -> ShapeData) (c : Slot) : Slot :=
  {| obj := f (obj c); copied := copied c |}.

(** [updatedShapes[j] = {...updatedShapes[j], groupId: g}]. *)
Definition replace_copy (g : option string) (c : Slot) : Slot :=
  {| obj := obj c; copied := Some g |}.

(** [s.groupId = null] for the object [s] that [updatedShapes] holds. *)
Definition clear_groupId (c : Slot) : Slot :=
  match copied c with
  | None => {| obj := with_groupId None (obj c); copied := None |}
  | Some _ => {| obj := obj c; copied := Some None |}
  end.

(** [const shapeIndex = updatedShapes.findIndex(s => s.id === i);
     if (shapeIndex !== -1) updatedShapes[shapeIndex] = {..., groupId: g}]. *)
Definition assign_groupId (i : string) (g : option string)
    (slots : list Slot) : list Slot :=
  match findIndex (fun c => String.eqb (id (obj c)) i) slots with
  | Some j => update_at j (replace_copy g) slots
  | None => slots
  end.

(** The references of the objects that [array.filter(p)] keeps. *)
Fixpoint positions_from {A : Type} (p : A -> bool) (k : nat) (l : list A)
    : list Ref :=
  match l with
  | [] => []
  | a :: l' =>
      if p a then k :: positions_from p (S k) l'
      else positions_from p (S k) l'
  end.

Definition positions {A : Type} (p : A -> bool) (l : list A) : list Ref :=
  positions_from p 0 l.

(** The objects behind a list of references, as they are now. *)
Definition objects (slots : list Slot) (refs : list Ref) : list ShapeData :=
  flat_map (fun i => match nth_error slots i with
                     | Some c => [obj c]
                     | None => []
                     end) refs.

(** [group.node.destroy()]: the node goes, and with it whatever still hangs
    in it. *)
Definition goesWith (g : string) (s : ShapeData) : ShapeData :=
  match group s with
  | GroupNode g' => if String.eqb g' g then moveTo Detached s else s
  | _ => s
  end.

Definition destroyGroupNode (g : string) (slots : list Slot) : list Slot :=
  map (on_obj (goesWith g)) slots.

(** The group object [groups.find] returned, changed where it lies. *)
Definition on_group (g : string) (f : GroupData -> GroupData)
    (gs : list GroupData) : list GroupData :=
  match findIndex (fun G => String.eqb (gid G) g) gs with
  | Some j => update_at j f gs
  | None => gs
  end.

(** ** Selection and hover *)

(** The toggle of a multi-select click. *)
Definition toggle (i : string) (prev : list string) : list string :=
  if includes prev i then filter (fun selectedId => negb (String.eqb selectedId i)) prev
  else prev ++ [i].

(** [handleShapeClick]: the selection that results from [prev].  [shapes] is
    the array the callback closes over. *)
Definition handleShapeClick (shapes : list ShapeData) (i : string)
    (isShiftKey : bool) (prev : list string) : list string :=
  match find (fun s => String.eqb (id s) i) shapes with
  | Some {| groupId := Some g |} =>
      if negb (String.eqb g "") then
        if negb isShiftKey then [g] else toggle g prev
      else
        if isShiftKey then toggle i prev else [i]
  | _ => if isShiftKey then toggle i prev else [i]
  end.

Definition setSelectedIds (sel : list string) (st : State) : State :=
  {| shapes := shapes st; groups := groups st; selectedIds := sel;
     hoveredId := hoveredId st |}.

Definition setHoveredId (h : option string) (st : State) : State :=
  {| shapes := shapes st; groups := groups st;
     selectedIds := selectedIds st; hoveredId := h |}.

(** A click on the empty stage. *)
Definition stageClick (st : State) : State := setSelectedIds [] st.

(** ** Adding shapes *)

(** [addRectangle]; [x], [y] are the random position and [color] the random
    fill it draws. *)
Definition addRectangle (now : Z) (x y : R) (color : string) (st : State)
    : State :=
  {| shapes := shapes st ++
       [ {| id := rectId now;
            node := {| position := {| px := x; py := y |}; rotation := 0;
                       draggable := true; width := 100; height := 50;
                       radius := 0; fill := color |};
            group := Layer;
            type := rectangle;
            groupId := None |} ];
     groups := groups st;
     selectedIds := selectedIds st;
     hoveredId := hoveredId st |}.

(** [addCircle]. *)
Definition addCircle (now : Z) (x y : R) (color : string) (st : State)
    : State :=
  {| shapes := shapes st ++
       [ {| id := circleId now;
            node := {| position := {| px := x; py := y |}; rotation := 0;
                       draggable := true; width := 0; height := 0;
                       radius := 50; fill := color |};
            group := Layer;
            type := circle;
            groupId := None |} ];
     groups := groups st;
     selectedIds := selectedIds st;
     hoveredId := hoveredId st |}.

(** ** The bounding box of a group *)

(** The points [updateGroupBoundingBox] collects for one shape. *)
Definition paddedOutline (shape : ShapeData) : list Point :=
  let pos := position (node shape) in
  match type shape with
  | rectangle =>
      let width := width (node shape) in
      let height := height (node shape) in
      let padding := 10 in
      [ {| px := px pos - width / 2 - padding; py := py pos - height / 2 - padding |};
        {| px := px pos + width / 2 + padding; py := py pos - height / 2 - padding |};
        {| px := px pos - width / 2 - padding; py := py pos + height / 2 + padding |};
        {| px := px pos + width / 2 + padding; py := py pos + height / 2 + padding |} ]
  | circle =>
      let radius := radius (node shape) in
      let padding := 10 in
      let totalRadius := radius + padding in
      let diagonalDist := totalRadius * (7071 / 10000) in
      [ {| px := px pos - totalRadius; py := py pos |};
        {| px := px pos + totalRadius; py := py pos |};
        {| px := px pos; py := py pos - totalRadius |};
        {| px := px pos; py := py pos + totalRadius |};
        {| px := px pos - diagonalDist; py := py pos - diagonalDist |};
        {| px := px pos + diagonalDist; py := py pos - diagonalDist |};
        {| px := px pos - diagonalDist; py := py pos + diagonalDist |};
        {| px := px pos + diagonalDist; py := py pos + diagonalDist |} ]
  end.

Record Bounds := mkBounds { minX : R; minY : R; maxX : R; maxY : R }.

(** The bounds every scan starts from. *)
Definition noBounds : Bounds :=
  {| minX := MAX_VALUE; minY := MAX_VALUE;
     maxX := MIN_VALUE; maxY := MIN_VALUE |}.

(** One round of [points.forEach]. *)
Definition addPoint (b : Bounds) (point : Point) : Bounds :=
  {| minX := Rmin (minX b) (px point);
     minY := Rmin (minY b) (py point);
     maxX := Rmax (maxX b) (px point);
     maxY := Rmax (maxY b) (py point) |}.

(** The scan of [updateGroupBoundingBox] over the collected points. *)
Definition boundingBox (points : list Point) : Bounds :=
  fold_left addPoint points noBounds.

Definition backgroundOf (b : Bounds) : Background :=
  {| bg_position := {| px := minX b; py := minY b |};
     bg_width := maxX b - minX b;
     bg_height := maxY b - minY b |}.

(** [updateGroupBoundingBox]: the group with its background resized. *)
Definition updateGroupBoundingBox (group : GroupData)
    (groupShapes : list ShapeData) : GroupData :=
  let points := flat_map paddedOutline groupShapes in
  {| gid := gid group; gnode := gnode group;
     backgroundNode := backgroundOf (boundingBox points) |}.

(** ** Adding shapes to a group *)

(** The working memory of [addShapesToGroup]: the objects, and the ids the
    queued [setGroups(prev => prev.filter(...))] calls take out. *)
Record Heap := mkHeap {
  slots : list Slot;
  removed : list string
}.

(** One shape of a dissolved group goes back to the layer. *)
Definition release (gs : list GroupData) (c : Slot) : Slot :=
  let globalPos := getAbsolutePosition gs (obj c) in
  let globalRotation := getAbsoluteRotation gs (obj c) in
  clear_groupId
    (on_obj (fun s =>
       with_node (fun n => set_draggable true
                             (set_rotation globalRotation
                                (set_position globalPos n)))
                 (moveTo Layer s)) c).

(** The block under [if (groupShapes.length <= 2)]: every object of
    [updatedShapes] that names the old group is released (each release
    touches that object alone), the node of the old group is destroyed and
    its removal from [groups] is queued. *)
Definition dissolve (gs : list GroupData) (groupToUngroup : GroupData)
    (h : Heap) : Heap :=
  {| slots :=
       destroyGroupNode (gid groupToUngroup)
         (map (fun c => if is_id (updated_groupId c) (gid groupToUngroup)
                        then release gs c else c) (slots h));
     removed := gid groupToUngroup :: removed h |}.

(** The first half of a round of [shapesToAdd.forEach]: the shape leaves
    the group it is in.  [shape.groupId] and [shapes.filter] read the
    objects of [shapes], [groups.find] the [groups] of the render. *)
Definition leaveOldGroup (gs : list GroupData) (shape : ShapeData)
    (h : Heap) : Heap :=
  if truthy (groupId shape) then
    match find (fun g => is_id (groupId shape) (gid g)) gs with
    | Some oldGroup =>
        let groupShapes :=
          filter (fun c => is_id (groupId (obj c)) (gid oldGroup)) (slots h) in
        if (List.length groupShapes <=? 2)%nat
        then dissolve gs oldGroup h
        else h
    | None => h
    end
  else h.

(** The second half: the shape joins the target group, at the place and
    rotation the engine works out from the position and the absolute
    rotation of the group node.  [targetGroup.node.getAbsolutePosition()]
    is the position of the group node, which hangs in the layer. *)
Definition joinTarget (gs : list GroupData) (targetGroup : GroupData)
    (i : Ref) (sl : list Slot) : list Slot :=
  match nth_error sl i with
  | None => sl
  | Some c =>
      let shape := obj c in
      let globalPos := getAbsolutePosition gs shape in
      let globalRotation := getAbsoluteRotation gs shape in
      let groupPos := g_position (gnode targetGroup) in
      let groupRotation := groupAbsoluteRotation targetGroup * PI / 180 in
      let dx := px globalPos - px groupPos in
      let dy := py globalPos - py groupPos in
      let d :=
        if Req_dec_T groupRotation 0 then {| px := dx; py := dy |}
        else
          let cos := cos (- groupRotation) in
          let sin := sin (- groupRotation) in
          {| px := dx * cos - dy * sin; py := dx * sin + dy * cos |} in
      assign_groupId (id shape) (Some (gid targetGroup))
        (update_at i
           (on_obj (fun s =>
              with_node (fun n =>
                 set_draggable false
                   (set_rotation (globalRotation - groupAbsoluteRotation targetGroup)
                      (set_position d n)))
                (moveTo (GroupNode (gid targetGroup)) s))) sl)
  end.

(** One round of [shapesToAdd.forEach]. *)
Definition addOne (gs : list GroupData) (targetGroup : GroupData)
    (h : Heap) (i : Ref) : Heap :=
  match nth_error (slots h) i with
  | None => h
  | Some c =>
      let h1 := leaveOldGroup gs (obj c) h in
      {| slots := joinTarget gs targetGroup i (slots h1);
         removed := removed h1 |}
  end.

(** [addShapesToGroup(targetGroup, shapesToAdd)], run on the state of the
    render; [shapesToAdd] are references into [shapes]. *)
Definition addShapesToGroup (targetGroup : GroupData) (shapesToAdd : list Ref)
    (st : State) : State :=
  let h := fold_left (addOne (groups st) targetGroup) shapesToAdd
             {| slots := spread (shapes st); removed := [] |} in
  let updatedShapes := map updated (slots h) in
  let groupShapes :=
    filter (fun shape => is_id (groupId shape) (gid targetGroup)) updatedShapes in
  {| shapes := updatedShapes;
     groups :=
       filter (fun g => negb (includes (removed h) (gid g)))
         (on_group (gid targetGroup)
            (fun g => updateGroupBoundingBox g groupShapes) (groups st));
     selectedIds := selectedIds st;
     hoveredId := hoveredId st |}.

(** ** Creating a group *)

(** [selectedIds.map(id => groups.find(...)).filter(group => group !== undefined)]. *)
Definition selectedGroups (st : State) : list GroupData :=
  flat_map (fun i => match findGroup (groups st) i with
                     | Some g => [g]
                     | None => []
                     end) (selectedIds st).

(** The test of [selectedShapes]. *)
Definition isSelectedShape (st : State) (shape : ShapeData) : bool :=
  includes (selectedIds st) (id shape)
  || (truthy (groupId shape)
      && match groupId shape with
         | Some g => includes (selectedIds st) g
         | None => false
         end).

(** [!shape.groupId || shape.groupId !== targetGroup.id]. *)
Definition notMemberOf (targetGroup : GroupData) (shape : ShapeData) : bool :=
  negb (truthy (groupId shape))
  || negb (is_id (groupId shape) (gid targetGroup)).

(** The test of [shapesToGroup]. *)
Definition isUngroupedSelected (st : State) (shape : ShapeData) : bool :=
  includes (selectedIds st) (id shape) && negb (truthy (groupId shape)).

(** The body both "add to the existing group" branches share. *)
Definition addToExisting (targetGroup : GroupData) (st : State)
    : State * option string :=
  let shapesToAdd :=
    positions (fun shape => isSelectedShape st shape && notMemberOf targetGroup shape)
              (shapes st) in
  if (List.length shapesToAdd =? 0)%nat
  then (st, Some "All selected shapes are already in this group")
  else (setSelectedIds [gid targetGroup] (addShapesToGroup targetGroup shapesToAdd st),
        None).

(** [shapesToGroup.reduce((sum, shape) => sum + f(shape), 0) / shapesToGroup.length]. *)
Definition average (f : ShapeData -> R) (l : list ShapeData) : R :=
  fold_left (fun sum shape => sum + f shape) l 0 / INR (List.length l).

(** One round of [shapesToGroup.forEach] in "Move shapes to the group". *)
Definition groupOne (gs : list GroupData) (groupId : string) (avgX avgY : R)
    (sl : list Slot) (i : Ref) : list Slot :=
  match nth_error sl i with
  | None => sl
  | Some c =>
      let shape := obj c in
      let absPos := getAbsolutePosition gs shape in
      let relPos := {| px := px absPos - avgX; py := py absPos - avgY |} in
      assign_groupId (id shape) (Some groupId)
        (update_at i
           (on_obj (fun s =>
              with_node (fun n => set_draggable false (set_position relPos n))
                        (moveTo (GroupNode groupId) s))) sl)
  end.

(** One round of [shapesToGroup.forEach] in "Calculate group bounds". *)
Definition addShapeBounds (b : Bounds) (shape : ShapeData) : Bounds :=
  let pos := position (node shape) in
  match type shape with
  | rectangle =>
      let width := width (node shape) in
      let height := height (node shape) in
      {| minX := Rmin (minX b) (px pos - width / 2 - 10);
         minY := Rmin (minY b) (py pos - height / 2 - 10);
         maxX := Rmax (maxX b) (px pos + width / 2 + 10);
         maxY := Rmax (maxY b) (py pos + height / 2 + 10) |}
  | circle =>
      let radius := radius (node shape) in
      {| minX := Rmin (minX b) (px pos - radius - 10);
         minY := Rmin (minY b) (py pos - radius - 10);
         maxX := Rmax (maxX b) (px pos + radius + 10);
         maxY := Rmax (maxY b) (py pos + radius + 10) |}
  end.

(** The part of [createGroup] after "Create a new group". *)
Definition createNewGroup (now : Z) (st : State) : State * option string :=
  let groupId := mkGroupId now in
  let shapesToGroup := filter (isUngroupedSelected st) (shapes st) in
  let refsToGroup := positions (isUngroupedSelected st) (shapes st) in
  if (List.length shapesToGroup <? 2)%nat
  then (st, Some "Please select at least 2 ungrouped shapes to create a new group")
  else
    let avgX := average (fun shape => px (position (node shape))) shapesToGroup in
    let avgY := average (fun shape => py (position (node shape))) shapesToGroup in
    let sl := fold_left (groupOne (groups st) groupId avgX avgY) refsToGroup
                (spread (shapes st)) in
    let b := fold_left addShapeBounds (objects sl refsToGroup) noBounds in
    let newGroup :=
      {| gid := groupId;
         gnode := {| g_position := {| px := avgX; py := avgY |};
                     g_rotation := 0;
                     g_scaleX := 1;
                     g_scaleY := 1;
                     g_draggable := true |};
         backgroundNode := backgroundOf b |} in
    ({| shapes := map updated sl;
        groups := groups st ++ [newGroup];
        selectedIds := [groupId];
        hoveredId := hoveredId st |}, None).

(** [createGroup]: the new state, and the message of the [alert] if one is
    shown. *)
Definition createGroup (now : Z) (st : State) : State * option string :=
  if (List.length (selectedIds st) <? 2)%nat
  then (st, Some "Please select at least 2 shapes to group")
  else
    match selectedGroups st with
    | [targetGroup] =>
        if existsb (notMemberOf targetGroup)
                   (filter (isSelectedShape st) (shapes st))
        then addToExisting targetGroup st
        else if (0 <? List.length (filter (isSelectedShape st) (shapes st)))%nat
        then addToExisting targetGroup st
        else createNewGroup now st
    | _ => createNewGroup now st
    end.

(** ** Dissolving a group *)

(** [shape.groupId === g]. *)
Definition inGroup (g : string) (shape : ShapeData) : bool :=
  is_id (groupId shape) g.

(** One round of [groupShapes.forEach] in [ungroup]. *)
Definition ungroupOne (gs : list GroupData) (group : GroupData)
    (sl : list Slot) (i : Ref) : list Slot :=
  match nth_error sl i with
  | None => sl
  | Some c =>
      let shape := obj c in
      let absPos := getAbsolutePosition gs shape in
      let absRotation := rotation (node shape) + g_rotation (gnode group) in
      assign_groupId (id shape) None
        (update_at i
           (on_obj (fun s =>
              with_node (fun n =>
                 set_draggable true
                   (set_rotation absRotation (set_position absPos n)))
                (moveTo Layer s))) sl)
  end.

(** [ungroup]. *)
Definition ungroup (st : State) : State * option string :=
  match selectedIds st with
  | [groupId] =>
      match findGroup (groups st) groupId with
      | None => (st, Some "Selected item is not a group")
      | Some group =>
          let groupShapes := filter (inGroup groupId) (shapes st) in
          let refs := positions (inGroup groupId) (shapes st) in
          let sl := fold_left (ungroupOne (groups st) group) refs
                      (spread (shapes st)) in
          let ungroupedShapeIds := map id groupShapes in
          ({| shapes := map updated (destroyGroupNode (gid group) sl);
              groups := filter (fun g => negb (String.eqb (gid g) groupId)) (groups st);
              selectedIds := ungroupedShapeIds;
              hoveredId := hoveredId st |}, None)
      end
  | _ => (st, Some "Please select one group to ungroup")
  end.

(** [clearAll]. *)
Definition clearAll (st : State) : State := initialState.

(** ** The group button of [KonvaShapeEditor] *)

(** [selectedIds.length === 1 && groups.some(g => g.id === selectedIds[0])]. *)
Definition oneGroupSelected (sel : list string) (gs : list GroupData) : bool :=
  match sel with
  | [i] => existsb (fun g => String.eqb (gid g) i) gs
  | _ => false
  end.

(** The text the registered callback works out: ['Ungroup'] for one selected
    group; both other branches leave ['Create Group']. *)
Definition newButtonText (sel : list string) (gs : list GroupData) : string :=
  if oneGroupSelected sel gs then "Ungroup" else "Create Group".

(** What the callback passed to [setUpdateGroupButton] closes over. *)
Record Callback := mkCallback {
  cb_selectedIds : list string;
  cb_groups : list GroupData;
  cb_groupButtonText : string
}.

(** The component: the engine, the label, and the callback that the last
    commit registered. *)
Record Editor := mkEditor {
  app : State;
  groupButtonText : string;
  updateGroupButton : Callback
}.

(** A call of the callback: the text it hands to [setGroupButtonText], if
    it does ("Only update if the text has changed"). *)
Definition runCallback (c : Callback) : option string :=
  let t := newButtonText (cb_selectedIds c) (cb_groups c) in
  if String.eqb t (cb_groupButtonText c) then None else Some t.

(** The commit after a handler that left the engine in [st'] and the label
    at [text].  When the handler set the engine's state, the engine's effect
    runs and calls the callback, which is still the one of the commit
    before; then the editor's own effect registers the callback of this
    commit. *)
Definition commit (e : Editor) (st' : State) (engineSet : bool)
    (text : string) : Editor :=
  let text' :=
    if engineSet then
      match runCallback (updateGroupButton e) with
      | Some t => t
      | None => text
      end
    else text in
  {| app := st'; groupButtonText := text';
     updateGroupButton :=
       {| cb_selectedIds := selectedIds st'; cb_groups := groups st';
          cb_groupButtonText := text' |} |}.

(** The component after its first commit. *)
Definition mounted : Editor :=
  {| app := initialState; groupButtonText := "Create Group";
     updateGroupButton :=
       {| cb_selectedIds := []; cb_groups := [];
          cb_groupButtonText := "Create Group" |} |}.

(** Whether an operation of the engine got past its alerts. *)
Definition passed (r : State * option string) : bool :=
  match snd r with
  | None => true
  | Some _ => false
  end.

(** [handleGroupButton].  [createGroup] and [ungroup] call the callback
    themselves on success, but the handler sets the label after them, and
    of the labels set in one handler the last is the one committed. *)
Definition handleGroupButton (now : Z) (e : Editor) : Editor :=
  if oneGroupSelected (selectedIds (app e)) (groups (app e)) then
    let r := ungroup (app e) in
    commit e (fst r) (passed r) "Create Group"
  else
    let r := createGroup now (app e) in
    commit e (fst r) (passed r) "Ungroup".

(** [handleClearAll]. *)
Definition handleClearAll (e : Editor) : Editor :=
  commit e (clearAll (app e)) true "Create Group".

(** ** Notions the properties are stated with *)

(** The distance between two points. *)
Definition dist (p q : Point) : R :=
  sqrt ((px p - px q) * (px p - px q) + (py p - py q) * (py p - py q)).

(** The corners of the box of size [w] by [h] centred at [c], in the order
    top-left, top-right, bottom-left, bottom-right. *)
Definition boxCorners (c : Point) (w h : R) : list Point :=
  [ {| px := px c - w / 2; py := py c - h / 2 |};
    {| px := px c + w / 2; py := py c - h / 2 |};
    {| px := px c - w / 2; py := py c + h / 2 |};
    {| px := px c + w / 2; py := py c + h / 2 |} ].

(** The shapes of a state that name the group [g]. *)
Definition members (g : string) (st : State) : list ShapeData :=
  filter (inGroup g) (shapes st).

(** Every group of the state has at least two member shapes. *)
Definition groupsHaveTwo (st : State) : bool :=
  forallb (fun G => (2 <=? List.length (members (gid G) st))%nat) (groups st).

(** ** Example states *)

Definition rectAt (i : string) (x y : R) (c : Container) (g : option string)
    : ShapeData :=
  {| id := i;
     node := {| position := {| px := x; py := y |}; rotation := 0;
                draggable := match g with None => true | Some _ => false end;
                width := 100; height := 50; radius := 0; fill := "red" |};
     group := c; type := rectangle; groupId := g |}.

Definition circleAt (i : string) (x y r : R) : ShapeData :=
  {| id := i;
     node := {| position := {| px := x; py := y |}; rotation := 0;
                draggable := true; width := 0; height := 0; radius := r;
                fill := "blue" |};
     group := Layer; type := circle; groupId := None |}.

Definition groupAt (i : string) (x y : R) : GroupData :=
  {| gid := i;
     gnode := {| g_position := {| px := x; py := y |}; g_rotation := 0;
                 g_scaleX := 1; g_scaleY := 1; g_draggable := true |};
     backgroundNode := {| bg_position := {| px := 0; py := 0 |};
                          bg_width := 0; bg_height := 0 |} |}.

(** A rectangle and a circle, both selected. *)
Definition twoSelected : State :=
  setSelectedIds [rectId 1; circleId 2]
    (addCircle 2 30 40 "red" (addRectangle 1 10 20 "blue" initialState)).

(** Three rectangles: the first two form a group, which is selected together
    with the third. *)
Definition oneGroupAndAShape : State :=
  setSelectedIds [rectId 3; mkGroupId 4]
    (addRectangle 3 50 60 "green" (fst (createGroup 4 twoSelected))).

(** Two groups, both selected. *)
Definition twoGroupsSelected : State :=
  {| shapes := [ rectAt "rect-1" (-10) 0 (GroupNode "group-5") (Some "group-5");
                 rectAt "rect-2" 10 0 (GroupNode "group-5") (Some "group-5");
                 rectAt "rect-3" (-10) 0 (GroupNode "group-6") (Some "group-6");
                 rectAt "rect-4" 10 0 (GroupNode "group-6") (Some "group-6") ];
     groups := [ groupAt "group-5" 100 100; groupAt "group-6" 300 300 ];
     selectedIds := ["group-5"; "group-6"];
     hoveredId := None |}.

(** Six rectangles; the first three are grouped, then the next two. *)
Definition sixRectangles : State :=
  addRectangle 6 (-50) 0 "red"
    (addRectangle 5 600 600 "blue"
       (addRectangle 4 500 500 "green"
          (addRectangle 3 300 0 "red"
             (addRectangle 2 0 0 "blue"
                (addRectangle 1 0 0 "green" initialState))))).

Definition twoGroupsAndAShape : State :=
  fst (createGroup 8
         (setSelectedIds [rectId 4; rectId 5]
            (fst (createGroup 7
                    (setSelectedIds [rectId 1; rectId 2; rectId 3]
                       sixRectangles))))).

(** Two members of the group of three are selected themselves, together
    with the group of two. *)
Definition twoLeaveAGroupOfThree : State :=
  setSelectedIds [rectId 1; rectId 2; mkGroupId 8] twoGroupsAndAShape.

(** The third rectangle, which lies right of the origin of its group, has
    moved to the other group; the two members that stay lie left of the
    origin.  The free rectangle, which lies left of it too, is selected
    together with their group. *)
Definition membersLeftOfOrigin : State :=
  setSelectedIds [rectId 6; mkGroupId 7]
    (fst (createGroup 9
            (setSelectedIds [rectId 3; mkGroupId 8] twoGroupsAndAShape))).

(** ** The rounds of the [forEach] loops

    The rounds of "Move shapes to the group" and of [ungroup], and the
    second half of a round of [addShapesToGroup], have one form: the object
    behind the reference is changed in place, by a change worked out from
    the object as the round finds it, and a copy with the new [groupId] is
    stored under the object's id. *)
Definition roundOf (change : ShapeData -> ShapeData -> ShapeData)
    (g : option string) (sl : list Slot) (i : Ref) : list Slot :=
  match nth_error sl i with
  | None => sl
  | Some c =>
      assign_groupId (id (obj c)) g (update_at i (on_obj (change (obj c))) sl)
  end.

(** What a round makes of the slot it works on when the copy lands in the
    same slot. *)
Definition settled (change : ShapeData -> ShapeData -> ShapeData)
    (g : option string) (c : Slot) : Slot :=
  replace_copy g (on_obj (change (obj c)) c).

(** The changes of the three loops. *)
Definition groupChange (gs : list GroupData) (g : string) (avgX avgY : R)
    (shape s : ShapeData) : ShapeData :=
  let absPos := getAbsolutePosition gs shape in
  let relPos := {| px := px absPos - avgX; py := py absPos - avgY |} in
  with_node (fun n => set_draggable false (set_position relPos n))
            (moveTo (GroupNode g) s).

Definition ungroupChange (gs : list GroupData) (group : GroupData)
    (shape s : ShapeData) : ShapeData :=
  let absPos := getAbsolutePosition gs shape in
  let absRotation := rotation (node shape) + g_rotation (gnode group) in
  with_node (fun n => set_draggable true
                        (set_rotation absRotation (set_position absPos n)))
            (moveTo Layer s).

(** The place of a shape in a group turned by [groupRotation] radians. *)
Definition localPlace (globalPos groupPos : Point) (groupRotation : R) : Point :=
  let dx := px globalPos - px groupPos in
  let dy := py globalPos - py groupPos in
  if Req_dec_T groupRotation 0 then {| px := dx; py := dy |}
  else
    let cos := cos (- groupRotation) in
    let sin := sin (- groupRotation) in
    {| px := dx * cos - dy * sin; py := dx * sin + dy * cos |}.

Definition joinChange (gs : list GroupData) (targetGroup : GroupData)
    (shape s : ShapeData) : ShapeData :=
  let globalPos := getAbsolutePosition gs shape in
  let globalRotation := getAbsoluteRotation gs shape in
  let d := localPlace globalPos (g_position (gnode targetGroup))
             (groupAbsoluteRotation targetGroup * PI / 180) in
  with_node (fun n =>
     set_draggable false
       (set_rotation (globalRotation - groupAbsoluteRotation targetGroup)
          (set_position d n)))
    (moveTo (GroupNode (gid targetGroup)) s).

(** What the rounds of "Move shapes to the group" make of a shape. *)
Definition grouped (gs : list GroupData) (g : string) (avgX avgY : R)
    (s : ShapeData) : ShapeData :=
  with_groupId (Some g) (groupChange gs g avgX avgY s s).

(** What the rounds of [ungroup] make of a shape. *)
Definition ungrouped (gs : list GroupData) (group : GroupData)
    (s : ShapeData) : ShapeData :=
  with_groupId None (ungroupChange gs group s s).

(** ** What [addShapesToGroup] keeps true from round to round *)

(** What the dissolve of the group [hid] makes of a slot. *)
Definition dissolved (gs : list GroupData) (hid : string) (c : Slot) : Slot :=
  on_obj (goesWith hid)
         (if is_id (updated_groupId c) hid then release gs c else c).

(** Whether the round of the reference [j] is over. *)
Definition isDone (done : list Ref) (j : Ref) : bool :=
  existsb (Nat.eqb j) done.

(** A slot against the shape [s] the render had at its index.  The object
    still names the group [s] named, or none.  Once its round is over, the
    slot holds a copy that names the target.  Before, it holds the object
    itself, which names no group exactly when the group [s] named has been
    dissolved, and then hangs in the layer. *)
Definition slotInv (tid : string) (rem : list string) (d : bool)
    (s : ShapeData) (c : Slot) : Prop :=
  (groupId (obj c) = groupId s \/ groupId (obj c) = None) /\
  if d then copied c = Some (Some tid)
  else copied c = None /\
       forall h', groupId s = Some h' ->
                  (groupId (obj c) = None <-> In h' rem) /\
                  (In h' rem -> group (obj c) = Layer).

(** The working memory after the rounds of [done], against the [shapes]
    [l] and the [groups] [gs] of the render. *)
Record LoopInv (gs : list GroupData) (tid : string) (l : list ShapeData)
    (done : list Ref) (h : Heap) : Prop := mkLoopInv {
  inv_ids : map (fun c => id (obj c)) (slots h) = map id l;
  inv_slots : forall j s c,
      nth_error l j = Some s -> nth_error (slots h) j = Some c ->
      slotInv tid (removed h) (isDone done j) s c;
  inv_target : ~ In tid (removed h);
  inv_dissolved : forall i s hh,
      In i done -> nth_error l i = Some s ->
      groupId s = Some hh -> hh <> "" -> In hh (map gid gs) ->
      (List.length (filter (inGroup hh) l) <= 2)%nat ->
      In hh (removed h)
}.

(** ** The transformers

    The effect that runs after every change of [selectedIds], [hoveredId],
    [shapes] or [groups] writes the attributes of the two
    [Konva.Transformer]s and attaches them to nodes.  A shape node is named
    by the reference of its [ShapeData], a group node by its id. *)

Inductive NodeRef :=
| OfShape (r : Ref)
| OfGroup (g : string).

(** The attributes of a transformer that the effect writes, and the nodes it
    is attached to. *)
Record Transformer := mkTransformer {
  rotateEnabled : bool;
  resizeEnabled : bool;
  anchorSize : R;
  borderStroke : string;
  borderDash : list R;
  borderStrokeWidth : R;
  rotateAnchorOffset : R;
  enabledAnchors : list string;
  nodes : list NodeRef
}.

Definition allAnchors : list string :=
  ["top-left"; "top-center"; "top-right"; "middle-right"; "middle-left";
   "bottom-left"; "bottom-center"; "bottom-right"].

(** The two transformers as the first effect creates them. *)
Definition newSelectionTransformer : Transformer :=
  {| rotateEnabled := true; resizeEnabled := true; anchorSize := 6;
     borderStroke := "rgba(0,161,255,1)"; borderDash := [];
     borderStrokeWidth := 4; rotateAnchorOffset := 30;
     enabledAnchors := allAnchors; nodes := [] |}.

Definition newHoverTransformer : Transformer :=
  {| rotateEnabled := false; resizeEnabled := false; anchorSize := 0;
     borderStroke := "rgba(0,161,255,0.7)"; borderDash := [5; 5];
     borderStrokeWidth := 4; rotateAnchorOffset := 0;
     enabledAnchors := []; nodes := [] |}.

(** [transformer.nodes(ns)]. *)
Definition attach (ns : list NodeRef) (t : Transformer) : Transformer :=
  {| rotateEnabled := rotateEnabled t; resizeEnabled := resizeEnabled t;
     anchorSize := anchorSize t; borderStroke := borderStroke t;
     borderDash := borderDash t; borderStrokeWidth := borderStrokeWidth t;
     rotateAnchorOffset := rotateAnchorOffset t;
     enabledAnchors := enabledAnchors t; nodes := ns |}.

(** The node a selected or hovered id stands for: the node of the shape
    with that id if there is one, else that of the group with that id. *)
Definition nodeOf (st : State) (i : string) : option NodeRef :=
  match findIndex (fun s => String.eqb (id s) i) (shapes st) with
  | Some r => Some (OfShape r)
  | None =>
      match findGroup (groups st) i with
      | Some g => Some (OfGroup (gid g))
      | None => None
      end
  end.

(** [selectedIds.map(...).filter(node => node !== null)]. *)
Definition selectedNodes (st : State) : list NodeRef :=
  flat_map (fun i => match nodeOf st i with
                     | Some n => [n]
                     | None => []
                     end) (selectedIds st).

(** [selectedIds.some(id => { const shape = shapes.find(...);
     return shape && shape.groupId !== null })]. *)
Definition isAnySelectedInGroup (st : State) : bool :=
  existsb (fun i => match find (fun s => String.eqb (id s) i) (shapes st) with
                    | Some shape =>
                        match groupId shape with
                        | Some _ => true
                        | None => false
                        end
                    | None => false
                    end) (selectedIds st).

(** "Update selection transformer". *)
Definition updateSelectionTransformer (st : State) (t : Transformer)
    : Transformer :=
  if (0 <? List.length (selectedIds st))%nat then
    if isAnySelectedInGroup st then
      {| rotateEnabled := false; resizeEnabled := false; anchorSize := 0;
         borderStroke := "rgba(0,161,255,0.7)"; borderDash := [5; 5];
         borderStrokeWidth := 4; rotateAnchorOffset := 0;
         enabledAnchors := []; nodes := selectedNodes st |}
    else
      {| rotateEnabled := true; resizeEnabled := true; anchorSize := 6;
         borderStroke := "rgba(0,161,255,1)"; borderDash := [];
         borderStrokeWidth := 4; rotateAnchorOffset := 30;
         enabledAnchors := allAnchors; nodes := selectedNodes st |}
  else attach [] t.

(** "Update hover transformer". *)
Definition updateHoverTransformer (st : State) (t : Transformer)
    : Transformer :=
  match hoveredId st with
  | Some h =>
      if negb (String.eqb h "") && negb (includes (selectedIds st) h) then
        match findIndex (fun s => String.eqb (id s) h) (shapes st) with
        | Some r => attach [OfShape r] t
        | None =>
            match findGroup (groups st) h with
            | Some g => attach [OfGroup (gid g)] t
            | None => t
            end
        end
      else attach [] t
  | None => attach [] t
  end.

(** ** The end of a transform gesture *)

(** [boundBoxFunc] of the selection transformer, on the sizes of the two
    boxes. *)
Record Box := mkBox { box_width : R; box_height : R }.

Definition boundBoxFunc (oldBox newBox : Box) : Box :=
  if Rlt_dec (box_width newBox) 5 then oldBox
  else if Rlt_dec (box_height newBox) 5 then oldBox
  else newBox.

(** The size attributes of a node together with the scale a gesture leaves
    on it. *)
Record Sized := mkSized {
  sz_width : R;
  sz_height : R;
  sz_radius : R;
  scaleX : R;
  scaleY : R
}.

(** The [transformend] listener of a rectangle. *)
Definition rectTransformEnd (n : Sized) : Sized :=
  {| sz_width := sz_width n * scaleX n;
     sz_height := sz_height n * scaleY n;
     sz_radius := sz_radius n;
     scaleX := 1; scaleY := 1 |}.

(** The [transformend] listener of a circle. *)
Definition circleTransformEnd (n : Sized) : Sized :=
  let avgScale := (scaleX n + scaleY n) / 2 in
  {| sz_width := sz_width n;
     sz_height := sz_height n;
     sz_radius := sz_radius n * avgScale;
     scaleX := 1; scaleY := 1 |}.

(** ** The events of the editor *)

(** What the user and the clock feed the engine.  A click reaches
    [handleShapeClick] through the listener of the clicked node, with the
    [shapes] array that listener's callback closes over. *)
Inductive Action :=
| AddRectangle (now : Z) (x y : R) (color : string)
| AddCircle (now : Z) (x y : R) (color : string)
| Click (captured : list ShapeData) (i : string) (isShiftKey : bool)
| StageClick
| MouseEnter (i : string)
| MouseLeave
| CreateGroup (now : Z)
| Ungroup
| ClearAll.

Definition perform (st : State) (a : Action) : State :=
  match a with
  | AddRectangle now x y color => addRectangle now x y color st
  | AddCircle now x y color => addCircle now x y color st
  | Click captured i isShiftKey =>
      setSelectedIds (handleShapeClick captured i isShiftKey (selectedIds st)) st
  | StageClick => stageClick st
  | MouseEnter i => setHoveredId (Some i) st
  | MouseLeave => setHoveredId None st
  | CreateGroup now => fst (createGroup now st)
  | Ungroup => fst (ungroup st)
  | ClearAll => clearAll st
  end.

(** What [Date.now()] returns to an action that asks. *)
Definition clockOf (a : Action) : option Z :=
  match a with
  | AddRectangle now _ _ _ => Some now
  | AddCircle now _ _ _ => Some now
  | CreateGroup now => Some now
  | _ => None
  end.

(** The clock readings of a run grow strictly, starting above [last]. *)
Fixpoint ticking (last : Z) (l : list Action) : Prop :=
  match l with
  | [] => True
  | a :: l' =>
      match clockOf a with
      | Some t => (last < t)%Z /\ ticking t l'
      | None => ticking last l'
      end
  end.

(** ** Well-formed states *)

(** The ids are unique and made as the engine makes them, and every shape
    hangs where its [groupId] says: in the layer when it has none, in the
    node of a group of the state otherwise. *)
Record wellFormed (st : State) : Prop := mkWellFormed {
  wf_shape_ids : NoDup (map id (shapes st));
  wf_group_ids : NoDup (map gid (groups st));
  wf_shape_names : forall s, In s (shapes st) ->
      exists t, id s = rectId t \/ id s = circleId t;
  wf_group_names : forall G, In G (groups st) -> exists t, gid G = mkGroupId t;
  wf_attached : forall s, In s (shapes st) ->
      match groupId s with
      | None => group s = Layer
      | Some g => group s = GroupNode g /\ In g (map gid (groups st))
      end
}.

(** Every id of the state was made before the clock read [bound]. *)
Definition madeBefore (bound : Z) (st : State) : Prop :=
  (forall s, In s (shapes st) ->
             exists t, (t < bound)%Z /\ (id s = rectId t \/ id s = circleId t)) /\
  (forall G, In G (groups st) -> exists t, (t < bound)%Z /\ gid G = mkGroupId t).

(** What no grouping operation changes of a shape. *)
Definition frame (s : ShapeData)
    : string * ShapeType * R * R * R * string :=
  (id s, type s, width (node s), height (node s), radius (node s),
   fill (node s)).

(** Where a shape is on the canvas and how it is turned. *)
Definition placement (gs : list GroupData) (s : ShapeData) : Point * R :=
  (getAbsolutePosition gs s, getAbsoluteRotation gs s).

(** The node of the group has the scale it was created with: no resize
    gesture has been made on it. *)
Definition unscaled (G : GroupData) : Prop :=
  g_scaleX (gnode G) = 1 /\ g_scaleY (gnode G) = 1.

(** A slot of [addShapesToGroup] against the shape [s] the render had at
    its index: the object has the frame of [s] and, when no group is
    scaled, its placement, and it hangs where [updatedShapes] says, in the
    layer or in a group that is alive. *)
Definition slotKeeps (gs : list GroupData) (rem : list string)
    (s : ShapeData) (c : Slot) : Prop :=
  frame (obj c) = frame s /\
  (Forall unscaled gs -> placement gs (obj c) = placement gs s) /\
  match updated_groupId c with
  | None => group (obj c) = Layer
  | Some g => group (obj c) = GroupNode g /\ In g (map gid gs) /\ ~ In g rem
  end.

Definition Keeps (gs : list GroupData) (l : list ShapeData) (h : Heap) : Prop :=
  forall j s c, nth_error l j = Some s -> nth_error (slots h) j = Some c ->
                slotKeeps gs (removed h) s c.


(** Every shape of [st] is still in [st'], at its index, with the frame and
    the placement it had. *)
Definition keepsScene (st st' : State) : Prop :=
  forall j s,
    nth_error (shapes st) j = Some s ->
    exists s',
      nth_error (shapes st') j = Some s' /\
      frame s' = frame s /\
      placement (groups st') s' = placement (groups st) s.


(** The state after the actions of [l], in their order. *)
Definition run (l : list Action) (st : State) : State := fold_left perform l st.

Definition isClearAll (a : Action) : bool :=
  match a with
  | ClearAll => true
  | _ => false
  end.

(** What a run keeps true of the state: it is well formed, its ids were
    made at clock readings up to [last], no id is selected twice, and no
    group is scaled (the actions of a run include no gesture). *)
Definition sound (last : Z) (st : State) : Prop :=
  wellFormed st /\ madeBefore (last + 1) st /\ NoDup (selectedIds st) /\
  Forall unscaled (groups st).


(** The last clock reading of a run that starts after [last]. *)
Definition lastClock (last : Z) (l : list Action) : Z :=
  fold_left (fun c a => match clockOf a with Some t => t | None => c end) l last.


(** The region [updateGroupBoundingBox] takes a shape to fill, padding
    included: for a rectangle the box around [position] that its four
    points span, for a circle the disc of radius [radius + 10] around
    [position]. *)
Definition inPadded (shape : ShapeData) (q : Point) : Prop :=
  let pos := position (node shape) in
  match type shape with
  | rectangle =>
      Rabs (px q - px pos) <= Rabs (width (node shape) / 2 + 10) /\
      Rabs (py q - py pos) <= Rabs (height (node shape) / 2 + 10)
  | circle =>
      (px q - px pos) * (px q - px pos) + (py q - py pos) * (py q - py pos)
      <= (radius (node shape) + 10) * (radius (node shape) + 10)
  end.

(** The point [q] lies on the background rectangle. *)
Definition covers (bg : Background) (q : Point) : Prop :=
  px (bg_position bg) <= px q <= px (bg_position bg) + bg_width bg /\
  py (bg_position bg) <= py q <= py (bg_position bg) + bg_height bg.


(** The box "Calculate group bounds" takes a shape to fill, padding
    included. *)
Definition paddedBox (shape : ShapeData) : Bounds :=
  let pos := position (node shape) in
  match type shape with
  | rectangle =>
      {| minX := px pos - width (node shape) / 2 - 10;
         minY := py pos - height (node shape) / 2 - 10;
         maxX := px pos + width (node shape) / 2 + 10;
         maxY := py pos + height (node shape) / 2 + 10 |}
  | circle =>
      {| minX := px pos - radius (node shape) - 10;
         minY := py pos - radius (node shape) - 10;
         maxX := px pos + radius (node shape) + 10;
         maxY := py pos + radius (node shape) + 10 |}
  end.


(** The box a gesture ends with: the transformer asks [boundBoxFunc] at
    every move, with the box it had and the box the pointer proposes. *)
Definition gesture (start : Box) (proposals : list Box) : Box :=
  fold_left boundBoxFunc proposals start.

(** The size a node is drawn with: its size attribute times its scale. *)
Definition shownWidth (n : Sized) : R := sz_width n * scaleX n.
Definition shownHeight (n : Sized) : R := sz_height n * scaleY n.
Definition shownRadiusX (n : Sized) : R := sz_radius n * scaleX n.
Definition shownRadiusY (n : Sized) : R := sz_radius n * scaleY n.

(** The registered callback is the one of the editor's last commit. *)
Definition coherent (e : Editor) : Prop :=
  updateGroupButton e =
  {| cb_selectedIds := selectedIds (app e); cb_groups := groups (app e);
     cb_groupButtonText := groupButtonText e |}.

(** The label is the one the callback's policy gives for the selection. *)
Definition labelAgrees (e : Editor) : Prop :=
  groupButtonText e = newButtonText (selectedIds (app e)) (groups (app e)).


(** One run of the effect "Update transformers when selection or hover
    changes", on the selection transformer and the hover transformer. *)
Definition effect (ts : Transformer * Transformer) (st : State)
    : Transformer * Transformer :=
  (updateSelectionTransformer st (fst ts), updateHoverTransformer st (snd ts)).

(** The transformers after the effect has run for each state of [sts] in
    turn, from their creation on. *)
Definition effects (sts : list State) : Transformer * Transformer :=
  fold_left effect sts (newSelectionTransformer, newHoverTransformer).


(** ** The click listeners on the canvas

    [addRectangle] and [addCircle] register the click listener of the node
    they make once, in the render in which they are called.  The listener
    calls the [handleShapeClick] of that render, whose [shapes] do not hold
    the new shape ([setShapes] appends it afterwards), and it sets
    [e.cancelBubble], so that no listener of a group the shape comes to
    hang in runs after it.  [createGroup] registers the listeners of the
    group node and of its background in the same way, with the id of the
    group. *)

(** A click on the node whose listener was registered with the id [i] in
    the render of the state [registered]. *)
Definition clickOn (registered : State) (i : string) (isShiftKey : bool)
    : Action :=
  Click (shapes registered) i isShiftKey.

(** A rectangle is added to the empty canvas, then a circle; a click on the
    rectangle and a shift-click on the circle select both, and they are
    grouped. *)
Definition oneShape : State := addRectangle 1 10 20 "blue" initialState.

Definition twoShapes : State := addCircle 2 30 40 "red" oneShape.

Definition pairSelected : State :=
  perform (perform twoShapes (clickOn initialState (rectId 1) false))
          (clickOn oneShape (circleId 2) true).

Definition groupedPair : State := fst (createGroup 3 pairSelected).


(** A group whose node stands at [(x, y)], unturned, at the scale
    [(sx, sy)] a resize gesture of the selection transformer has left on
    it, with two rectangles in it, and a third rectangle on the layer at
    [(u, v)]. *)
Definition resizedGroupAndAShape (x y sx sy u v : R) : State :=
  {| shapes := [rectAt (rectId 1) 0 0 (GroupNode (mkGroupId 3)) (Some (mkGroupId 3));
                rectAt (rectId 2) 5 5 (GroupNode (mkGroupId 3)) (Some (mkGroupId 3));
                rectAt (rectId 4) u v Layer None];
     groups := [{| gid := mkGroupId 3;
                   gnode := {| g_position := {| px := x; py := y |};
                               g_rotation := 0;
                               g_scaleX := sx; g_scaleY := sy;
                               g_draggable := true |};
                   backgroundNode := {| bg_position := {| px := 0; py := 0 |};
                                        bg_width := 0; bg_height := 0 |} |}];
     selectedIds := [rectId 4; mkGroupId 3];
     hoveredId := None |}.

(** * Properties *)

(** Runs the engine on a given state; the arithmetic of the reals and what
    Konva reads off a transform are left as they stand. *)
Ltac run_engine :=
  cbv -[Rplus Rminus Rmult Rdiv Rinv Ropp Rle Rlt IZR INR Rmin Rmax
        MAX_VALUE MIN_VALUE cos sin acos sqrt PI Req_dec_T Rlt_dec
        decomposeRotation].

(** ** Konva transforms *)

Lemma point_eq (a b c d : R) :
  a = c -> b = d -> {| px := a; py := b |} = {| px := c; py := d |}.
Proof. intros -> ->; reflexivity. Qed.

Lemma point_eta (p : Point) : {| px := px p; py := py p |} = p.
Proof. destruct p; reflexivity. Qed.

Lemma nonzero_true (a b : R) : 0 < a * a + b * b -> nonzero a b = true.
Proof.
  intros H. unfold nonzero.
  destruct (Req_dec_T a 0) as [Ea|_]; [|reflexivity].
  destruct (Req_dec_T b 0) as [Eb|_]; [|reflexivity].
  subst. lra.
Qed.

(** The angle [decompose] finds has the direction of the vector it is
    found from. *)
Lemma acos_turn (a b : R) :
  0 < a * a + b * b ->
  let r := sqrt (a * a + b * b) in
  let t := if Rlt_dec 0 b then acos (a / r) else - acos (a / r) in
  0 < r /\ cos t = a / r /\ sin t = b / r.
Proof.
  intros Hpos r t.
  assert (Hr : 0 < r) by (apply sqrt_lt_R0; exact Hpos).
  assert (Hrr : r * r = a * a + b * b) by (apply sqrt_sqrt; lra).
  assert (Hx : -1 <= a / r <= 1).
  { assert (Ha : Rabs a <= Rabs r).
    { apply Rsqr_le_abs_0. unfold Rsqr. nra. }
    rewrite (Rabs_right r) in Ha by lra.
    unfold Rabs in Ha. destruct (Rcase_abs a).
    - split.
      + apply Rmult_le_reg_r with r; [exact Hr|]. unfold Rdiv.
        rewrite Rmult_assoc, Rinv_l by lra. lra.
      + apply Rmult_le_reg_r with r; [exact Hr|]. unfold Rdiv.
        rewrite Rmult_assoc, Rinv_l by lra. lra.
    - split.
      + apply Rmult_le_reg_r with r; [exact Hr|]. unfold Rdiv.
        rewrite Rmult_assoc, Rinv_l by lra. lra.
      + apply Rmult_le_reg_r with r; [exact Hr|]. unfold Rdiv.
        rewrite Rmult_assoc, Rinv_l by lra. lra. }
  assert (Hsq : 1 - (a / r)² = (b / r)²).
  { unfold Rsqr.
    replace 1 with ((a * a + b * b) / (r * r)) by (rewrite <- Hrr; field; lra).
    field. lra. }
  assert (Hsin : sin (acos (a / r)) = Rabs (b / r)).
  { rewrite sin_acos by exact Hx. rewrite Hsq. apply sqrt_Rsqr_abs. }
  split; [exact Hr|]. subst t.
  destruct (Rlt_dec 0 b) as [Hb|Hb].
  - split; [apply cos_acos, Hx|].
    rewrite Hsin. apply Rabs_right. apply Rle_ge.
    apply Rmult_le_pos; [lra|]. apply Rlt_le, Rinv_0_lt_compat, Hr.
  - rewrite cos_neg, sin_neg. split; [apply cos_acos, Hx|].
    rewrite Hsin. rewrite Rabs_left1; [lra|].
    unfold Rdiv. assert (0 < / r) by (apply Rinv_0_lt_compat, Hr). nra.
Qed.

Lemma radians_of_degrees (t : R) : t * 180 / PI * PI / 180 = t.
Proof. field. apply PI_neq0. Qed.

(** What [decompose] makes of a transform whose first axis does not
    vanish. *)
Lemma decomposeRotation_direction (m : Transform) :
  0 < m_a m * m_a m + m_b m * m_b m ->
  let r := sqrt (m_a m * m_a m + m_b m * m_b m) in
  0 < r /\
  cos (decomposeRotation m * PI / 180) = m_a m / r /\
  sin (decomposeRotation m * PI / 180) = m_b m / r.
Proof.
  intros Hpos r. unfold decomposeRotation. cbv zeta.
  rewrite (nonzero_true _ _ Hpos), radians_of_degrees.
  exact (acos_turn (m_a m) (m_b m) Hpos).
Qed.

(** Two transforms whose first axes have the same direction decompose to
    the same rotation. *)
Lemma decomposeRotation_same_direction (m n : Transform) :
  0 < m_a m * m_a m + m_b m * m_b m ->
  0 < m_a n * m_a n + m_b n * m_b n ->
  m_a m / sqrt (m_a m * m_a m + m_b m * m_b m) =
  m_a n / sqrt (m_a n * m_a n + m_b n * m_b n) ->
  m_b m / sqrt (m_a m * m_a m + m_b m * m_b m) =
  m_b n / sqrt (m_a n * m_a n + m_b n * m_b n) ->
  decomposeRotation m = decomposeRotation n.
Proof.
  intros Hm Hn Ea Eb. unfold decomposeRotation. cbv zeta.
  rewrite (nonzero_true _ _ Hm), (nonzero_true _ _ Hn), Ea.
  assert (Hrm : 0 < sqrt (m_a m * m_a m + m_b m * m_b m))
    by (apply sqrt_lt_R0; exact Hm).
  assert (Hrn : 0 < sqrt (m_a n * m_a n + m_b n * m_b n))
    by (apply sqrt_lt_R0; exact Hn).
  assert (Hsign : 0 < m_b m <-> 0 < m_b n).
  { set (rm := sqrt (m_a m * m_a m + m_b m * m_b m)) in *.
    set (rn := sqrt (m_a n * m_a n + m_b n * m_b n)) in *.
    assert (E1 : m_b m = m_b n / rn * rm) by (rewrite <- Eb; field; lra).
    assert (E2 : m_b n = m_b m / rm * rn) by (rewrite Eb; field; lra).
    assert (0 < / rn) by (apply Rinv_0_lt_compat, Hrn).
    assert (0 < / rm) by (apply Rinv_0_lt_compat, Hrm).
    split; intros Hb.
    - rewrite E2. apply Rmult_lt_0_compat; [|exact Hrn].
      apply Rmult_lt_0_compat; assumption.
    - rewrite E1. apply Rmult_lt_0_compat; [|exact Hrm].
      apply Rmult_lt_0_compat; assumption. }
  destruct (Rlt_dec 0 (m_b m)) as [H1|H1], (Rlt_dec 0 (m_b n)) as [H2|H2];
    try reflexivity; tauto.
Qed.

(** The transform of a node at scale 1 is a turn: its first axis is
    [(cos, sin)] of the angle. *)
Lemma getTransform_unit (p : Point) (deg : R) :
  let m := getTransform p deg 1 1 in
  m_a m = cos (deg * PI / 180) /\ m_b m = sin (deg * PI / 180) /\
  m_a m * m_a m + m_b m * m_b m = 1.
Proof.
  cbv zeta. unfold getTransform. cbn [m_a m_b].
  pose proof (sin2_cos2 (deg * PI / 180)) as H. unfold Rsqr in H.
  repeat split; try ring. nra.
Qed.

(** Turns by angles with the same cosine and sine decompose alike. *)
Lemma decomposeRotation_same_angle (p q : Point) (x y : R) :
  cos (x * PI / 180) = cos (y * PI / 180) ->
  sin (x * PI / 180) = sin (y * PI / 180) ->
  decomposeRotation (getTransform p x 1 1) = decomposeRotation (getTransform q y 1 1).
Proof.
  intros Ec Es.
  destruct (getTransform_unit p x) as (A1 & B1 & U1).
  destruct (getTransform_unit q y) as (A2 & B2 & U2). cbv zeta in *.
  apply decomposeRotation_same_direction; rewrite ?U1, ?U2; try lra.
  - rewrite A1, A2, Ec. reflexivity.
  - rewrite B1, B2, Es. reflexivity.
Qed.

(** The rotation read off a transform, given back to a node at scale 1, is
    read off again unchanged. *)
Lemma decomposeRotation_again (m : Transform) (p : Point) :
  0 < m_a m * m_a m + m_b m * m_b m ->
  decomposeRotation (getTransform p (decomposeRotation m) 1 1) = decomposeRotation m.
Proof.
  intros Hm. destruct (decomposeRotation_direction m Hm) as (Hr & Hc & Hs).
  destruct (getTransform_unit p (decomposeRotation m)) as (A & B & U).
  cbv zeta in *.
  apply decomposeRotation_same_direction; rewrite ?U; try lra.
  - rewrite sqrt_1, A, Hc. field. lra.
  - rewrite sqrt_1, B, Hs. field. lra.
Qed.

(** A turn after a turn is the turn by the sum. *)
Lemma multiply_turns (p q : Point) (g s : R) :
  let m := multiply (getTransform p g 1 1) (getTransform q s 1 1) in
  let n := getTransform q (s + g) 1 1 in
  m_a m = m_a n /\ m_b m = m_b n /\ m_c m = m_c n /\ m_d m = m_d n.
Proof.
  cbv zeta. unfold multiply, getTransform. cbn [m_a m_b m_c m_d].
  replace ((s + g) * PI / 180) with (s * PI / 180 + g * PI / 180) by field.
  rewrite cos_plus, sin_plus. repeat split; ring.
Qed.

Lemma decomposeRotation_ext (m n : Transform) :
  m_a m = m_a n -> m_b m = m_b n -> m_c m = m_c n -> m_d m = m_d n ->
  decomposeRotation m = decomposeRotation n.
Proof.
  intros Ea Eb Ec Ed. unfold decomposeRotation. rewrite Ea, Eb, Ec, Ed. reflexivity.
Qed.

Lemma decomposeRotation_turns (p q p' : Point) (g s : R) :
  decomposeRotation (multiply (getTransform p g 1 1) (getTransform q s 1 1)) =
  decomposeRotation (getTransform p' (s + g) 1 1).
Proof.
  destruct (multiply_turns p q g s) as (Ea & Eb & Ec & Ed). cbv zeta in *.
  rewrite (decomposeRotation_ext _ _ Ea Eb Ec Ed).
  apply decomposeRotation_same_angle; reflexivity.
Qed.

(** A node turned by 0 at scale 1 decomposes to the rotation 0. *)
Lemma decompose_unturned (c d e f : R) :
  decomposeRotation {| m_a := cos (0 * PI / 180) * 1; m_b := sin (0 * PI / 180) * 1;
                       m_c := c; m_d := d; m_e := e; m_f := f |} = 0.
Proof.
  unfold decomposeRotation. cbn [m_a m_b m_c m_d].
  replace (0 * PI / 180) with 0 by lra. rewrite cos_0, sin_0.
  rewrite (nonzero_true (1 * 1) (0 * 1)) by lra.
  destruct (Rlt_dec 0 (0 * 1)) as [H|_]; [lra|].
  replace (1 * 1 * (1 * 1) + 0 * 1 * (0 * 1)) with 1 by ring.
  rewrite sqrt_1. replace (1 * 1 / 1) with 1 by field. rewrite acos_1.
  unfold Rdiv. ring.
Qed.

(** ** Arrays *)

Section Arrays.
Context {A : Type}.

Lemma update_at_length (i : nat) (f : A -> A) (l : list A) :
  List.length (update_at i f l) = List.length l.
Proof.
  revert i; induction l as [|a l IH]; intros [|i]; simpl; auto.
Qed.

Lemma nth_error_update_at (i j : nat) (f : A -> A) (l : list A) :
  nth_error (update_at i f l) j =
  if Nat.eqb i j then option_map f (nth_error l j) else nth_error l j.
Proof.
  revert i j; induction l as [|a l IH]; intros [|i] [|j]; simpl; auto.
  destruct (Nat.eqb _ _); reflexivity.
Qed.

Lemma map_update_at {B : Type} (k : A -> B) (i : nat) (f : A -> A)
    (l : list A) :
  (forall a, k (f a) = k a) -> map k (update_at i f l) = map k l.
Proof.
  intros Hk; revert i; induction l as [|a l IH]; intros [|i]; simpl;
    rewrite ?Hk, ?IH; reflexivity.
Qed.

Lemma findIndex_unique {B : Type} (k : A -> B) (eqb : B -> B -> bool)
    (l : list A) (i : nat) (a : A) :
  (forall x y, eqb x y = true <-> x = y) ->
  NoDup (map k l) ->
  nth_error l i = Some a ->
  findIndex (fun c => eqb (k c) (k a)) l = Some i.
Proof.
  intros Heqb; revert i; induction l as [|b l IH]; intros i Hnd Hi.
  - destruct i; discriminate.
  - simpl in Hnd; inversion Hnd as [|? ? Hnotin Hnd']; subst.
    destruct i as [|i]; simpl in *.
    + injection Hi as ->.
      replace (eqb (k a) (k a)) with true; [reflexivity|].
      symmetry; apply Heqb; reflexivity.
    + destruct (eqb (k b) (k a)) eqn:E.
      * apply Heqb in E. exfalso; apply Hnotin; rewrite E.
        apply in_map, (nth_error_In _ _ Hi).
      * rewrite (IH i Hnd' Hi); reflexivity.
Qed.

Lemma positions_from_spec (p : A -> bool) (k : nat) (l : list A) (j : nat) :
  In j (positions_from p k l) <->
  exists a, (k <= j)%nat /\ nth_error l (j - k) = Some a /\ p a = true.
Proof.
  revert k; induction l as [|b l IH]; intros k; simpl.
  - split; [tauto|]. intros (a & _ & H & _). destruct (j - k)%nat; discriminate.
  - assert (Hrec :
      In j (positions_from p (S k) l) <->
      exists a, (S k <= j)%nat /\ nth_error (b :: l) (j - k) = Some a /\ p a = true).
    { rewrite IH; split; intros (a & Hle & Hn & Hp); exists a; repeat split; auto.
      - replace (j - k)%nat with (S (j - S k)) by lia; exact Hn.
      - replace (j - k)%nat with (S (j - S k)) in Hn by lia; exact Hn. }
    destruct (p b) eqn:Hpb; simpl; rewrite Hrec.
    + split.
      * intros [<- | (a & Hle & Hn & Hp)].
        -- exists b. rewrite Nat.sub_diag; auto.
        -- exists a; repeat split; auto; lia.
      * intros (a & Hle & Hn & Hp).
        destruct (Nat.eq_dec k j) as [->|Hne]; [left; reflexivity|right].
        exists a; repeat split; auto; lia.
    + split.
      * intros (a & Hle & Hn & Hp); exists a; repeat split; auto; lia.
      * intros (a & Hle & Hn & Hp).
        destruct (Nat.eq_dec k j) as [->|Hne].
        -- rewrite Nat.sub_diag in Hn; simpl in Hn. congruence.
        -- exists a; repeat split; auto; lia.
Qed.

Lemma positions_spec (p : A -> bool) (l : list A) (j : nat) :
  In j (positions p l) <-> exists a, nth_error l j = Some a /\ p a = true.
Proof.
  unfold positions; rewrite positions_from_spec, Nat.sub_0_r.
  split; intros (a & H); exists a; intuition lia.
Qed.

Lemma positions_from_NoDup (p : A -> bool) (k : nat) (l : list A) :
  NoDup (positions_from p k l).
Proof.
  revert k; induction l as [|b l IH]; intros k; simpl; [constructor|].
  destruct (p b); [constructor|]; auto.
  rewrite positions_from_spec; intros (a & Hle & _); lia.
Qed.

Lemma positions_NoDup (p : A -> bool) (l : list A) : NoDup (positions p l).
Proof. apply positions_from_NoDup. Qed.

Lemma positions_from_length (p : A -> bool) (k : nat) (l : list A) :
  List.length (positions_from p k l) = List.length (filter p l).
Proof.
  revert k; induction l as [|b l IH]; intros k; simpl; [reflexivity|].
  destruct (p b); simpl; rewrite IH; reflexivity.
Qed.

Lemma positions_length (p : A -> bool) (l : list A) :
  List.length (positions p l) = List.length (filter p l).
Proof. apply positions_from_length. Qed.

Lemma existsb_eqb_In (j : nat) (refs : list nat) :
  existsb (Nat.eqb j) refs = true <-> In j refs.
Proof.
  rewrite existsb_exists; split.
  - intros (x & Hin & E); apply Nat.eqb_eq in E; subst; exact Hin.
  - intros Hin; exists j; split; [exact Hin|apply Nat.eqb_refl].
Qed.

End Arrays.

(** ** The rounds of the loops *)

Lemma update_at_twice {A : Type} (i : nat) (f g : A -> A) (l : list A) :
  update_at i f (update_at i g l) = update_at i (fun a => f (g a)) l.
Proof.
  revert i; induction l as [|a l IH]; intros [|i]; simpl; rewrite ?IH; reflexivity.
Qed.

Lemma update_at_ext {A : Type} (i : nat) (f g : A -> A) (l : list A) (a : A) :
  nth_error l i = Some a -> f a = g a -> update_at i f l = update_at i g l.
Proof.
  revert i; induction l as [|b l IH]; intros [|i]; simpl; try discriminate.
  - intros [= ->] ->; reflexivity.
  - intros Hn Hfg; rewrite (IH i Hn Hfg); reflexivity.
Qed.

Lemma string_eqb_iff (x y : string) : String.eqb x y = true <-> x = y.
Proof. apply String.eqb_eq. Qed.

Lemma groupOne_roundOf gs g avgX avgY :
  groupOne gs g avgX avgY = roundOf (groupChange gs g avgX avgY) (Some g).
Proof. reflexivity. Qed.

Lemma ungroupOne_roundOf gs group :
  ungroupOne gs group = roundOf (ungroupChange gs group) None.
Proof. reflexivity. Qed.

Lemma joinTarget_roundOf gs targetGroup i sl :
  joinTarget gs targetGroup i sl =
  roundOf (joinChange gs targetGroup) (Some (gid targetGroup)) sl i.
Proof. reflexivity. Qed.

Section Rounds.
Variable change : ShapeData -> ShapeData -> ShapeData.
Variable g : option string.
Hypothesis change_id : forall shape s, id (change shape s) = id s.

Lemma roundOf_update (sl : list Slot) (i : Ref) (c : Slot) :
  NoDup (map (fun c => id (obj c)) sl) ->
  nth_error sl i = Some c ->
  roundOf change g sl i = update_at i (settled change g) sl.
Proof.
  intros Hnd Hi. unfold roundOf, assign_groupId. rewrite Hi.
  set (sl1 := update_at i (on_obj (change (obj c))) sl).
  assert (Hi1 : nth_error sl1 i = Some (on_obj (change (obj c)) c)).
  { unfold sl1; rewrite nth_error_update_at, Nat.eqb_refl, Hi; reflexivity. }
  assert (Hnd1 : NoDup (map (fun c => id (obj c)) sl1)).
  { unfold sl1; rewrite map_update_at; [exact Hnd|].
    intros a; simpl; apply change_id. }
  pose proof (findIndex_unique (fun c => id (obj c)) String.eqb sl1 i _
                string_eqb_iff Hnd1 Hi1) as Hfi.
  simpl in Hfi. rewrite change_id in Hfi. rewrite Hfi.
  unfold sl1. rewrite update_at_twice.
  apply (update_at_ext _ _ _ _ c Hi). reflexivity.
Qed.

Lemma roundOf_ids (sl : list Slot) (i : Ref) :
  NoDup (map (fun c => id (obj c)) sl) ->
  map (fun c => id (obj c)) (roundOf change g sl i) =
  map (fun c => id (obj c)) sl.
Proof.
  intros Hnd. destruct (nth_error sl i) as [c|] eqn:Hi.
  - rewrite (roundOf_update sl i c Hnd Hi). apply map_update_at.
    intros a; simpl; apply change_id.
  - unfold roundOf; rewrite Hi; reflexivity.
Qed.

Lemma fold_roundOf_nth (refs : list Ref) :
  forall (sl : list Slot) (j : nat),
  NoDup refs ->
  NoDup (map (fun c => id (obj c)) sl) ->
  nth_error (fold_left (roundOf change g) refs sl) j =
  option_map (fun c => if existsb (Nat.eqb j) refs
                       then settled change g c else c)
             (nth_error sl j).
Proof.
  induction refs as [|i refs IH]; intros sl j Hrefs Hnd; simpl.
  - destruct (nth_error sl j); reflexivity.
  - inversion Hrefs as [|? ? Hnotin Hrefs']; subst.
    rewrite IH; [|exact Hrefs'|rewrite roundOf_ids; assumption].
    destruct (nth_error sl i) as [c|] eqn:Hi.
    + rewrite (roundOf_update sl i c Hnd Hi), nth_error_update_at.
      destruct (Nat.eqb_spec j i) as [->|Hne].
      * rewrite Nat.eqb_refl, Hi; simpl.
        destruct (existsb (Nat.eqb i) refs) eqn:E; [|reflexivity].
        apply existsb_eqb_In in E; contradiction.
      * replace (Nat.eqb i j) with false
          by (symmetry; apply Nat.eqb_neq; congruence).
        reflexivity.
    + unfold roundOf at 1; rewrite Hi.
      destruct (Nat.eqb_spec j i) as [->|Hne]; simpl; [|reflexivity].
      rewrite Hi; reflexivity.
Qed.

(** A loop over the objects that a filter keeps changes exactly those. *)
Lemma forEach_positions (p : ShapeData -> bool) (l : list ShapeData) :
  NoDup (map id l) ->
  fold_left (roundOf change g) (positions p l) (spread l) =
  map (fun s => if p s
                then settled change g {| obj := s; copied := None |}
                else {| obj := s; copied := None |}) l.
Proof.
  intros Hnd. apply nth_error_ext; intros j.
  rewrite fold_roundOf_nth.
  - unfold spread; rewrite !nth_error_map.
    destruct (nth_error l j) as [s|] eqn:Hj; simpl; [|reflexivity].
    destruct (p s) eqn:Hp.
    + replace (existsb (Nat.eqb j) (positions p l)) with true; [reflexivity|].
      symmetry; apply existsb_eqb_In, positions_spec; eauto.
    + replace (existsb (Nat.eqb j) (positions p l)) with false; [reflexivity|].
      symmetry; apply not_true_is_false; intros E.
      apply existsb_eqb_In, positions_spec in E.
      destruct E as (a & Ha & Hpa); congruence.
  - apply positions_NoDup.
  - unfold spread; rewrite map_map; exact Hnd.
Qed.

End Rounds.

(** ** Clicks *)

Lemma includes_In (l : list string) (s : string) :
  includes l s = true <-> In s l.
Proof.
  unfold includes; rewrite existsb_exists; split.
  - intros (x & Hin & E); apply String.eqb_eq in E; subst; exact Hin.
  - intros Hin; exists s; split; [exact Hin|apply String.eqb_refl].
Qed.

Lemma includes_app (l1 l2 : list string) (s : string) :
  includes (l1 ++ l2) s = includes l1 s || includes l2 s.
Proof. unfold includes; apply existsb_app. Qed.

Lemma includes_filter_neq (l : list string) (i j : string) :
  includes (filter (fun selectedId => negb (String.eqb selectedId i)) l) j =
  includes l j && negb (String.eqb j i).
Proof.
  induction l as [|a l IH]; simpl; [reflexivity|].
  destruct (String.eqb a i) eqn:Eai; simpl.
  - rewrite IH. apply String.eqb_eq in Eai; subst a.
    destruct (String.eqb j i); simpl;
      rewrite ?andb_false_r, ?andb_true_r; reflexivity.
  - rewrite IH. destruct (String.eqb j a) eqn:Eja; simpl; [|reflexivity].
    apply String.eqb_eq in Eja; subst a. rewrite Eai; reflexivity.
Qed.

(** A toggle flips the membership of its id and of no other. *)
Lemma toggle_flips (i : string) (prev : list string) :
  includes (toggle i prev) i = negb (includes prev i) /\
  forall j, j <> i -> includes (toggle i prev) j = includes prev j.
Proof.
  unfold toggle; destruct (includes prev i) eqn:E; split.
  - rewrite includes_filter_neq, String.eqb_refl, andb_false_r; reflexivity.
  - intros j Hj; rewrite includes_filter_neq.
    destruct (String.eqb_spec j i); [contradiction|apply andb_true_r].
  - rewrite includes_app, E; simpl; rewrite String.eqb_refl; reflexivity.
  - intros j Hj; rewrite includes_app; simpl.
    destruct (String.eqb_spec j i); [contradiction|].
    rewrite !orb_false_r; reflexivity.
Qed.

Lemma mkGroupId_not_empty (now : Z) : mkGroupId now <> "".
Proof. unfold mkGroupId; simpl; discriminate. Qed.

(** What [handleShapeClick] makes of the selection, as a function of the
    [shapes] array it closes over: when that array holds a shape with the
    id [X] whose [groupId] is a group [G] (a non-empty id, as every
    [group-<timestamp>] is), [G] is selected without the modifier and
    toggled with it; when it holds no shape with the id [X], or one without
    a group, the same happens to [X] itself.  A toggle flips the membership
    of its id in the selection and of no other id. *)
Lemma handleShapeClick_on_its_array :
  forall (shapes : list ShapeData) (X : string) (prev : list string),
    (forall shape G,
        find (fun s => String.eqb (id s) X) shapes = Some shape ->
        groupId shape = Some G -> G <> "" ->
        handleShapeClick shapes X false prev = [G] /\
        handleShapeClick shapes X true prev = toggle G prev) /\
    (find (fun s => String.eqb (id s) X) shapes = None \/
     (exists shape, find (fun s => String.eqb (id s) X) shapes = Some shape /\
                    groupId shape = None) ->
     handleShapeClick shapes X false prev = [X] /\
     handleShapeClick shapes X true prev = toggle X prev) /\
    (forall i,
        includes (toggle i prev) i = negb (includes prev i) /\
        forall j, j <> i -> includes (toggle i prev) j = includes prev j).
Proof.
  intros shapes X prev; split; [|split].
  - intros shape G Hfind HG Hne. unfold handleShapeClick; rewrite Hfind.
    destruct shape as [i n c t g]; simpl in HG; subst g.
    destruct (String.eqb_spec G ""); [contradiction|]. simpl; auto.
  - intros [Hnone | (shape & Hfind & HG)]; unfold handleShapeClick.
    + rewrite Hnone; auto.
    + rewrite Hfind. destruct shape as [i n c t g]; simpl in HG; subst g; auto.
  - intros i; apply toggle_flips.
Qed.

(** The listener of a shape never finds the shape in the array it closes
    over, which was taken before the shape was added: whatever group the
    shape has come to be in, a click on it selects the shape, and a
    shift-click toggles the shape. *)
Lemma listener_selects_its_own_shape (registered : State) (X : string)
    (isShiftKey : bool) (st : State) :
  ~ In X (map id (shapes registered)) ->
  selectedIds (perform st (clickOn registered X isShiftKey)) =
  if isShiftKey then toggle X (selectedIds st) else [X].
Proof.
  intros Hfresh. cbn [perform clickOn setSelectedIds selectedIds].
  assert (Hnone : find (fun s => String.eqb (id s) X) (shapes registered) = None).
  { induction (shapes registered) as [|s l IH]; [reflexivity|]. simpl in *.
    destruct (String.eqb_spec (id s) X) as [E|_]; [tauto|]. apply IH. tauto. }
  unfold handleShapeClick. rewrite Hnone. reflexivity.
Qed.

(** C6 (the code departs from it).  On the canvas, a rectangle and a circle
    are added, selected by a click and a shift-click, and grouped; both
    then have the [groupId] of the one group, which is the selection.  A
    click on the rectangle runs the listener [addRectangle] registered,
    which calls the [handleShapeClick] of the render of the empty canvas:
    it finds no shape with the id of the rectangle, and selects the
    rectangle itself, not its group; a shift-click adds the rectangle to
    the selection instead of toggling the group.  The same goes for the
    circle.  The [handleShapeClick] of the current render would select the
    group, as the claim says, and so does a click on the node of the group
    itself. *)
Theorem click_on_a_grouped_shape_selects_the_shape :
  map (fun s => (id s, groupId s)) (shapes groupedPair) =
    [(rectId 1, Some (mkGroupId 3)); (circleId 2, Some (mkGroupId 3))] /\
  map gid (groups groupedPair) = [mkGroupId 3] /\
  selectedIds groupedPair = [mkGroupId 3] /\
  selectedIds (perform groupedPair (clickOn initialState (rectId 1) false)) =
    [rectId 1] /\
  selectedIds (perform groupedPair (clickOn initialState (rectId 1) true)) =
    [mkGroupId 3; rectId 1] /\
  selectedIds (perform groupedPair (clickOn oneShape (circleId 2) false)) =
    [circleId 2] /\
  handleShapeClick (shapes groupedPair) (rectId 1) false (selectedIds groupedPair) =
    [mkGroupId 3] /\
  selectedIds (perform groupedPair (clickOn pairSelected (mkGroupId 3) false)) =
    [mkGroupId 3].
Proof. repeat split; run_engine; reflexivity. Qed.

(** ** Padded outlines *)

Lemma sqrt_sq (t : R) : 0 <= t -> sqrt (t * t) = t.
Proof. apply sqrt_square. Qed.

Lemma sqrt2_below : sqrt 2 < 141422 / 100000.
Proof.
  rewrite <- (sqrt_square (141422 / 100000)) by lra.
  apply sqrt_lt_1; lra.
Qed.

(** C8 (as stated, refuted).  The fifth sample point of a circle of radius
    50 is not at distance 60 from its centre. *)
Lemma diagonal_sample_not_on_padded_circle :
  ~ (forall p, In p (paddedOutline (circleAt "circle-1" 0 0 50)) ->
               dist p (position (node (circleAt "circle-1" 0 0 50))) = 50 + 10).
Proof.
  intros H.
  specialize (H {| px := 0 - (50 + 10) * (7071 / 10000);
                   py := 0 - (50 + 10) * (7071 / 10000) |}).
  assert (Hin : In {| px := 0 - (50 + 10) * (7071 / 10000);
                      py := 0 - (50 + 10) * (7071 / 10000) |}
                   (paddedOutline (circleAt "circle-1" 0 0 50))).
  { simpl. do 4 right. left. reflexivity. }
  specialize (H Hin). unfold dist in H; simpl in H.
  match type of H with sqrt ?s = _ =>
    assert (Hs : 0 <= s) by nra;
    pose proof (sqrt_sqrt s Hs) as Hsq; rewrite H in Hsq
  end.
  lra.
Qed.

(** C8 (amended).  The outline sample of a rectangle is the four corners of
    the box of size [(width + 20)] by [(height + 20)] centred at its
    position.  The sample of a circle of radius [r >= 0] is eight points:
    four on the axes through the centre, at distance exactly [r + 10], and
    four on the diagonals, offset by [0.7071 * (r + 10)] along both axes,
    which puts them at distance [0.7071 * sqrt 2 * (r + 10)], at most
    [r + 10]. *)
Theorem paddedOutline_sample :
  forall shape : ShapeData,
    (type shape = rectangle ->
     paddedOutline shape =
     boxCorners (position (node shape))
                (width (node shape) + 20) (height (node shape) + 20)) /\
    (type shape = circle -> 0 <= radius (node shape) ->
     let c := position (node shape) in
     let t := radius (node shape) + 10 in
     let d := t * (7071 / 10000) in
     paddedOutline shape =
       [ {| px := px c - t; py := py c |}; {| px := px c + t; py := py c |};
         {| px := px c; py := py c - t |}; {| px := px c; py := py c + t |};
         {| px := px c - d; py := py c - d |}; {| px := px c + d; py := py c - d |};
         {| px := px c - d; py := py c + d |}; {| px := px c + d; py := py c + d |} ] /\
     Forall (fun p => dist p c = t) (firstn 4 (paddedOutline shape)) /\
     Forall (fun p => dist p c = 7071 / 10000 * sqrt 2 * t /\ dist p c <= t)
            (skipn 4 (paddedOutline shape))).
Proof.
  intros shape; split.
  - intros Ht. unfold paddedOutline, boxCorners; rewrite Ht.
    repeat (apply f_equal2; [apply point_eq; field|]). reflexivity.
  - intros Ht Hr c t d. unfold paddedOutline; rewrite Ht.
    fold c; fold t; fold d.
    assert (Hpos : 0 <= t) by (unfold t; lra).
    assert (Hd : 0 <= d) by (unfold d; nra).
    assert (Hcard : forall a b, (a = t /\ b = 0) \/ (a = - t /\ b = 0) \/
                                (a = 0 /\ b = t) \/ (a = 0 /\ b = - t) ->
                                sqrt (a * a + b * b) = t).
    { intros a b Hab. replace (a * a + b * b) with (t * t).
      - apply sqrt_sq, Hpos.
      - destruct Hab as [[-> ->]|[[-> ->]|[[-> ->]|[-> ->]]]]; ring. }
    assert (Hdiag : forall a b, (a = d \/ a = - d) -> (b = d \/ b = - d) ->
                                sqrt (a * a + b * b) = 7071 / 10000 * sqrt 2 * t).
    { intros a b Ha Hb. replace (a * a + b * b) with ((d * d) * 2).
      - rewrite sqrt_mult by nra. rewrite sqrt_sq by exact Hd. unfold d; ring.
      - destruct Ha as [-> | ->], Hb as [-> | ->]; ring. }
    assert (Hle : 7071 / 10000 * sqrt 2 * t <= t).
    { pose proof sqrt2_below. pose proof (sqrt_pos 2). nra. }
    split; [reflexivity|]. unfold dist; simpl. split.
    + repeat constructor; apply Hcard; simpl.
      * right; left; split; ring.
      * left; split; ring.
      * do 3 right; split; ring.
      * do 2 right; left; split; ring.
    + assert (Hboth : forall a b, (a = d \/ a = - d) -> (b = d \/ b = - d) ->
                sqrt (a * a + b * b) = 7071 / 10000 * sqrt 2 * t /\
                sqrt (a * a + b * b) <= t).
      { intros a b Ha Hb; rewrite (Hdiag a b Ha Hb); split; [reflexivity|exact Hle]. }
      repeat (apply Forall_cons;
              [apply Hboth; simpl; ((left; ring) || (right; ring))|]).
      apply Forall_nil.
Qed.

(** The cardinal points of a circle of radius 50. *)
Lemma paddedOutline_sample_witness :
  Forall (fun p => dist p {| px := 7; py := 9 |} = 50 + 10)
         (firstn 4 (paddedOutline (circleAt "circle-1" 7 9 50))).
Proof.
  apply (proj2 (paddedOutline_sample (circleAt "circle-1" 7 9 50))).
  - reflexivity.
  - simpl; lra.
Defined.

(** ** Alerts *)

Lemma positions_nil {A : Type} (p : A -> bool) (l : list A) :
  (forall a, In a l -> p a = false) -> positions p l = [].
Proof.
  intros H. apply length_zero_iff_nil. rewrite positions_length.
  induction l as [|a l IH]; simpl; [reflexivity|].
  rewrite (H a) by (left; reflexivity). apply IH.
  intros b Hb; apply H; right; exact Hb.
Qed.

Lemma filter_nil {A : Type} (p : A -> bool) (l : list A) :
  (forall a, In a l -> p a = false) -> filter p l = [].
Proof.
  intros H; induction l as [|a l IH]; simpl; [reflexivity|].
  rewrite (H a) by (left; reflexivity). apply IH.
  intros b Hb; apply H; right; exact Hb.
Qed.

Lemma isUngroupedSelected_isSelectedShape (st : State) (s : ShapeData) :
  isUngroupedSelected st s = true -> isSelectedShape st s = true.
Proof.
  unfold isUngroupedSelected, isSelectedShape; intros H.
  apply andb_true_iff in H; destruct H as [-> _]; reflexivity.
Qed.

Lemma existsb_false_forall {A : Type} (p : A -> bool) (l : list A) :
  existsb p l = false -> forall a, In a l -> p a = false.
Proof.
  intros H a Ha. destruct (p a) eqn:E; [|reflexivity].
  rewrite <- H; symmetry; apply existsb_exists; eauto.
Qed.

Lemma createNewGroup_alert (now : Z) (st : State) :
  (List.length (filter (isUngroupedSelected st) (shapes st)) < 2)%nat ->
  createNewGroup now st =
  (st, Some "Please select at least 2 ungrouped shapes to create a new group").
Proof.
  intros H; unfold createNewGroup.
  apply Nat.ltb_lt in H; rewrite H; reflexivity.
Qed.

Lemma addToExisting_alert (targetGroup : GroupData) (st : State) :
  (forall s, In s (shapes st) -> isSelectedShape st s = true ->
             notMemberOf targetGroup s = false) ->
  addToExisting targetGroup st =
  (st, Some "All selected shapes are already in this group").
Proof.
  intros H; unfold addToExisting. rewrite positions_nil; [reflexivity|].
  intros s Hs. destruct (isSelectedShape st s) eqn:E; [|reflexivity].
  simpl; apply H; assumption.
Qed.

(** An operation that shows an alert hands back the state it was given. *)
Lemma createGroup_alert_unchanged (now : Z) (st st' : State) (msg : string) :
  createGroup now st = (st', Some msg) -> st' = st.
Proof.
  unfold createGroup, addToExisting, createNewGroup.
  repeat match goal with
         | |- context [if ?b then _ else _] => destruct b
         | |- context [match ?l with [] => _ | _ :: _ => _ end] => destruct l
         end; intros [= <- _] || intros [=]; reflexivity.
Qed.

Lemma ungroup_alert_unchanged (st st' : State) (msg : string) :
  ungroup st = (st', Some msg) -> st' = st.
Proof.
  unfold ungroup.
  destruct (selectedIds st) as [|g [|g' sel]]; try (intros [= <- _]; reflexivity).
  destruct (findGroup (groups st) g); [intros [=]|intros [= <- _]; reflexivity].
Qed.

(** C3.  Every precondition violation of [createGroup] and of [ungroup] ends
    in an alert and hands back the state unchanged, shapes with their
    [groupId] and parent, groups, selection and hover alike: fewer than two
    selected ids; one implicated group and every selected shape already a
    member of it; no single implicated group and fewer than two ungrouped
    shapes selected; for [ungroup], a selection that is not exactly one
    existing group.  And whenever either operation shows an alert at all,
    the state it returns is the state it was given. *)
Theorem precondition_violations_abort :
  forall (now : Z) (st : State),
    ((List.length (selectedIds st) < 2)%nat ->
     createGroup now st = (st, Some "Please select at least 2 shapes to group")) /\
    (forall targetGroup,
        selectedGroups st = [targetGroup] ->
        (forall s, In s (shapes st) -> isSelectedShape st s = true ->
                   notMemberOf targetGroup s = false) ->
        exists msg, createGroup now st = (st, Some msg)) /\
    (List.length (selectedGroups st) <> 1%nat ->
     (List.length (filter (isUngroupedSelected st) (shapes st)) < 2)%nat ->
     exists msg, createGroup now st = (st, Some msg)) /\
    (~ (exists g G, selectedIds st = [g] /\ findGroup (groups st) g = Some G) ->
     exists msg, ungroup st = (st, Some msg)) /\
    (forall st' msg, createGroup now st = (st', Some msg) -> st' = st) /\
    (forall st' msg, ungroup st = (st', Some msg) -> st' = st).
Proof.
  intros now st. repeat split.
  - intros H; unfold createGroup. apply Nat.ltb_lt in H; rewrite H; reflexivity.
  - intros T HT Hall. unfold createGroup.
    destruct (List.length (selectedIds st) <? 2)%nat; [eauto|].
    rewrite HT.
    assert (Hno : existsb (notMemberOf T) (filter (isSelectedShape st) (shapes st)) = false).
    { apply not_true_is_false; intros E. apply existsb_exists in E.
      destruct E as (s & Hs & Hn). apply filter_In in Hs; destruct Hs as [Hs Hsel].
      rewrite (Hall s Hs Hsel) in Hn; discriminate. }
    rewrite Hno.
    destruct (0 <? List.length (filter (isSelectedShape st) (shapes st)))%nat eqn:E.
    + rewrite (addToExisting_alert T st Hall); eauto.
    + apply Nat.ltb_ge in E.
      rewrite createNewGroup_alert; [eauto|].
      rewrite filter_nil; [simpl; lia|].
      intros s Hs. destruct (isUngroupedSelected st s) eqn:Eu; [|reflexivity].
      apply isUngroupedSelected_isSelectedShape in Eu.
      assert (Hin : In s (filter (isSelectedShape st) (shapes st)))
        by (apply filter_In; auto).
      destruct (filter (isSelectedShape st) (shapes st)); [contradiction|simpl in E; lia].
  - intros Hg Hfew. unfold createGroup.
    destruct (List.length (selectedIds st) <? 2)%nat; [eauto|].
    destruct (selectedGroups st) as [|T [|T' gs]];
      try (rewrite createNewGroup_alert by exact Hfew; eauto).
    simpl in Hg; congruence.
  - intros Hnot. unfold ungroup.
    destruct (selectedIds st) as [|g [|g' sel]]; eauto.
    destruct (findGroup (groups st) g) as [G|] eqn:E; eauto.
    exfalso; apply Hnot; eauto.
  - intros st' msg; apply createGroup_alert_unchanged.
  - intros st' msg; apply ungroup_alert_unchanged.
Qed.

(** [createGroup] with a single selected id. *)
Lemma precondition_violations_abort_witness :
  createGroup 9 (setSelectedIds [rectId 1] twoSelected) =
  (setSelectedIds [rectId 1] twoSelected,
   Some "Please select at least 2 shapes to group").
Proof.
  apply (proj1 (precondition_violations_abort 9 (setSelectedIds [rectId 1] twoSelected))).
  simpl; lia.
Defined.

(** C10.  With exactly two ids selected, both of existing groups, and no
    ungrouped shape carrying a selected id, [createGroup] shows an alert and
    hands back the state unchanged: the two groups are not merged. *)
Theorem two_groups_are_not_merged :
  forall (now : Z) (st : State) (g1 g2 : string) (G1 G2 : GroupData),
    selectedIds st = [g1; g2] ->
    findGroup (groups st) g1 = Some G1 ->
    findGroup (groups st) g2 = Some G2 ->
    (forall s, In s (shapes st) -> includes (selectedIds st) (id s) = true ->
               truthy (groupId s) = true) ->
    createGroup now st =
    (st, Some "Please select at least 2 ungrouped shapes to create a new group").
Proof.
  intros now st g1 g2 G1 G2 Hsel H1 H2 Hno.
  unfold createGroup, selectedGroups. rewrite Hsel; simpl.
  rewrite H1, H2; simpl.
  apply createNewGroup_alert. rewrite filter_nil; [simpl; lia|].
  intros s Hs. unfold isUngroupedSelected.
  destruct (includes (selectedIds st) (id s)) eqn:E; [|reflexivity].
  rewrite (Hno s Hs E); reflexivity.
Qed.

(** [createGroup] on [twoGroupsSelected]. *)
Lemma two_groups_are_not_merged_witness :
  createGroup 9 twoGroupsSelected =
  (twoGroupsSelected,
   Some "Please select at least 2 ungrouped shapes to create a new group").
Proof.
  apply (two_groups_are_not_merged 9 twoGroupsSelected "group-5" "group-6"
           (groupAt "group-5" 100 100) (groupAt "group-6" 300 300)).
  - reflexivity.
  - reflexivity.
  - reflexivity.
  - intros s Hs _. simpl in Hs.
    destruct Hs as [<-|[<-|[<-|[<-|[]]]]]; reflexivity.
Defined.

(** ** The group button *)

(** C9 (the code departs from it).  On the freshly mounted editor, with
    nothing selected, a press of the group button runs [createGroup], which
    is rejected with an alert and changes nothing; the label is "Ungroup"
    afterwards, although the selection is not one existing group and the
    label policy of the callback gives "Create Group" for it. *)
Theorem rejected_createGroup_leaves_Ungroup_label :
  snd (createGroup 1 (app mounted)) = Some "Please select at least 2 shapes to group" /\
  app (handleGroupButton 1 mounted) = app mounted /\
  selectedIds (app (handleGroupButton 1 mounted)) = [] /\
  groupButtonText (handleGroupButton 1 mounted) = "Ungroup" /\
  newButtonText (selectedIds (app (handleGroupButton 1 mounted)))
                (groups (app (handleGroupButton 1 mounted))) = "Create Group".
Proof. repeat split. Qed.

(** ** Groups of one *)

(** C2 (the code departs from it).  From the empty canvas, six rectangles
    are added and grouped into a group of three and a group of two, so that
    every group has at least two members.  With two members of the group of
    three selected themselves together with the other group, [createGroup]
    moves both into the other group; the count that decides whether to
    dissolve the source group is taken from the [shapes] of the render, so
    the group is kept, and is left alive with a single member. *)
Theorem two_leavers_leave_a_group_of_one :
  map gid (groups twoLeaveAGroupOfThree) = ["group-7"; "group-8"] /\
  map id (members "group-7" twoLeaveAGroupOfThree) = ["rect-1"; "rect-2"; "rect-3"] /\
  map id (members "group-8" twoLeaveAGroupOfThree) = ["rect-4"; "rect-5"] /\
  selectedIds twoLeaveAGroupOfThree = ["rect-1"; "rect-2"; "group-8"] /\
  groupsHaveTwo twoLeaveAGroupOfThree = true /\
  snd (createGroup 9 twoLeaveAGroupOfThree) = None /\
  map gid (groups (fst (createGroup 9 twoLeaveAGroupOfThree))) =
    ["group-7"; "group-8"] /\
  map id (members "group-7" (fst (createGroup 9 twoLeaveAGroupOfThree))) =
    ["rect-3"] /\
  map id (members "group-8" (fst (createGroup 9 twoLeaveAGroupOfThree))) =
    ["rect-1"; "rect-2"; "rect-4"; "rect-5"] /\
  groupsHaveTwo (fst (createGroup 9 twoLeaveAGroupOfThree)) = false.
Proof. repeat split; run_engine; reflexivity. Qed.

(** ** Bounding boxes *)

Lemma MIN_VALUE_pos : 0 < MIN_VALUE.
Proof. unfold MIN_VALUE. apply Rinv_0_lt_compat, pow_lt; lra. Qed.

Lemma MAX_VALUE_large : 1000 < MAX_VALUE.
Proof.
  unfold MAX_VALUE.
  assert (H52 : / 2 ^ 52 <= 1).
  { rewrite <- Rinv_1. apply Rinv_le_contravar; [lra|]. apply pow_R1_Rle; lra. }
  assert (H10 : 2 ^ 10 <= 2 ^ 1023) by (apply Rle_pow; [lra|lia]).
  assert (E : 2 ^ 10 = 1024) by (simpl; lra).
  assert (0 < 2 ^ 1023) by (apply pow_lt; lra).
  nra.
Qed.

(** Settles every [Rmin] and [Rmax] of the goal whose order [lra] decides. *)
Ltac scan_bounds :=
  repeat match goal with
         | |- context [Rmin ?a ?b] =>
             first [rewrite (Rmin_left a b) by lra | rewrite (Rmin_right a b) by lra]
         | |- context [Rmax ?a ?b] =>
             first [rewrite (Rmax_left a b) by lra | rewrite (Rmax_right a b) by lra]
         end.

Ltac unturned :=
  first
    [ rewrite decompose_unturned
    | match goal with
      | |- context [Req_dec_T (0 * PI / 180) 0] =>
          destruct (Req_dec_T (0 * PI / 180) 0) as [_|?Hne];
          [|exfalso; apply Hne; lra]
      end ].


(** The scan never brings [maxX] below [Number.MIN_VALUE]: for points that
    all lie left of it, [maxX] is [Number.MIN_VALUE] whatever they are. *)
Lemma maxX_stuck_at_MIN_VALUE (points : list Point) :
  Forall (fun p => px p <= MIN_VALUE) points ->
  maxX (boundingBox points) = MIN_VALUE.
Proof.
  unfold boundingBox.
  assert (H : forall b, maxX b = MIN_VALUE ->
                        Forall (fun p => px p <= MIN_VALUE) points ->
                        maxX (fold_left addPoint points b) = MIN_VALUE).
  { induction points as [|p points IH]; intros b Hb Hall; simpl; [exact Hb|].
    inversion Hall as [|? ? Hp Hrest]; subst.
    apply IH; [|exact Hrest]. simpl. rewrite Hb. apply Rmax_left, Hp. }
  apply H; reflexivity.
Qed.

(** C7 (the code departs from it).  In a state reached from the empty
    canvas, a group is left with two members that lie left of its origin,
    and [createGroup] adds to it a free rectangle that lies there too.  The
    padded outline points of the three members span [-210 .. -40] in x, so
    their bounding box is 170 wide; the background that
    [updateGroupBoundingBox] sets starts at -210 but is
    [Number.MIN_VALUE + 210] wide: its right edge is at [Number.MIN_VALUE],
    the value [maxX] starts from, not at the greatest x of the points. *)
Theorem background_misses_members_left_of_origin :
  exists G,
    findGroup (groups (fst (createGroup 10 membersLeftOfOrigin))) "group-7" = Some G /\
    map id (members "group-7" (fst (createGroup 10 membersLeftOfOrigin))) =
      ["rect-1"; "rect-2"; "rect-6"] /\
    Forall (fun p => -210 <= px p <= -40)
      (flat_map paddedOutline
         (members "group-7" (fst (createGroup 10 membersLeftOfOrigin)))) /\
    Exists (fun p => px p = -210)
      (flat_map paddedOutline
         (members "group-7" (fst (createGroup 10 membersLeftOfOrigin)))) /\
    Exists (fun p => px p = -40)
      (flat_map paddedOutline
         (members "group-7" (fst (createGroup 10 membersLeftOfOrigin)))) /\
    px (bg_position (backgroundNode G)) = -210 /\
    bg_width (backgroundNode G) = MIN_VALUE + 210 /\
    bg_width (backgroundNode G) <> -40 - -210.
Proof.
  pose proof MIN_VALUE_pos as Hmin. pose proof MAX_VALUE_large as Hmax.
  eexists; split; [run_engine; repeat unturned; reflexivity|].
  split; [run_engine; reflexivity|].
  split; [|split; [|split; [|split; [|split]]]].
  - run_engine. repeat unturned. simpl INR.
    repeat (apply Forall_cons; [split; lra|]). apply Forall_nil.
  - run_engine. repeat unturned. simpl INR.
    do 8 apply Exists_cons_tl. apply Exists_cons_hd. lra.
  - run_engine. repeat unturned. simpl INR.
    do 1 apply Exists_cons_tl. apply Exists_cons_hd. lra.
  - cbv [backgroundNode bg_position px]. simpl INR. scan_bounds. lra.
  - cbv [backgroundNode bg_width]. simpl INR. scan_bounds. lra.
  - cbv [backgroundNode bg_width]. simpl INR. scan_bounds. lra.
Qed.

(** ** A new group *)

Lemma with_groupId_same (s : ShapeData) : with_groupId (groupId s) s = s.
Proof. destruct s; reflexivity. Qed.

Lemma updated_spread (s : ShapeData) : updated {| obj := s; copied := None |} = s.
Proof. unfold updated, updated_groupId; simpl. apply with_groupId_same. Qed.

Lemma fold_sum_shift {A : Type} (f : A -> R) (l : list A) (a : R) :
  fold_left (fun sum x => sum + f x) l a = a + fold_right Rplus 0 (map f l).
Proof.
  revert a; induction l as [|x l IH]; intros a; simpl; [ring|].
  rewrite IH; ring.
Qed.

(** [average] is the sum divided by the count. *)
Lemma average_is_mean (f : ShapeData -> R) (l : list ShapeData) :
  average f l = fold_right Rplus 0 (map f l) / INR (List.length l).
Proof. unfold average. rewrite fold_sum_shift. f_equal; ring. Qed.

Lemma findGroup_fresh (gs : list GroupData) (G : GroupData) :
  ~ In (gid G) (map gid gs) -> findGroup (gs ++ [G]) (gid G) = Some G.
Proof.
  unfold findGroup; induction gs as [|H gs IH]; simpl; intros Hfresh.
  - rewrite String.eqb_refl; reflexivity.
  - destruct (String.eqb_spec (gid H) (gid G)) as [E|_]; [|apply IH]; tauto.
Qed.

Lemma createNewGroup_result (now : Z) (st : State) :
  NoDup (map id (shapes st)) ->
  (2 <= List.length (filter (isUngroupedSelected st) (shapes st)))%nat ->
  let members := filter (isUngroupedSelected st) (shapes st) in
  let avgX := average (fun shape => px (position (node shape))) members in
  let avgY := average (fun shape => py (position (node shape))) members in
  exists bg,
    createNewGroup now st =
    ({| shapes := map (fun s => if isUngroupedSelected st s
                                then grouped (groups st) (mkGroupId now) avgX avgY s
                                else s) (shapes st);
        groups := groups st ++
          [ {| gid := mkGroupId now;
               gnode := {| g_position := {| px := avgX; py := avgY |};
                           g_rotation := 0; g_scaleX := 1; g_scaleY := 1;
                           g_draggable := true |};
               backgroundNode := bg |} ];
        selectedIds := [mkGroupId now];
        hoveredId := hoveredId st |}, None).
Proof.
  intros Hnd Htwo members avgX avgY. unfold createNewGroup.
  replace (List.length (filter (isUngroupedSelected st) (shapes st)) <? 2)%nat
    with false by (symmetry; apply Nat.ltb_ge; exact Htwo).
  fold members; fold avgX; fold avgY.
  rewrite groupOne_roundOf.
  rewrite (forEach_positions (groupChange (groups st) (mkGroupId now) avgX avgY)
             (Some (mkGroupId now)) (fun _ _ => eq_refl) _ _ Hnd).
  eexists. f_equal. f_equal.
  rewrite map_map. apply map_ext; intros s.
  destruct (isUngroupedSelected st s); [reflexivity|apply updated_spread].
Qed.

Lemma createGroup_new (now : Z) (st : State) :
  (2 <= List.length (selectedIds st))%nat ->
  List.length (selectedGroups st) <> 1%nat ->
  createGroup now st = createNewGroup now st.
Proof.
  intros Hsel Hg; unfold createGroup.
  replace (List.length (selectedIds st) <? 2)%nat with false
    by (symmetry; apply Nat.ltb_ge; exact Hsel).
  destruct (selectedGroups st) as [|T [|T' gs]]; try reflexivity.
  simpl in Hg; congruence.
Qed.

Lemma grouped_keeps_place (gs : list GroupData) (G : GroupData) (s : ShapeData) :
  ~ In (gid G) (map gid gs) ->
  g_rotation (gnode G) = 0 ->
  unscaled G ->
  getAbsolutePosition (gs ++ [G])
    (grouped gs (gid G) (px (g_position (gnode G))) (py (g_position (gnode G))) s) =
  getAbsolutePosition gs s.
Proof.
  intros Hfresh Hrot [Hx Hy].
  unfold getAbsolutePosition at 1. unfold getAbsoluteTransform at 1 2.
  cbn [grouped group with_groupId groupChange with_node moveTo].
  rewrite (findGroup_fresh gs G Hfresh).
  unfold multiply, groupTransform, shapeTransform, getTransform.
  cbn [m_a m_b m_c m_d m_e m_f]. rewrite Hrot, Hx, Hy.
  replace (0 * PI / 180) with 0 by lra. rewrite cos_0, sin_0.
  unfold grouped, groupChange.
  cbn [node with_groupId with_node moveTo position set_draggable set_position px py].
  destruct (getAbsolutePosition gs s) as [a b]; cbn [px py].
  apply point_eq; ring.
Qed.

Lemma grouped_keeps_turn (gs : list GroupData) (G : GroupData) (s : ShapeData)
    (avgX avgY : R) :
  ~ In (gid G) (map gid gs) ->
  g_rotation (gnode G) = 0 ->
  unscaled G ->
  group s = Layer ->
  getAbsoluteRotation (gs ++ [G]) (grouped gs (gid G) avgX avgY s) =
  getAbsoluteRotation gs s.
Proof.
  intros Hfresh Hrot [Hx Hy] HL.
  unfold getAbsoluteRotation, getAbsoluteTransform.
  cbn [grouped group with_groupId groupChange with_node moveTo].
  rewrite (findGroup_fresh gs G Hfresh), HL.
  unfold groupTransform, shapeTransform. rewrite Hrot, Hx, Hy.
  cbn [grouped groupChange with_groupId with_node moveTo node rotation
       position set_draggable set_position].
  rewrite (decomposeRotation_turns _ _ (position (node s))).
  apply decomposeRotation_same_angle; f_equal; lra.
Qed.

(** C5.  When at least two ids are selected, at least two of the selected
    shapes are ungrouped and the selected ids do not resolve to exactly one
    group (shape ids being unique and the id of the new group unused),
    [createGroup] succeeds: it appends one group with the new id, at
    rotation 0 and at the arithmetic mean of the positions of the ungrouped
    selected shapes; each of these is given the new [groupId], hangs in the
    new group's node, has as its position its former absolute position
    minus that mean, is no longer draggable and keeps its absolute position;
    every other shape is as before; the new group is the whole selection. *)
Theorem createGroup_new_group :
  forall (now : Z) (st : State),
    NoDup (map id (shapes st)) ->
    ~ In (mkGroupId now) (map gid (groups st)) ->
    (2 <= List.length (selectedIds st))%nat ->
    (2 <= List.length (filter (isUngroupedSelected st) (shapes st)))%nat ->
    List.length (selectedGroups st) <> 1%nat ->
    let members := filter (isUngroupedSelected st) (shapes st) in
    let avgX := fold_right Rplus 0 (map (fun s => px (position (node s))) members)
                / INR (List.length members) in
    let avgY := fold_right Rplus 0 (map (fun s => py (position (node s))) members)
                / INR (List.length members) in
    exists st' G,
      createGroup now st = (st', None) /\
      groups st' = groups st ++ [G] /\
      gid G = mkGroupId now /\
      g_rotation (gnode G) = 0 /\
      g_position (gnode G) = {| px := avgX; py := avgY |} /\
      selectedIds st' = [mkGroupId now] /\
      map id (shapes st') = map id (shapes st) /\
      forall i s,
        nth_error (shapes st) i = Some s ->
        exists s',
          nth_error (shapes st') i = Some s' /\
          (isUngroupedSelected st s = false -> s' = s) /\
          (isUngroupedSelected st s = true ->
           id s' = id s /\
           groupId s' = Some (mkGroupId now) /\
           group s' = GroupNode (mkGroupId now) /\
           position (node s') =
             {| px := px (getAbsolutePosition (groups st) s) - avgX;
                py := py (getAbsolutePosition (groups st) s) - avgY |} /\
           draggable (node s') = false /\
           getAbsolutePosition (groups st') s' =
             getAbsolutePosition (groups st) s).
Proof.
  intros now st Hnd Hfresh Hsel Htwo Hg members avgX avgY.
  destruct (createNewGroup_result now st Hnd Htwo) as (bg & Hres).
  cbv zeta in Hres. subst avgX avgY members.
  rewrite <- !average_is_mean.
  set (avgX := average (fun s => px (position (node s))) _) in *.
  set (avgY := average (fun s => py (position (node s))) _) in *.
  rewrite (createGroup_new now st Hsel Hg), Hres.
  eexists; eexists; split; [reflexivity|]. simpl.
  repeat split.
  - rewrite map_map. apply map_ext; intros s.
    destruct (isUngroupedSelected st s); reflexivity.
  - intros i s Hi. rewrite nth_error_map, Hi; simpl.
    eexists; split; [reflexivity|].
    destruct (isUngroupedSelected st s); split; try discriminate; auto.
    intros _. repeat split.
    exact (grouped_keeps_place (groups st)
             {| gid := mkGroupId now;
                gnode := {| g_position := {| px := avgX; py := avgY |};
                            g_rotation := 0; g_scaleX := 1; g_scaleY := 1;
                           g_draggable := true |};
                backgroundNode := bg |} s Hfresh eq_refl (conj eq_refl eq_refl)).
Qed.

(** A rectangle and a circle are grouped. *)
Lemma createGroup_new_group_witness :
  exists st' G,
    createGroup 3 twoSelected = (st', None) /\
    groups st' = groups twoSelected ++ [G] /\
    gid G = mkGroupId 3 /\
    g_rotation (gnode G) = 0.
Proof.
  destruct (createGroup_new_group 3 twoSelected) as (st' & G & H1 & H2 & H3 & H4 & _).
  - repeat constructor; simpl; intuition discriminate.
  - simpl; tauto.
  - simpl; lia.
  - simpl; lia.
  - simpl; lia.
  - exists st', G; auto.
Defined.

(** ** Grouping and ungrouping *)

Lemma findGroup_gid (gs : list GroupData) (g : string) (G : GroupData) :
  findGroup gs g = Some G -> gid G = g.
Proof.
  unfold findGroup; intros H. apply find_some in H.
  destruct H as [_ H]; apply String.eqb_eq; exact H.
Qed.

Lemma updated_goesWith (g : string) (c : Slot) :
  updated (on_obj (goesWith g) c) = goesWith g (updated c).
Proof.
  unfold updated, updated_groupId, on_obj, goesWith; simpl.
  destruct (group (obj c)) as [|g'|]; try reflexivity.
  destruct (String.eqb g' g); reflexivity.
Qed.

Lemma ungroup_result (st : State) (g : string) (G : GroupData) :
  NoDup (map id (shapes st)) ->
  selectedIds st = [g] ->
  findGroup (groups st) g = Some G ->
  ungroup st =
  ({| shapes := map (fun s => goesWith g (if inGroup g s
                                          then ungrouped (groups st) G s
                                          else s)) (shapes st);
      groups := filter (fun G' => negb (String.eqb (gid G') g)) (groups st);
      selectedIds := map id (filter (inGroup g) (shapes st));
      hoveredId := hoveredId st |}, None).
Proof.
  intros Hnd Hsel HG. unfold ungroup. rewrite Hsel, HG.
  rewrite ungroupOne_roundOf.
  rewrite (forEach_positions (ungroupChange (groups st) G) None
             (fun _ _ => eq_refl) _ _ Hnd).
  rewrite (findGroup_gid _ _ _ HG).
  f_equal. f_equal. unfold destroyGroupNode. rewrite !map_map.
  apply map_ext; intros s. rewrite updated_goesWith. f_equal.
  destruct (inGroup g s); [reflexivity|apply updated_spread].
Qed.

Lemma filter_fresh (gs : list GroupData) (G : GroupData) :
  ~ In (gid G) (map gid gs) ->
  filter (fun G' => negb (String.eqb (gid G') (gid G))) (gs ++ [G]) = gs.
Proof.
  intros Hfresh. rewrite filter_app; simpl.
  rewrite String.eqb_refl; simpl. rewrite app_nil_r.
  induction gs as [|H gs IH]; simpl; [reflexivity|].
  destruct (String.eqb_spec (gid H) (gid G)) as [E|_]; simpl.
  - exfalso; apply Hfresh; left; exact E.
  - rewrite IH; [reflexivity|]. intros Hin; apply Hfresh; right; exact Hin.
Qed.

(** C1.  [createGroup] on a selection with at least two ungrouped shapes and
    no single implicated group, followed at once by [ungroup] on the state
    it leaves, succeeds twice and gives back each grouped shape, hanging in
    the layer and without [groupId], at its absolute position and absolute
    rotation of before, exactly; the groups are those of before.  (Shape ids
    are unique, the new group id is unused, and an ungrouped shape hangs in
    the layer.) *)
Theorem group_then_ungroup_restores :
  forall (now : Z) (st : State),
    NoDup (map id (shapes st)) ->
    ~ In (mkGroupId now) (map gid (groups st)) ->
    (2 <= List.length (selectedIds st))%nat ->
    (2 <= List.length (filter (isUngroupedSelected st) (shapes st)))%nat ->
    List.length (selectedGroups st) <> 1%nat ->
    exists st1 st2,
      createGroup now st = (st1, None) /\
      ungroup st1 = (st2, None) /\
      groups st2 = groups st /\
      forall i s,
        nth_error (shapes st) i = Some s ->
        isUngroupedSelected st s = true ->
        group s = Layer ->
        exists s1 s2,
          nth_error (shapes st1) i = Some s1 /\
          groupId s1 = Some (mkGroupId now) /\
          nth_error (shapes st2) i = Some s2 /\
          id s2 = id s /\
          groupId s2 = None /\
          group s2 = Layer /\
          getAbsolutePosition (groups st2) s2 = getAbsolutePosition (groups st) s /\
          getAbsoluteRotation (groups st2) s2 = getAbsoluteRotation (groups st) s.
Proof.
  intros now st Hnd Hfresh Hsel Htwo Hg.
  destruct (createNewGroup_result now st Hnd Htwo) as (bg & Hres).
  cbv zeta in Hres.
  set (avgX := average (fun s => px (position (node s))) _) in *.
  set (avgY := average (fun s => py (position (node s))) _) in *.
  set (G := {| gid := mkGroupId now;
               gnode := {| g_position := {| px := avgX; py := avgY |};
                           g_rotation := 0; g_scaleX := 1; g_scaleY := 1;
                           g_draggable := true |};
               backgroundNode := bg |}) in *.
  set (st1 := {| shapes := map (fun s => if isUngroupedSelected st s
                                         then grouped (groups st) (mkGroupId now) avgX avgY s
                                         else s) (shapes st);
                 groups := groups st ++ [G];
                 selectedIds := [mkGroupId now];
                 hoveredId := hoveredId st |}) in *.
  assert (Hnd1 : NoDup (map id (shapes st1))).
  { simpl. rewrite map_map.
    replace (map _ (shapes st)) with (map id (shapes st)); [exact Hnd|].
    apply map_ext; intros s. destruct (isUngroupedSelected st s); reflexivity. }
  assert (HG : findGroup (groups st1) (mkGroupId now) = Some G)
    by exact (findGroup_fresh (groups st) G Hfresh).
  pose proof (ungroup_result st1 (mkGroupId now) G Hnd1 eq_refl HG) as Hun.
  eexists; eexists. split; [|split; [exact Hun|split]].
  - rewrite (createGroup_new now st Hsel Hg). exact Hres.
  - simpl. exact (filter_fresh (groups st) G Hfresh).
  - intros i s Hi Hp HLayer. simpl.
    rewrite !nth_error_map, Hi; simpl. rewrite Hp.
    eexists; eexists. split; [reflexivity|]. split; [reflexivity|].
    split; [reflexivity|].
    assert (Hin : inGroup (mkGroupId now)
                    (grouped (groups st) (mkGroupId now) avgX avgY s) = true)
      by (unfold inGroup; simpl; apply String.eqb_refl).
    rewrite Hin.
    assert (HF : filter (fun G' => negb (String.eqb (gid G') (mkGroupId now)))
                        (groups st ++ [G]) = groups st)
      by exact (filter_fresh (groups st) G Hfresh).
    rewrite HF.
    assert (Hback : goesWith (mkGroupId now)
                      (ungrouped (groups st ++ [G]) G
                         (grouped (groups st) (mkGroupId now) avgX avgY s)) =
                    ungrouped (groups st ++ [G]) G
                      (grouped (groups st) (mkGroupId now) avgX avgY s))
      by reflexivity.
    rewrite Hback.
    repeat split.
    + unfold getAbsolutePosition at 1.
      cbn [ungrouped ungroupChange with_groupId with_node moveTo group node
           position set_draggable set_rotation set_position].
      exact (grouped_keeps_place (groups st) G s Hfresh eq_refl (conj eq_refl eq_refl)).
    + unfold getAbsoluteRotation, getAbsoluteTransform. rewrite HLayer.
      cbn [ungrouped ungroupChange with_groupId with_node moveTo group].
      unfold shapeTransform.
      cbn [ungrouped ungroupChange with_groupId with_node moveTo group node
           rotation set_draggable set_rotation set_position grouped groupChange
           gnode g_rotation G].
      apply decomposeRotation_same_angle; f_equal; lra.
Qed.

(** A rectangle and a circle are grouped and ungrouped. *)
Lemma group_then_ungroup_restores_witness :
  exists st1 st2,
    createGroup 3 twoSelected = (st1, None) /\
    ungroup st1 = (st2, None) /\
    groups st2 = groups twoSelected.
Proof.
  destruct (group_then_ungroup_restores 3 twoSelected)
    as (st1 & st2 & H1 & H2 & H3 & _).
  - repeat constructor; simpl; intuition discriminate.
  - simpl; tauto.
  - simpl; lia.
  - simpl; lia.
  - simpl; lia.
  - exists st1, st2; auto.
Defined.

(** ** Adding to a group *)

Lemma dissolve_slots (gs : list GroupData) (H : GroupData) (h : Heap) :
  slots (dissolve gs H h) = map (dissolved gs (gid H)) (slots h).
Proof. unfold dissolve, destroyGroupNode; simpl. rewrite map_map. reflexivity. Qed.

Lemma goesWith_id (g : string) (s : ShapeData) : id (goesWith g s) = id s.
Proof.
  unfold goesWith. destruct (group s) as [|g'|]; try reflexivity.
  destruct (String.eqb g' g); reflexivity.
Qed.

Lemma goesWith_groupId (g : string) (s : ShapeData) :
  groupId (goesWith g s) = groupId s.
Proof.
  unfold goesWith. destruct (group s) as [|g'|]; try reflexivity.
  destruct (String.eqb g' g); reflexivity.
Qed.

Lemma goesWith_Layer (g : string) (s : ShapeData) :
  group s = Layer -> group (goesWith g s) = Layer.
Proof. unfold goesWith; intros H; rewrite H; exact H. Qed.

Lemma dissolved_id (gs : list GroupData) (hid : string) (c : Slot) :
  id (obj (dissolved gs hid c)) = id (obj c).
Proof.
  unfold dissolved, on_obj; simpl. rewrite goesWith_id.
  destruct (is_id (updated_groupId c) hid); [|reflexivity].
  unfold release, clear_groupId, on_obj; simpl.
  destruct (copied c); reflexivity.
Qed.

(** A slot that does not name the dissolved group keeps its [groupId]s. *)
Lemma dissolved_other (gs : list GroupData) (hid : string) (c : Slot) :
  is_id (updated_groupId c) hid = false ->
  groupId (obj (dissolved gs hid c)) = groupId (obj c) /\
  copied (dissolved gs hid c) = copied c /\
  (group (obj c) = Layer -> group (obj (dissolved gs hid c)) = Layer).
Proof.
  intros E; unfold dissolved; rewrite E; simpl.
  rewrite goesWith_groupId. repeat split. apply goesWith_Layer.
Qed.

(** An object that names the dissolved group is released. *)
Lemma dissolved_member (gs : list GroupData) (hid : string) (c : Slot) :
  copied c = None ->
  is_id (groupId (obj c)) hid = true ->
  groupId (obj (dissolved gs hid c)) = None /\
  copied (dissolved gs hid c) = None /\
  group (obj (dissolved gs hid c)) = Layer.
Proof.
  intros Hc E; unfold dissolved, updated_groupId; rewrite Hc, E.
  unfold release, clear_groupId, on_obj; simpl. rewrite Hc; simpl.
  repeat split.
Qed.

Lemma is_id_true (g : option string) (i : string) :
  is_id g i = true <-> g = Some i.
Proof.
  destruct g as [s|]; simpl; [|split; discriminate].
  rewrite String.eqb_eq; split; [intros ->; reflexivity|intros [= ->]; reflexivity].
Qed.

Lemma filter_length_le_pointwise {A B : Type} (P : B -> bool) (Q : A -> bool) :
  forall (l : list A) (sl : list B),
    List.length sl = List.length l ->
    (forall j a b, nth_error l j = Some a -> nth_error sl j = Some b ->
                   P b = true -> Q a = true) ->
    (List.length (filter P sl) <= List.length (filter Q l))%nat.
Proof.
  induction l as [|a l IH]; intros [|b sl] Hlen Hpt; simpl in *; try lia.
  assert (Hrec : (List.length (filter P sl) <= List.length (filter Q l))%nat).
  { apply IH; [lia|]. intros j a' b' Ha Hb; apply (Hpt (S j)); assumption. }
  destruct (P b) eqn:Pb.
  - rewrite (Hpt 0%nat a b eq_refl eq_refl Pb); simpl; lia.
  - destruct (Q a); simpl; lia.
Qed.

Lemma find_group_of_id (gs : list GroupData) (hh : string) :
  In hh (map gid gs) ->
  exists H, find (fun g => is_id (Some hh) (gid g)) gs = Some H /\ gid H = hh.
Proof.
  induction gs as [|G gs IH]; simpl; [tauto|].
  intros [E | Hin].
  - exists G. rewrite <- E, String.eqb_refl. split; reflexivity.
  - destruct (String.eqb_spec hh (gid G)) as [E|_].
    + exists G; split; [reflexivity|symmetry; exact E].
    + apply IH; exact Hin.
Qed.

Lemma find_group_gid (gs : list GroupData) (g : option string) (H : GroupData) :
  find (fun G => is_id g (gid G)) gs = Some H -> g = Some (gid H).
Proof.
  intros E; apply find_some in E; destruct E as [_ E].
  apply is_id_true; exact E.
Qed.

Lemma map_ids_length (sl : list Slot) (l : list ShapeData) :
  map (fun c => id (obj c)) sl = map id l -> List.length sl = List.length l.
Proof.
  intros E. rewrite <- (length_map (fun c => id (obj c)) sl), E.
  apply length_map.
Qed.

Section AddLoop.
Variable gs : list GroupData.
Variable T : GroupData.
Variable l : list ShapeData.
Hypothesis Hnd : NoDup (map id l).

Lemma spread_inv : LoopInv gs (gid T) l [] {| slots := spread l; removed := [] |}.
Proof.
  constructor; simpl.
  - unfold spread; rewrite map_map; reflexivity.
  - intros j s c Hs Hc. unfold spread in Hc; rewrite nth_error_map, Hs in Hc.
    injection Hc as <-. split; [left; reflexivity|]. simpl.
    split; [reflexivity|]. intros h' Hh'. rewrite Hh'.
    split; [split; [discriminate|tauto]|tauto].
  - tauto.
  - tauto.
Qed.

Lemma dissolve_keeps_inv (done : list Ref) (h : Heap) (H : GroupData) :
  gid H <> gid T ->
  LoopInv gs (gid T) l done h ->
  LoopInv gs (gid T) l done (dissolve gs H h).
Proof.
  intros Hne [Hids Hslots Htarget Hdis]. constructor.
  - rewrite dissolve_slots, map_map, <- Hids.
    apply map_ext; intros c; apply dissolved_id.
  - intros j s c' Hs Hc'. rewrite dissolve_slots, nth_error_map in Hc'.
    destruct (nth_error (slots h) j) as [c|] eqn:Hc; [|discriminate].
    injection Hc' as <-.
    destruct (Hslots j s c Hs Hc) as [HC HD].
    unfold slotInv. change (removed (dissolve gs H h)) with (gid H :: removed h).
    destruct (isDone done j).
    + assert (E : is_id (updated_groupId c) (gid H) = false).
      { unfold updated_groupId; rewrite HD; simpl.
        apply String.eqb_neq; congruence. }
      destruct (dissolved_other gs (gid H) c E) as (Eg & Ec & _).
      rewrite Eg, Ec. split; assumption.
    + destruct HD as [Hcop HR].
      destruct (is_id (groupId (obj c)) (gid H)) eqn:E.
      * destruct (dissolved_member gs (gid H) c Hcop E) as (Eg & Ec & El).
        rewrite Eg, Ec, El. split; [right; reflexivity|].
        split; [reflexivity|]. intros h' Hh'.
        apply is_id_true in E.
        assert (h' = gid H) by (destruct HC; congruence). subst h'.
        split; [split; [left|]|]; reflexivity.
      * assert (E' : is_id (updated_groupId c) (gid H) = false)
          by (unfold updated_groupId; rewrite Hcop; exact E).
        destruct (dissolved_other gs (gid H) c E') as (Eg & Ec & El).
        rewrite Eg, Ec. split; [exact HC|]. split; [exact Hcop|].
        intros h' Hh'. destruct (HR h' Hh') as [[Hto Hfrom] HLayer].
        assert (Hnone : In h' (gid H :: removed h) -> groupId (obj c) = None).
        { intros [<- | Hin]; [|auto].
          destruct HC as [HC|HC]; [|exact HC].
          exfalso. rewrite HC, Hh' in E. simpl in E.
          rewrite String.eqb_refl in E; discriminate. }
        split; [split; [right; auto|exact Hnone]|].
        intros Hin. apply El, HLayer, Hto, Hnone, Hin.
  - simpl. intros [E|Hin]; [apply Hne, E|apply Htarget, Hin].
  - intros i s hh Hi Hs Hg Hhh Hin Hc. right. apply (Hdis i s hh); assumption.
Qed.

Lemma leave_keeps_inv (done : list Ref) (h : Heap) (i : Ref)
    (s : ShapeData) (c : Slot) :
  LoopInv gs (gid T) l done h ->
  nth_error l i = Some s ->
  nth_error (slots h) i = Some c ->
  isDone done i = false ->
  notMemberOf T s = true ->
  LoopInv gs (gid T) l done (leaveOldGroup gs (obj c) h) /\
  forall hh, groupId s = Some hh -> hh <> "" -> In hh (map gid gs) ->
             (List.length (filter (inGroup hh) l) <= 2)%nat ->
             In hh (removed (leaveOldGroup gs (obj c) h)).
Proof.
  intros Hinv Hs Hc Hnot Hnm.
  pose proof (inv_slots _ _ _ _ _ Hinv i s c Hs Hc) as HI.
  rewrite Hnot in HI. destruct HI as [HC [Hcop HR]].
  unfold leaveOldGroup.
  destruct (truthy (groupId (obj c))) eqn:Et.
  - assert (Hsame : groupId (obj c) = groupId s).
    { destruct HC as [HC|HC]; [exact HC|rewrite HC in Et; discriminate]. }
    destruct (find (fun g => is_id (groupId (obj c)) (gid g)) gs)
      as [oldGroup|] eqn:Ef.
    + pose proof (find_group_gid _ _ _ Ef) as Eg.
      destruct (List.length _ <=? 2)%nat eqn:El.
      * split.
        -- apply dissolve_keeps_inv; [|exact Hinv].
           intros E. unfold notMemberOf in Hnm.
           rewrite <- Hsame, Et, Eg, E in Hnm. simpl in Hnm.
           rewrite String.eqb_refl in Hnm; discriminate.
        -- intros hh Hhh _ _ _. left. congruence.
      * split; [exact Hinv|]. intros hh Hhh _ _ Hcount. exfalso.
        apply Nat.leb_gt in El.
        assert (Hle : (List.length (filter (fun c0 => is_id (groupId (obj c0)) (gid oldGroup))
                                           (slots h))
                       <= List.length (filter (inGroup hh) l))%nat).
        { apply filter_length_le_pointwise.
          - apply map_ids_length, (inv_ids _ _ _ _ _ Hinv).
          - intros j a b Ha Hb Pb.
            destruct (inv_slots _ _ _ _ _ Hinv j a b Ha Hb) as [HCj _].
            apply is_id_true in Pb. unfold inGroup; apply is_id_true.
            destruct HCj; congruence. }
        lia.
    + split; [exact Hinv|]. intros hh Hhh _ Hin _. exfalso.
      destruct (find_group_of_id gs hh Hin) as (H & EH & _).
      rewrite Hsame, Hhh in Ef. congruence.
  - split; [exact Hinv|]. intros hh Hhh Hne _ _.
    apply (HR hh Hhh). destruct HC as [HC|HC]; [|exact HC].
    exfalso. rewrite HC, Hhh in Et. simpl in Et.
    destruct (String.eqb_spec hh ""); [contradiction|discriminate].
Qed.

Lemma joinChange_id (shape s : ShapeData) : id (joinChange gs T shape s) = id s.
Proof. reflexivity. Qed.

Lemma join_keeps_inv (done : list Ref) (h : Heap) (i : Ref)
    (s : ShapeData) (c : Slot) :
  LoopInv gs (gid T) l done h ->
  nth_error l i = Some s ->
  nth_error (slots h) i = Some c ->
  (forall hh, groupId s = Some hh -> hh <> "" -> In hh (map gid gs) ->
              (List.length (filter (inGroup hh) l) <= 2)%nat ->
              In hh (removed h)) ->
  LoopInv gs (gid T) l (i :: done)
          {| slots := joinTarget gs T i (slots h); removed := removed h |}.
Proof.
  intros [Hids Hslots Htarget Hdis] Hs Hc HF.
  assert (Hnds : NoDup (map (fun c => id (obj c)) (slots h)))
    by (rewrite Hids; exact Hnd).
  rewrite joinTarget_roundOf.
  rewrite (roundOf_update _ _ joinChange_id _ _ _ Hnds Hc).
  constructor; simpl.
  - rewrite map_update_at; [exact Hids|intros a; reflexivity].
  - intros j s' c' Hs' Hc'. rewrite nth_error_update_at in Hc'.
    destruct (Nat.eqb_spec i j) as [<-|Hij].
    + rewrite Hc in Hc'; injection Hc' as <-.
      rewrite Hs in Hs'; injection Hs' as <-.
      rewrite Nat.eqb_refl; simpl.
      destruct (Hslots i s c Hs Hc) as [HC _].
      split; [exact HC|reflexivity].
    + replace (Nat.eqb j i) with false
        by (symmetry; apply Nat.eqb_neq; congruence).
      simpl. apply Hslots; assumption.
  - exact Htarget.
  - intros i' s' hh [<-|Hin] Hs' Hg Hhh Hgs Hcount.
    + rewrite Hs in Hs'; injection Hs' as <-. apply HF; assumption.
    + apply (Hdis i' s' hh); assumption.
Qed.

Lemma addLoop_inv (refs : list Ref) :
  forall (done : list Ref) (h : Heap),
    NoDup refs ->
    (forall i, In i refs -> isDone done i = false) ->
    (forall i, In i refs ->
               exists s, nth_error l i = Some s /\ notMemberOf T s = true) ->
    LoopInv gs (gid T) l done h ->
    exists done',
      LoopInv gs (gid T) l done' (fold_left (addOne gs T) refs h) /\
      forall j, isDone done' j = isDone done j || existsb (Nat.eqb j) refs.
Proof.
  induction refs as [|i refs IH]; intros done h Hrefs Hfresh Hp Hinv; simpl.
  - exists done; split; [exact Hinv|]. intros j; rewrite orb_false_r; reflexivity.
  - inversion Hrefs as [|? ? Hnotin Hrefs']; subst.
    destruct (Hp i (or_introl eq_refl)) as (s & Hs & Hnm).
    assert (Hlen : forall h', LoopInv gs (gid T) l done h' ->
                              exists c, nth_error (slots h') i = Some c).
    { intros h' Hinv'. destruct (nth_error (slots h') i) as [c|] eqn:E; [eauto|].
      apply nth_error_None in E.
      rewrite (map_ids_length _ _ (inv_ids _ _ _ _ _ Hinv')) in E.
      apply nth_error_None in E. congruence. }
    destruct (Hlen h Hinv) as (c & Hc).
    unfold addOne at 2. rewrite Hc.
    destruct (leave_keeps_inv done h i s c Hinv Hs Hc
                (Hfresh i (or_introl eq_refl)) Hnm) as [Hinv1 HF].
    destruct (Hlen _ Hinv1) as (c1 & Hc1).
    pose proof (join_keeps_inv done _ i s c1 Hinv1 Hs Hc1 HF) as Hinv2.
    assert (Hfresh' : forall i', In i' refs -> isDone (i :: done) i' = false).
    { intros i' Hi'. simpl. rewrite (Hfresh i' (or_intror Hi')).
      replace (Nat.eqb i' i) with false; [reflexivity|].
      symmetry; apply Nat.eqb_neq; intros ->; contradiction. }
    assert (Hp' : forall i', In i' refs ->
                  exists s', nth_error l i' = Some s' /\ notMemberOf T s' = true)
      by (intros i' Hi'; apply Hp; right; exact Hi').
    destruct (IH (i :: done) _ Hrefs' Hfresh' Hp' Hinv2) as (done' & Hinv' & Hdone').
    exists done'; split; [exact Hinv'|].
    intros j; rewrite Hdone'; simpl.
    destruct (Nat.eqb j i), (isDone done j); reflexivity.
Qed.

End AddLoop.

Lemma on_group_gids (g : string) (f : GroupData -> GroupData)
    (gs : list GroupData) :
  (forall G, gid (f G) = gid G) -> map gid (on_group g f gs) = map gid gs.
Proof.
  intros Hf; unfold on_group.
  destruct (findIndex _ gs); [apply map_update_at; exact Hf|reflexivity].
Qed.

Lemma selectedGroups_In (st : State) (T : GroupData) :
  In T (selectedGroups st) -> In (gid T) (map gid (groups st)).
Proof.
  unfold selectedGroups; intros H. apply in_flat_map in H.
  destruct H as (i & _ & Hi).
  destruct (findGroup (groups st) i) as [G|] eqn:E; [|contradiction].
  destruct Hi as [<-|[]]. apply in_map. unfold findGroup in E.
  apply find_some in E; tauto.
Qed.

Lemma addToExisting_adds (T : GroupData) (st : State) :
  existsb (notMemberOf T) (filter (isSelectedShape st) (shapes st)) = true ->
  addToExisting T st =
  (setSelectedIds [gid T]
     (addShapesToGroup T
        (positions (fun shape => isSelectedShape st shape && notMemberOf T shape)
                   (shapes st)) st), None).
Proof.
  intros E; unfold addToExisting.
  replace (List.length _ =? 0)%nat with false; [reflexivity|].
  symmetry; apply Nat.eqb_neq. rewrite positions_length.
  apply existsb_exists in E. destruct E as (s & Hs & Hn).
  apply filter_In in Hs; destruct Hs as [Hs Hsel].
  assert (Hin : In s (filter (fun shape => isSelectedShape st shape && notMemberOf T shape)
                             (shapes st)))
    by (apply filter_In; split; [exact Hs|rewrite Hsel, Hn; reflexivity]).
  destruct (filter _ (shapes st)); [contradiction|simpl; lia].
Qed.

(** C4.  When at least two ids are selected, exactly one of them resolves to
    a group [T] and some selected shape is not a member of [T] (shape ids
    being unique), [createGroup] succeeds without making a group: there are
    no more groups than before, every group of the new state was there
    before, and [T] still is.  The shapes
    keep their ids and order; the members of [T] afterwards are exactly its
    members of before together with the selected shapes; the selection is
    [T] alone.  A live group that a moved shape comes from and that had at
    most two members is gone from [groups], and its members that did not
    move hang in the layer with no [groupId]. *)
Theorem createGroup_adds_to_selected_group :
  forall (now : Z) (st : State) (T : GroupData),
    NoDup (map id (shapes st)) ->
    (2 <= List.length (selectedIds st))%nat ->
    selectedGroups st = [T] ->
    existsb (notMemberOf T) (filter (isSelectedShape st) (shapes st)) = true ->
    exists st',
      createGroup now st = (st', None) /\
      selectedIds st' = [gid T] /\
      (List.length (groups st') <= List.length (groups st))%nat /\
      (forall g, In g (map gid (groups st')) -> In g (map gid (groups st))) /\
      In (gid T) (map gid (groups st')) /\
      map id (shapes st') = map id (shapes st) /\
      (forall i s,
          nth_error (shapes st) i = Some s ->
          exists s',
            nth_error (shapes st') i = Some s' /\
            (inGroup (gid T) s' = true <->
             inGroup (gid T) s = true \/ isSelectedShape st s = true)) /\
      (forall i s hh,
          nth_error (shapes st) i = Some s ->
          isSelectedShape st s = true ->
          notMemberOf T s = true ->
          groupId s = Some hh -> hh <> "" ->
          In hh (map gid (groups st)) ->
          (List.length (members hh st) <= 2)%nat ->
          ~ In hh (map gid (groups st')) /\
          forall j r,
            nth_error (shapes st) j = Some r ->
            groupId r = Some hh ->
            isSelectedShape st r = false ->
            exists r',
              nth_error (shapes st') j = Some r' /\
              groupId r' = None /\ group r' = Layer).
Proof.
  intros now st T Hnd Hsel HT Hex.
  set (p := fun shape => isSelectedShape st shape && notMemberOf T shape).
  set (refs := positions p (shapes st)).
  assert (Hcreate : createGroup now st =
                    (setSelectedIds [gid T] (addShapesToGroup T refs st), None)).
  { unfold createGroup.
    replace (List.length (selectedIds st) <? 2)%nat with false
      by (symmetry; apply Nat.ltb_ge; exact Hsel).
    rewrite HT, Hex. apply addToExisting_adds, Hex. }
  destruct (addLoop_inv (groups st) T (shapes st) Hnd refs []
              {| slots := spread (shapes st); removed := [] |})
    as (done & Hinv & Hdone).
  { apply positions_NoDup. }
  { reflexivity. }
  { intros i Hi. apply positions_spec in Hi. destruct Hi as (s & Hs & Hp).
    exists s; split; [exact Hs|]. unfold p in Hp.
    apply andb_true_iff in Hp; tauto. }
  { apply spread_inv. }
  set (hN := fold_left (addOne (groups st) T) refs
               {| slots := spread (shapes st); removed := [] |}) in *.
  destruct Hinv as [Hids Hslots Htarget Hdis].
  assert (Hmoved : forall j s, nth_error (shapes st) j = Some s ->
                               isDone done j = p s).
  { intros j s Hs. rewrite Hdone; simpl.
    destruct (p s) eqn:Hp.
    - apply existsb_eqb_In, positions_spec; eauto.
    - apply not_true_is_false; intros E.
      apply existsb_eqb_In, positions_spec in E.
      destruct E as (a & Ha & Hpa); congruence. }
  assert (Hslot : forall j s, nth_error (shapes st) j = Some s ->
                              exists c, nth_error (slots hN) j = Some c).
  { intros j s Hs. destruct (nth_error (slots hN) j) as [c|] eqn:E; [eauto|].
    apply nth_error_None in E. rewrite (map_ids_length _ _ Hids) in E.
    apply nth_error_None in E; congruence. }
  assert (Hgroups : forall g, In g (map gid (groups (addShapesToGroup T refs st))) <->
                              In g (map gid (groups st)) /\ ~ In g (removed hN)).
  { intros g. unfold addShapesToGroup; fold hN; simpl.
    rewrite in_map_iff. split.
    - intros (G & <- & HG). apply filter_In in HG; destruct HG as [HG Hrem].
      split.
      + rewrite <- (on_group_gids (gid T)
                      (fun g0 => updateGroupBoundingBox g0
                         (filter (fun shape => is_id (groupId shape) (gid T))
                                 (map updated (slots hN))))
                      (groups st)) by reflexivity.
        apply in_map, HG.
      + intros Hin; apply includes_In in Hin. rewrite Hin in Hrem; discriminate.
    - intros [Hin Hrem].
      rewrite <- (on_group_gids (gid T)
                    (fun g0 => updateGroupBoundingBox g0
                       (filter (fun shape => is_id (groupId shape) (gid T))
                               (map updated (slots hN))))
                    (groups st)) in Hin by reflexivity.
      apply in_map_iff in Hin. destruct Hin as (G & <- & HG).
      exists G; split; [reflexivity|]. apply filter_In; split; [exact HG|].
      apply negb_true_iff, not_true_is_false. intros E; apply includes_In in E.
      contradiction. }
  exists (setSelectedIds [gid T] (addShapesToGroup T refs st)).
  split; [exact Hcreate|]. split; [reflexivity|].
  change (groups (setSelectedIds [gid T] (addShapesToGroup T refs st)))
    with (groups (addShapesToGroup T refs st)).
  change (shapes (setSelectedIds [gid T] (addShapesToGroup T refs st)))
    with (map updated (slots hN)).
  split.
  { unfold addShapesToGroup; simpl.
    eapply Nat.le_trans; [apply filter_length_le|].
    rewrite <- (length_map gid), on_group_gids, length_map by reflexivity.
    apply Nat.le_refl. }
  split; [intros g Hg; apply Hgroups in Hg; tauto|].
  split.
  { apply Hgroups; split; [|exact Htarget].
    apply selectedGroups_In; rewrite HT; left; reflexivity. }
  split.
  { rewrite map_map, <- Hids. apply map_ext; intros c; reflexivity. }
  split.
  - intros j s Hs. destruct (Hslot j s Hs) as (c & Hc).
    rewrite nth_error_map, Hc; simpl. eexists; split; [reflexivity|].
    pose proof (Hslots j s c Hs Hc) as HI. rewrite (Hmoved j s Hs) in HI.
    destruct HI as [HC HD]. unfold inGroup, updated, updated_groupId; simpl.
    destruct (p s) eqn:Hp.
    + rewrite HD; simpl. rewrite String.eqb_refl.
      split; [intros _; right|reflexivity].
      unfold p in Hp; apply andb_true_iff in Hp; tauto.
    + destruct HD as [Hcop HR]. rewrite Hcop. rewrite !is_id_true. split.
      * intros E; left. destruct HC; congruence.
      * intros [E | Hsl].
        -- destruct HC as [HC|HC]; [congruence|].
           exfalso; apply Htarget. apply (HR (gid T) E). exact HC.
        -- unfold p in Hp. rewrite Hsl in Hp; simpl in Hp.
           unfold notMemberOf in Hp. apply orb_false_iff in Hp.
           destruct Hp as [_ Hp]. apply negb_false_iff, is_id_true in Hp.
           destruct HC as [HC|HC]; [congruence|].
           exfalso; apply Htarget. apply (HR (gid T) Hp). exact HC.
  - intros i s hh Hs Hsl Hnm Hg Hhh Hlive Hcount.
    assert (Hrem : In hh (removed hN)).
    { apply (Hdis i s hh); try assumption.
      apply existsb_eqb_In. fold (isDone done i). rewrite (Hmoved i s Hs).
      unfold p; rewrite Hsl, Hnm; reflexivity. }
    split; [intros Hin; apply Hgroups in Hin; tauto|].
    intros j r Hr Hgr Hnsel. destruct (Hslot j r Hr) as (c & Hc).
    rewrite nth_error_map, Hc; simpl. eexists; split; [reflexivity|].
    pose proof (Hslots j r c Hr Hc) as HI. rewrite (Hmoved j r Hr) in HI.
    unfold p in HI; rewrite Hnsel in HI; simpl in HI.
    destruct HI as [_ [Hcop HR]]. destruct (HR hh Hgr) as [[_ Hnone] HLayer].
    unfold updated, updated_groupId; simpl. rewrite Hcop.
    split; [apply Hnone, Hrem|apply HLayer, Hrem].
Qed.

(** A third shape joins the group of the first two. *)
Lemma createGroup_adds_to_selected_group_witness :
  exists st',
    createGroup 9 oneGroupAndAShape = (st', None) /\
    selectedIds st' = [mkGroupId 4] /\
    map gid (groups st') = [mkGroupId 4] /\
    map id (members (mkGroupId 4) st') = [rectId 1; circleId 2; rectId 3].
Proof.
  destruct (createGroup_adds_to_selected_group 9 oneGroupAndAShape
              (nth 0 (groups oneGroupAndAShape) (groupAt "" 0 0)))
    as (st' & H1 & H2 & _).
  - repeat constructor; simpl; intuition discriminate.
  - simpl; lia.
  - reflexivity.
  - reflexivity.
  - exists st'. split; [exact H1|]. split; [exact H2|].
    assert (E : st' = fst (createGroup 9 oneGroupAndAShape)) by (rewrite H1; reflexivity).
    rewrite E. split; run_engine; reflexivity.
Defined.

(** ** When the scan gives the bounding box *)

Lemma fold_Rmin_spec (xs : list R) :
  forall a : R,
    fold_left Rmin xs a <= a /\
    (forall x, In x xs -> fold_left Rmin xs a <= x) /\
    (fold_left Rmin xs a = a \/ In (fold_left Rmin xs a) xs).
Proof.
  induction xs as [|x xs IH]; intros a; simpl.
  - split; [lra|]. split; [tauto|left; reflexivity].
  - destruct (IH (Rmin a x)) as (Hle & Hall & Hat).
    pose proof (Rmin_l a x). pose proof (Rmin_r a x).
    split; [lra|]. split.
    + intros y [<-|Hy]; [lra|apply Hall, Hy].
    + destruct Hat as [Hat|Hat]; [|right; right; exact Hat].
      rewrite Hat. unfold Rmin; destruct (Rle_dec a x); [left|right; left]; reflexivity.
Qed.

Lemma fold_Rmax_spec (xs : list R) :
  forall a : R,
    a <= fold_left Rmax xs a /\
    (forall x, In x xs -> x <= fold_left Rmax xs a) /\
    (fold_left Rmax xs a = a \/ In (fold_left Rmax xs a) xs).
Proof.
  induction xs as [|x xs IH]; intros a; simpl.
  - split; [lra|]. split; [tauto|left; reflexivity].
  - destruct (IH (Rmax a x)) as (Hle & Hall & Hat).
    pose proof (Rmax_l a x). pose proof (Rmax_r a x).
    split; [lra|]. split.
    + intros y [<-|Hy]; [lra|apply Hall, Hy].
    + destruct Hat as [Hat|Hat]; [|right; right; exact Hat].
      rewrite Hat. unfold Rmax; destruct (Rle_dec a x); [right; left|left]; reflexivity.
Qed.

Lemma fold_addPoint (points : list Point) :
  forall b : Bounds,
    minX (fold_left addPoint points b) = fold_left Rmin (map px points) (minX b) /\
    minY (fold_left addPoint points b) = fold_left Rmin (map py points) (minY b) /\
    maxX (fold_left addPoint points b) = fold_left Rmax (map px points) (maxX b) /\
    maxY (fold_left addPoint points b) = fold_left Rmax (map py points) (maxY b).
Proof.
  induction points as [|p points IH]; intros b; simpl; [repeat split|].
  apply (IH (addPoint b p)).
Qed.

(** The scan gives the coordinate-wise least and greatest values of the
    points as soon as there is a point, no coordinate exceeds
    [Number.MAX_VALUE], and some point has [x], some point [y], at or above
    [Number.MIN_VALUE]. *)
Lemma boundingBox_exact (points : list Point) :
  points <> [] ->
  Forall (fun p => px p <= MAX_VALUE /\ py p <= MAX_VALUE) points ->
  Exists (fun p => MIN_VALUE <= px p) points ->
  Exists (fun p => MIN_VALUE <= py p) points ->
  (forall p, In p points ->
             minX (boundingBox points) <= px p <= maxX (boundingBox points) /\
             minY (boundingBox points) <= py p <= maxY (boundingBox points)) /\
  In (minX (boundingBox points)) (map px points) /\
  In (maxX (boundingBox points)) (map px points) /\
  In (minY (boundingBox points)) (map py points) /\
  In (maxY (boundingBox points)) (map py points).
Proof.
  intros Hne Hall Hx Hy. unfold boundingBox.
  destruct (fold_addPoint points noBounds) as (E1 & E2 & E3 & E4).
  rewrite E1, E2, E3, E4. simpl.
  destruct (fold_Rmin_spec (map px points) MAX_VALUE) as (A1 & A2 & A3).
  destruct (fold_Rmin_spec (map py points) MAX_VALUE) as (B1 & B2 & B3).
  destruct (fold_Rmax_spec (map px points) MIN_VALUE) as (C1 & C2 & C3).
  destruct (fold_Rmax_spec (map py points) MIN_VALUE) as (D1 & D2 & D3).
  rewrite Forall_forall in Hall.
  apply Exists_exists in Hx; destruct Hx as (qx & Hqx & Hqx').
  apply Exists_exists in Hy; destruct Hy as (qy & Hqy & Hqy').
  destruct points as [|p0 points]; [congruence|].
  assert (Hp0 : In p0 (p0 :: points)) by (left; reflexivity).
  split; [|split; [|split; [|split]]].
  - intros p Hp. repeat split.
    + apply A2, in_map, Hp.
    + apply C2, in_map, Hp.
    + apply B2, in_map, Hp.
    + apply D2, in_map, Hp.
  - destruct A3 as [E|H]; [|exact H]. rewrite E.
    pose proof (A2 (px p0) (in_map px _ _ Hp0)).
    destruct (Hall p0 Hp0) as [Hle _].
    replace MAX_VALUE with (px p0) by lra. apply in_map, Hp0.
  - destruct C3 as [E|H]; [|exact H]. rewrite E.
    pose proof (C2 (px qx) (in_map px _ _ Hqx)).
    replace MIN_VALUE with (px qx) by lra. apply in_map, Hqx.
  - destruct B3 as [E|H]; [|exact H]. rewrite E.
    pose proof (B2 (py p0) (in_map py _ _ Hp0)).
    destruct (Hall p0 Hp0) as [_ Hle].
    replace MAX_VALUE with (py p0) by lra. apply in_map, Hp0.
  - destruct D3 as [E|H]; [|exact H]. rewrite E.
    pose proof (D2 (py qy) (in_map py _ _ Hqy)).
    replace MIN_VALUE with (py qy) by lra. apply in_map, Hqy.
Qed.

(** * Further properties of the engine *)

(** ** Ids *)

Lemma to_int_not_nil (z : Z) :
  Z.to_int z <> Decimal.Pos Decimal.Nil /\ Z.to_int z <> Decimal.Neg Decimal.Nil.
Proof.
  split; intros E.
  - assert (H : z = 0%Z) by (rewrite <- (DecimalZ.of_to z), E; reflexivity).
    subst z; discriminate.
  - assert (H : z = 0%Z) by (rewrite <- (DecimalZ.of_to z), E; reflexivity).
    subst z; discriminate.
Qed.

Lemma timestamp_inj (a b : Z) : timestamp a = timestamp b -> a = b.
Proof.
  unfold timestamp; intros E.
  apply DecimalZ.to_int_inj.
  destruct (to_int_not_nil a) as [Ha1 Ha2], (to_int_not_nil b) as [Hb1 Hb2].
  pose proof (NilZero.isi (Z.to_int a) Ha1 Ha2) as Ea.
  pose proof (NilZero.isi (Z.to_int b) Hb1 Hb2) as Eb.
  rewrite E in Ea. congruence.
Qed.

Lemma made_ids (a b : Z) :
  (rectId a = rectId b <-> a = b) /\
  (circleId a = circleId b <-> a = b) /\
  (mkGroupId a = mkGroupId b <-> a = b) /\
  rectId a <> circleId b /\
  rectId a <> mkGroupId b /\
  circleId a <> mkGroupId b.
Proof.
  unfold rectId, circleId, mkGroupId; simpl.
  repeat split; try (intros ->; reflexivity); try discriminate;
    intros [= E]; apply timestamp_inj, E.
Qed.

(** X1.  Ids made at different clock readings differ, and the ids of
    rectangles, circles and groups never coincide with one another. *)
Theorem ids_never_collide :
  forall a b : Z,
    (rectId a = rectId b <-> a = b) /\
    (circleId a = circleId b <-> a = b) /\
    (mkGroupId a = mkGroupId b <-> a = b) /\
    rectId a <> circleId b /\
    rectId a <> mkGroupId b /\
    circleId a <> mkGroupId b.
Proof. exact made_ids. Qed.

(** ** Looking groups up *)

Lemma find_filter_implied {A : Type} (p q : A -> bool) (l : list A) :
  (forall a, p a = true -> q a = true) -> find p (filter q l) = find p l.
Proof.
  intros Hpq; induction l as [|a l IH]; simpl; [reflexivity|].
  destruct (q a) eqn:Q; simpl.
  - destruct (p a); [reflexivity|exact IH].
  - destruct (p a) eqn:P; [|exact IH]. rewrite (Hpq a P) in Q; discriminate.
Qed.

Lemma findGroup_app_old (gs l : list GroupData) (g : string) (G : GroupData) :
  findGroup gs g = Some G -> findGroup (gs ++ l) g = Some G.
Proof.
  unfold findGroup; induction gs as [|H gs IH]; simpl; [discriminate|].
  destruct (String.eqb (gid H) g); [tauto|exact IH].
Qed.

Lemma findGroup_live (gs : list GroupData) (g : string) :
  In g (map gid gs) -> exists G, findGroup gs g = Some G.
Proof.
  unfold findGroup; induction gs as [|H gs IH]; simpl; [tauto|].
  intros [E|Hin].
  - rewrite E, String.eqb_refl; eauto.
  - destruct (String.eqb (gid H) g); eauto.
Qed.

(** The placement of a shape depends on the groups only through the node
    of the group it hangs in. *)
Lemma placement_lookup (gs gs' : list GroupData) (s : ShapeData) :
  (forall g, group s = GroupNode g ->
             option_map gnode (findGroup gs' g) = option_map gnode (findGroup gs g)) ->
  placement gs' s = placement gs s.
Proof.
  intros H.
  unfold placement, getAbsolutePosition, getAbsoluteRotation, getAbsoluteTransform.
  destruct (group s) as [|g|]; try reflexivity.
  specialize (H g eq_refl).
  destruct (findGroup gs' g) as [G'|], (findGroup gs g) as [G|];
    simpl in H; try discriminate; [|reflexivity].
  injection H as E. unfold groupTransform. rewrite E. reflexivity.
Qed.

Lemma placement_in_layer (gs : list GroupData) (s : ShapeData) :
  group s = Layer ->
  placement gs s = (position (node s), decomposeRotation (shapeTransform s)).
Proof.
  intros H.
  unfold placement, getAbsolutePosition, getAbsoluteRotation, getAbsoluteTransform.
  rewrite H. cbn [shapeTransform getTransform m_e m_f].
  rewrite point_eta. reflexivity.
Qed.

(** When no group is scaled, the absolute transform of a shape is a turn
    followed by a shift. *)
Lemma absolute_turn (gs : list GroupData) (s : ShapeData) :
  Forall unscaled gs ->
  exists deg,
    let m := getAbsoluteTransform gs s in
    let n := getTransform (position (node s)) deg 1 1 in
    m_a m = m_a n /\ m_b m = m_b n /\ m_c m = m_c n /\ m_d m = m_d n.
Proof.
  intros Hun. unfold getAbsoluteTransform.
  assert (Hown : exists deg,
            let m := shapeTransform s in
            let n := getTransform (position (node s)) deg 1 1 in
            m_a m = m_a n /\ m_b m = m_b n /\ m_c m = m_c n /\ m_d m = m_d n)
    by (exists (rotation (node s)); repeat split).
  destruct (group s) as [|g|]; try exact Hown.
  destruct (findGroup gs g) as [G|] eqn:EG; [|exact Hown].
  assert (HG : unscaled G).
  { rewrite Forall_forall in Hun. apply Hun.
    unfold findGroup in EG. apply (find_some _ _ EG). }
  destruct HG as [Hx Hy].
  exists (rotation (node s) + g_rotation (gnode G)).
  unfold groupTransform, shapeTransform. rewrite Hx, Hy.
  apply multiply_turns.
Qed.

Lemma absolute_unit (gs : list GroupData) (s : ShapeData) :
  Forall unscaled gs ->
  m_a (getAbsoluteTransform gs s) * m_a (getAbsoluteTransform gs s) +
  m_b (getAbsoluteTransform gs s) * m_b (getAbsoluteTransform gs s) = 1.
Proof.
  intros Hun. destruct (absolute_turn gs s Hun) as (deg & Ea & Eb & _).
  cbv zeta in Ea, Eb. rewrite Ea, Eb.
  apply (getTransform_unit (position (node s)) deg).
Qed.

(** [getAbsoluteRotation], written back to the node of a shape that hangs
    in the layer, is read again unchanged. *)
Lemma absoluteRotation_again (gs : list GroupData) (s : ShapeData) (p : Point) :
  Forall unscaled gs ->
  decomposeRotation (getTransform p (getAbsoluteRotation gs s) 1 1) =
  getAbsoluteRotation gs s.
Proof.
  intros Hun. unfold getAbsoluteRotation. apply decomposeRotation_again.
  rewrite (absolute_unit gs s Hun). lra.
Qed.

Lemma NoDup_snoc {A : Type} (l : list A) (a : A) :
  NoDup l -> ~ In a l -> NoDup (l ++ [a]).
Proof.
  induction l as [|b l IH]; simpl; intros Hnd Hnotin.
  - constructor; [tauto|constructor].
  - inversion Hnd as [|? ? Hb Hl]; subst. constructor.
    + rewrite in_app_iff; simpl. intros [H|[H|[]]]; [tauto|].
      apply Hnotin; left; symmetry; exact H.
    + apply IH; [exact Hl|]. intros H; apply Hnotin; right; exact H.
Qed.

Lemma NoDup_map_filter {A B : Type} (k : A -> B) (q : A -> bool) (l : list A) :
  NoDup (map k l) -> NoDup (map k (filter q l)).
Proof.
  induction l as [|a l IH]; simpl; intros Hnd; [constructor|].
  inversion Hnd as [|? ? Ha Hl]; subst.
  destruct (q a); simpl; [|apply IH, Hl].
  constructor; [|apply IH, Hl].
  intros Hin; apply Ha. apply in_map_iff in Hin.
  destruct Hin as (x & E & Hx). apply filter_In in Hx.
  rewrite <- E; apply in_map; tauto.
Qed.

(** In a well-formed state a falsy [groupId] is [null], and a shape that
    names a group names one that is there under a non-empty id. *)
Lemma wf_truthy (st : State) (s : ShapeData) :
  wellFormed st -> In s (shapes st) ->
  truthy (groupId s) = match groupId s with Some _ => true | None => false end.
Proof.
  intros Hwf Hs. pose proof (wf_attached st Hwf s Hs) as Ha.
  destruct (groupId s) as [g|]; [|reflexivity].
  destruct Ha as [_ Hin]. apply in_map_iff in Hin.
  destruct Hin as (G & <- & HG).
  destruct (wf_group_names st Hwf G HG) as (t & ->).
  simpl. destruct (String.eqb_spec (mkGroupId t) ""); [|reflexivity].
  exfalso; eapply mkGroupId_not_empty; eassumption.
Qed.

Lemma wf_shape_not_group (st : State) (s : ShapeData) (G : GroupData) :
  wellFormed st -> In s (shapes st) -> In G (groups st) -> id s <> gid G.
Proof.
  intros Hwf Hs HG E.
  destruct (wf_shape_names st Hwf s Hs) as (t & Hs').
  destruct (wf_group_names st Hwf G HG) as (t' & HG').
  destruct (made_ids t t') as (_ & _ & _ & _ & H1 & H2).
  destruct Hs' as [Hs'|Hs']; congruence.
Qed.

(** ** Ungrouping in a well-formed state *)

Lemma nth_error_In_shape {A : Type} (l : list A) (j : nat) (a : A) :
  nth_error l j = Some a -> In a l.
Proof. apply nth_error_In. Qed.

Lemma ungroup_shape (st : State) (g : string) (G : GroupData) (s : ShapeData) :
  wellFormed st -> findGroup (groups st) g = Some G -> In s (shapes st) ->
  let gs' := filter (fun G' => negb (String.eqb (gid G') g)) (groups st) in
  let s' := goesWith g (if inGroup g s then ungrouped (groups st) G s else s) in
  frame s' = frame s /\
  (unscaled G -> placement gs' s' = placement (groups st) s) /\
  (inGroup g s = true ->
   groupId s' = None /\ group s' = Layer /\ draggable (node s') = true) /\
  (inGroup g s = false -> s' = s).
Proof.
  intros Hwf HG Hs gs' s'. pose proof (wf_attached st Hwf s Hs) as Ha.
  destruct (inGroup g s) eqn:Hin; subst s'.
  - assert (Hback : goesWith g (ungrouped (groups st) G s) = ungrouped (groups st) G s)
      by reflexivity.
    rewrite Hback. split; [reflexivity|]. split; [|split; [auto|discriminate]].
    intros [Hx Hy].
    rewrite placement_in_layer by reflexivity.
    unfold inGroup in Hin; apply is_id_true in Hin. rewrite Hin in Ha.
    destruct Ha as [Hgrp _].
    unfold placement. apply f_equal2; [reflexivity|].
    unfold getAbsoluteRotation, getAbsoluteTransform. rewrite Hgrp, HG.
    unfold shapeTransform at 1, groupTransform. rewrite Hx, Hy.
    cbn [ungrouped ungroupChange with_groupId with_node moveTo node rotation
         position set_draggable set_rotation set_position].
    symmetry. apply decomposeRotation_turns.
  - assert (Hsame : goesWith g s = s).
    { unfold goesWith. destruct (groupId s) as [h|] eqn:Eh.
      - destruct Ha as [-> _]. destruct (String.eqb_spec h g) as [->|_]; [|reflexivity].
        unfold inGroup in Hin; rewrite Eh in Hin; simpl in Hin.
        rewrite String.eqb_refl in Hin; discriminate.
      - rewrite Ha; reflexivity. }
    rewrite Hsame. split; [reflexivity|]. split; [|split; [discriminate|auto]].
    intros _. apply placement_lookup. intros h Hh. unfold gs', findGroup.
    rewrite find_filter_implied; [reflexivity|].
    intros G' E. apply String.eqb_eq in E. apply negb_true_iff, String.eqb_neq.
    intros E'. destruct (groupId s) as [h'|] eqn:Eh.
    + destruct Ha as [Ha _]. rewrite Ha in Hh; injection Hh as ->.
      unfold inGroup in Hin; rewrite Eh in Hin; simpl in Hin.
      rewrite <- E, E', String.eqb_refl in Hin; discriminate.
    + rewrite Ha in Hh; discriminate.
Qed.

Lemma ungroup_wf (st : State) (g : string) (G : GroupData) :
  wellFormed st -> findGroup (groups st) g = Some G ->
  wellFormed
    {| shapes := map (fun s => goesWith g (if inGroup g s
                                            then ungrouped (groups st) G s
                                            else s)) (shapes st);
       groups := filter (fun G' => negb (String.eqb (gid G') g)) (groups st);
       selectedIds := map id (filter (inGroup g) (shapes st));
       hoveredId := hoveredId st |}.
Proof.
  intros Hwf HG.
  assert (Hids : map id (map (fun s => goesWith g (if inGroup g s
                                                   then ungrouped (groups st) G s
                                                   else s)) (shapes st))
                 = map id (shapes st)).
  { rewrite map_map. apply map_ext_in; intros s Hs.
    destruct (ungroup_shape st g G s Hwf HG Hs) as (Hf & _).
    unfold frame in Hf. congruence. }
  constructor; simpl.
  - rewrite Hids. apply (wf_shape_ids st Hwf).
  - apply NoDup_map_filter, (wf_group_ids st Hwf).
  - intros s' Hs'. apply in_map_iff in Hs'. destruct Hs' as (s & <- & Hs).
    destruct (ungroup_shape st g G s Hwf HG Hs) as (Hf & _).
    destruct (wf_shape_names st Hwf s Hs) as (t & Ht).
    exists t. unfold frame in Hf.
    replace (id (goesWith g (if inGroup g s then ungrouped (groups st) G s else s)))
      with (id s) by congruence.
    exact Ht.
  - intros G' HG'. apply filter_In in HG'. apply (wf_group_names st Hwf), HG'.
  - intros s' Hs'. apply in_map_iff in Hs'. destruct Hs' as (s & <- & Hs).
    destruct (ungroup_shape st g G s Hwf HG Hs) as (_ & _ & Hmem & Hnon).
    destruct (inGroup g s) eqn:Hin.
    + destruct (Hmem eq_refl) as (-> & -> & _). reflexivity.
    + rewrite (Hnon eq_refl). pose proof (wf_attached st Hwf s Hs) as Ha.
      destruct (groupId s) as [h|] eqn:Eh; [|exact Ha].
      destruct Ha as [Hgrp Hlive]. split; [exact Hgrp|].
      apply in_map_iff in Hlive. destruct Hlive as (H & <- & HH).
      apply in_map, filter_In. split; [exact HH|].
      apply negb_true_iff, String.eqb_neq. intros E.
      unfold inGroup in Hin; rewrite Eh, E in Hin; simpl in Hin.
      rewrite String.eqb_refl in Hin; discriminate.
Qed.

Lemma NoDup_map_filter_ids (q : ShapeData -> bool) (l : list ShapeData) :
  NoDup (map id l) -> NoDup (map id (filter q l)).
Proof. apply NoDup_map_filter. Qed.

Lemma ungroup_cases (st : State) :
  (exists msg, ungroup st = (st, Some msg)) \/
  (exists g G, selectedIds st = [g] /\ findGroup (groups st) g = Some G).
Proof.
  unfold ungroup. destruct (selectedIds st) as [|g [|g' sel]];
    try (left; eexists; reflexivity).
  destruct (findGroup (groups st) g) as [G|] eqn:E;
    [right; exists g, G; split; [reflexivity|exact E]|left; eexists; reflexivity].
Qed.

(** X2.  In a well-formed state with exactly one selected id that is the id
    of a group, [ungroup] succeeds: that group is gone and the other groups
    stay; every shape that named it has no [groupId], hangs in the layer
    and is draggable again; every other shape is untouched; no shape names
    the group any more; and the selection is the released shapes, in the
    order of [shapes]. *)
Theorem ungroup_releases_the_members :
  forall (st : State) (g : string) (G : GroupData),
    wellFormed st ->
    selectedIds st = [g] ->
    findGroup (groups st) g = Some G ->
    exists st',
      ungroup st = (st', None) /\
      ~ In g (map gid (groups st')) /\
      (forall h, h <> g ->
                 (In h (map gid (groups st')) <-> In h (map gid (groups st)))) /\
      selectedIds st' = map id (members g st) /\
      members g st' = [] /\
      forall j s,
        nth_error (shapes st) j = Some s ->
        exists s',
          nth_error (shapes st') j = Some s' /\
          id s' = id s /\
          (inGroup g s = true ->
           groupId s' = None /\ group s' = Layer /\ draggable (node s') = true) /\
          (inGroup g s = false -> s' = s).
Proof.
  intros st g G Hwf Hsel HG.
  rewrite (ungroup_result st g G (wf_shape_ids st Hwf) Hsel HG).
  eexists; split; [reflexivity|]. simpl.
  assert (Hgroups : forall h, In h (map gid (filter (fun G' => negb (String.eqb (gid G') g))
                                                    (groups st))) <->
                              In h (map gid (groups st)) /\ h <> g).
  { intros h. rewrite !in_map_iff. split.
    - intros (H & <- & HH). apply filter_In in HH. destruct HH as [HH Hne].
      split; [eauto|]. apply negb_true_iff, String.eqb_neq in Hne; exact Hne.
    - intros [(H & <- & HH) Hne]. exists H; split; [reflexivity|].
      apply filter_In; split; [exact HH|].
      apply negb_true_iff, String.eqb_neq; exact Hne. }
  split; [intros Hin; apply Hgroups in Hin; tauto|].
  split; [intros h Hne; rewrite Hgroups; tauto|].
  split; [reflexivity|]. split.
  - unfold members; simpl. apply filter_nil.
    intros s' Hs'. apply in_map_iff in Hs'. destruct Hs' as (s & <- & Hs).
    destruct (ungroup_shape st g G s Hwf HG Hs) as (_ & _ & Hmem & Hnon).
    destruct (inGroup g s) eqn:Hin.
    + destruct (Hmem eq_refl) as (Hnone & _). unfold inGroup; rewrite Hnone; reflexivity.
    + rewrite (Hnon eq_refl); exact Hin.
  - intros j s Hs. rewrite nth_error_map, Hs; simpl.
    eexists; split; [reflexivity|].
    destruct (ungroup_shape st g G s Hwf HG (nth_error_In _ _ Hs))
      as (Hf & _ & Hmem & Hnon).
    split; [unfold frame in Hf; congruence|]. split; assumption.
Qed.

Lemma wellFormed_twoGroupsAndAShape : wellFormed twoGroupsAndAShape.
Proof.
  constructor.
  - run_engine. repeat constructor; simpl; intuition discriminate.
  - run_engine. repeat constructor; simpl; intuition discriminate.
  - apply Forall_forall. run_engine.
    apply Forall_cons; [exists 1%Z; left; reflexivity|].
    apply Forall_cons; [exists 2%Z; left; reflexivity|].
    apply Forall_cons; [exists 3%Z; left; reflexivity|].
    apply Forall_cons; [exists 4%Z; left; reflexivity|].
    apply Forall_cons; [exists 5%Z; left; reflexivity|].
    apply Forall_cons; [exists 6%Z; left; reflexivity|].
    apply Forall_nil.
  - apply Forall_forall. run_engine.
    apply Forall_cons; [exists 7%Z; reflexivity|].
    apply Forall_cons; [exists 8%Z; reflexivity|].
    apply Forall_nil.
  - apply Forall_forall. run_engine.
    repeat (apply Forall_cons; [simpl; tauto|]). apply Forall_nil.
Qed.

Lemma setSelectedIds_wf (sel : list string) (st : State) :
  wellFormed st -> wellFormed (setSelectedIds sel st).
Proof. intros [H1 H2 H3 H4 H5]; constructor; assumption. Qed.

Lemma ungroup_releases_the_members_witness :
  exists st',
    ungroup (setSelectedIds [mkGroupId 7] twoGroupsAndAShape) = (st', None) /\
    ~ In (mkGroupId 7) (map gid (groups st')) /\
    selectedIds st' = [rectId 1; rectId 2; rectId 3].
Proof.
  destruct (ungroup_releases_the_members
              (setSelectedIds [mkGroupId 7] twoGroupsAndAShape) (mkGroupId 7)
              (nth 0 (groups twoGroupsAndAShape) (groupAt "" 0 0)))
    as (st' & H1 & H2 & _ & H4 & _).
  - apply setSelectedIds_wf, wellFormed_twoGroupsAndAShape.
  - reflexivity.
  - reflexivity.
  - exists st'. split; [exact H1|]. split; [exact H2|].
    rewrite H4. run_engine. reflexivity.
Defined.

(** X3.  [ungroup] of a group that has not been resized moves and turns
    nothing on the canvas: in a well-formed state, when the node of the
    dissolved group is at scale 1, whatever its position and rotation,
    every shape has afterwards the absolute position and the absolute
    rotation it had before, as Konva reads them off the absolute transform,
    and its id, type, size and fill. *)
Theorem ungroup_keeps_every_shape_in_place :
  forall (st : State) (g : string) (G : GroupData),
    wellFormed st ->
    selectedIds st = [g] ->
    findGroup (groups st) g = Some G ->
    unscaled G ->
    forall j s,
      nth_error (shapes st) j = Some s ->
      exists s',
        nth_error (shapes (fst (ungroup st))) j = Some s' /\
        frame s' = frame s /\
        getAbsolutePosition (groups (fst (ungroup st))) s' =
          getAbsolutePosition (groups st) s /\
        getAbsoluteRotation (groups (fst (ungroup st))) s' =
          getAbsoluteRotation (groups st) s.
Proof.
  intros st g G Hwf Hsel HG Hun j s Hs.
  rewrite (ungroup_result st g G (wf_shape_ids st Hwf) Hsel HG).
  cbn [fst shapes groups].
  rewrite nth_error_map, Hs. cbn [option_map]. eexists; split; [reflexivity|].
  destruct (ungroup_shape st g G s Hwf HG (nth_error_In _ _ Hs))
    as (Hf & Hp & _).
  split; [exact Hf|]. specialize (Hp Hun). unfold placement in Hp.
  split; [exact (f_equal fst Hp)|exact (f_equal snd Hp)].
Qed.

Lemma ungroup_keeps_every_shape_in_place_witness :
  exists s',
    nth_error (shapes (fst (ungroup (setSelectedIds [mkGroupId 7] twoGroupsAndAShape)))) 0
      = Some s' /\
    getAbsolutePosition
      (groups (fst (ungroup (setSelectedIds [mkGroupId 7] twoGroupsAndAShape)))) s' =
    getAbsolutePosition (groups twoGroupsAndAShape)
      (nth 0 (shapes twoGroupsAndAShape) (rectAt "" 0 0 Layer None)).
Proof.
  destruct (ungroup_keeps_every_shape_in_place
              (setSelectedIds [mkGroupId 7] twoGroupsAndAShape) (mkGroupId 7)
              (nth 0 (groups twoGroupsAndAShape) (groupAt "" 0 0))
              (setSelectedIds_wf _ _ wellFormed_twoGroupsAndAShape)
              eq_refl eq_refl (conj eq_refl eq_refl) 0%nat
              (nth 0 (shapes twoGroupsAndAShape) (rectAt "" 0 0 Layer None))
              eq_refl)
    as (s' & H1 & _ & H3 & _).
  exists s'. split; [exact H1|exact H3].
Defined.

(** ** Joining a group without moving *)

(** The place [addShapesToGroup] works out for a shape is the one from
    which a turn by an angle with the cosine and sine of the group's
    absolute rotation, followed by the shift to the group's position,
    leads back to where the shape is. *)
Lemma localPlace_inverts (globalPos groupPos : Point) (groupRotation c z : R) :
  cos groupRotation = c ->
  sin groupRotation = z ->
  let d := localPlace globalPos groupPos groupRotation in
  c * 1 * px d + - z * 1 * py d + px groupPos = px globalPos /\
  z * 1 * px d + c * 1 * py d + py groupPos = py globalPos.
Proof.
  intros Hc Hz. unfold localPlace.
  destruct globalPos as [a b], groupPos as [u v]; cbn [px py].
  pose proof (sin2_cos2 groupRotation) as H. unfold Rsqr in H.
  rewrite Hc, Hz in H.
  destruct (Req_dec_T groupRotation 0) as [E|_]; cbn [px py].
  - rewrite E, cos_0 in Hc. rewrite E, sin_0 in Hz. subst c z. split; ring.
  - rewrite cos_neg, sin_neg, Hc, Hz. split.
    + replace (c * 1 * ((a - u) * c - (b - v) * - z) +
               - z * 1 * ((a - u) * - z + (b - v) * c) + u)
        with (u + (a - u) * (z * z + c * c)) by ring.
      rewrite H; ring.
    + replace (z * 1 * ((a - u) * c - (b - v) * - z) +
               c * 1 * ((a - u) * - z + (b - v) * c) + v)
        with (v + (b - v) * (z * z + c * c)) by ring.
      rewrite H; ring.
Qed.

(** An angle shifted by the difference of two angles with the same cosine
    and sine keeps its cosine and sine. *)
Lemma same_turn_shift (A N T : R) :
  cos N = cos T -> sin N = sin T ->
  cos (A - N + T) = cos A /\ sin (A - N + T) = sin A.
Proof.
  intros Hc Hz.
  pose proof (sin2_cos2 T) as H. unfold Rsqr in H.
  replace (A - N + T) with (A + (T - N)) by ring.
  rewrite cos_plus, sin_plus, cos_minus, sin_minus, Hc, Hz.
  split.
  - replace (cos A * (cos T * cos T + sin T * sin T) -
             sin A * (sin T * cos T - cos T * sin T))
      with (cos A * (sin T * sin T + cos T * cos T)) by ring.
    rewrite H; ring.
  - replace (sin A * (cos T * cos T + sin T * sin T) +
             cos A * (sin T * cos T - cos T * sin T))
      with (sin A * (sin T * sin T + cos T * cos T)) by ring.
    rewrite H; ring.
Qed.

(** The absolute rotation of the node of a group that is not scaled has
    the cosine and sine of the rotation of the node. *)
Lemma groupAbsoluteRotation_direction (T : GroupData) :
  unscaled T ->
  cos (groupAbsoluteRotation T * PI / 180) = cos (g_rotation (gnode T) * PI / 180) /\
  sin (groupAbsoluteRotation T * PI / 180) = sin (g_rotation (gnode T) * PI / 180).
Proof.
  intros [Hx Hy]. unfold groupAbsoluteRotation, groupTransform. rewrite Hx, Hy.
  destruct (getTransform_unit (g_position (gnode T)) (g_rotation (gnode T)))
    as (A & B & U). cbv zeta in *.
  destruct (decomposeRotation_direction
              (getTransform (g_position (gnode T)) (g_rotation (gnode T)) 1 1))
    as (Hr & Hc & Hs); [rewrite U; lra|].
  cbv zeta in *. rewrite U, sqrt_1 in Hc, Hs.
  rewrite Hc, Hs, A, B. split; field.
Qed.

Lemma joinChange_placement (gs : list GroupData) (T : GroupData)
    (shape s : ShapeData) :
  Forall unscaled gs ->
  findGroup gs (gid T) = Some T ->
  placement gs (joinChange gs T shape s) = placement gs shape.
Proof.
  intros Hun HT.
  assert (HTun : unscaled T).
  { rewrite Forall_forall in Hun. apply Hun.
    unfold findGroup in HT. apply (find_some _ _ HT). }
  destruct (groupAbsoluteRotation_direction T HTun) as [Hc Hz].
  destruct HTun as [Hx Hy].
  assert (Habs : getAbsoluteTransform gs (joinChange gs T shape s) =
                 multiply (groupTransform T) (shapeTransform (joinChange gs T shape s))).
  { unfold getAbsoluteTransform.
    change (group (joinChange gs T shape s)) with (GroupNode (gid T)).
    cbv beta iota. rewrite HT. reflexivity. }
  unfold placement. apply f_equal2.
  - unfold getAbsolutePosition at 1. rewrite Habs.
    unfold multiply, groupTransform, shapeTransform, getTransform, joinChange.
    cbn [m_a m_b m_c m_d m_e m_f node with_node moveTo position
         set_draggable set_rotation set_position].
    rewrite Hx, Hy.
    destruct (localPlace_inverts (getAbsolutePosition gs shape)
                (g_position (gnode T)) (groupAbsoluteRotation T * PI / 180)
                _ _ Hc Hz) as [Ex Ey].
    cbv zeta in Ex, Ey. rewrite Ex, Ey. apply point_eta.
  - unfold getAbsoluteRotation at 1. rewrite Habs.
    unfold groupTransform, shapeTransform, joinChange. rewrite Hx, Hy.
    cbn [node with_node moveTo position rotation
         set_draggable set_rotation set_position].
    rewrite (decomposeRotation_turns _ _ (position (node shape))).
    rewrite <- (absoluteRotation_again gs shape (position (node shape)) Hun) at 2.
    destruct (same_turn_shift (getAbsoluteRotation gs shape * PI / 180)
                (groupAbsoluteRotation T * PI / 180)
                (g_rotation (gnode T) * PI / 180) Hc Hz) as [Ec Es].
    apply decomposeRotation_same_angle.
    + rewrite <- Ec. f_equal. field.
    + rewrite <- Es. f_equal. field.
Qed.

Lemma joinChange_frame (gs : list GroupData) (T : GroupData)
    (shape s : ShapeData) :
  frame (joinChange gs T shape s) = frame s.
Proof. reflexivity. Qed.

Lemma on_obj_same (f : ShapeData -> ShapeData) (c : Slot) :
  f (obj c) = obj c -> on_obj f c = c.
Proof. destruct c as [o k]; unfold on_obj; simpl; intros ->; reflexivity. Qed.

Lemma dissolved_keeps (gs : list GroupData) (rem : list string) (hid : string)
    (s : ShapeData) (c : Slot) :
  slotKeeps gs rem s c -> slotKeeps gs (hid :: rem) s (dissolved gs hid c).
Proof.
  intros (Hf & Hp & Ha). unfold dissolved.
  destruct (is_id (updated_groupId c) hid) eqn:E.
  - assert (Hrel : on_obj (goesWith hid) (release gs c) = release gs c).
    { apply on_obj_same. unfold release, clear_groupId, on_obj; simpl.
      destruct (copied c); reflexivity. }
    rewrite Hrel. unfold slotKeeps.
    assert (Hobj : frame (obj (release gs c)) = frame (obj c) /\
                   (Forall unscaled gs ->
                    placement gs (obj (release gs c)) = placement gs (obj c)) /\
                   updated_groupId (release gs c) = None /\
                   group (obj (release gs c)) = Layer).
    { unfold release, clear_groupId, on_obj, updated_groupId.
      cbn [obj copied].
      destruct (copied c); cbn [obj copied]; (split; [reflexivity|]);
        (split; [|split; reflexivity]); intros Hun;
        rewrite placement_in_layer by reflexivity;
        unfold placement; (apply f_equal2; [reflexivity|]);
        apply (absoluteRotation_again gs (obj c) _ Hun). }
    destruct Hobj as (H1 & H2 & H3 & H4).
    rewrite H1, H3. split; [exact Hf|]. split; [|exact H4].
    intros Hun. rewrite (H2 Hun). exact (Hp Hun).
  - assert (Hsame : on_obj (goesWith hid) c = c).
    { apply on_obj_same. unfold goesWith.
      destruct (updated_groupId c) as [g|] eqn:Eg.
      - destruct Ha as (-> & _). simpl in E.
        destruct (String.eqb_spec g hid); [discriminate|reflexivity].
      - rewrite Ha; reflexivity. }
    rewrite Hsame. split; [exact Hf|]. split; [exact Hp|].
    destruct (updated_groupId c) as [g|]; [|exact Ha].
    destruct Ha as (Hg & Hlive & Hrem). repeat split; try assumption.
    simpl in E. intros [<-|Hin]; [|tauto].
    rewrite String.eqb_refl in E; discriminate.
Qed.

Lemma joined_keeps (gs : list GroupData) (rem : list string) (T : GroupData)
    (s : ShapeData) (c : Slot) :
  findGroup gs (gid T) = Some T ->
  ~ In (gid T) rem ->
  slotKeeps gs rem s c ->
  slotKeeps gs rem s (settled (joinChange gs T) (Some (gid T)) c).
Proof.
  intros HT Hrem (Hf & Hp & _).
  unfold slotKeeps, settled, updated_groupId. cbn [obj copied replace_copy on_obj].
  rewrite joinChange_frame.
  split; [exact Hf|]. split.
  - intros Hun. rewrite (joinChange_placement gs T _ _ Hun HT). exact (Hp Hun).
  - split; [reflexivity|]. split; [|exact Hrem].
    apply in_map. unfold findGroup in HT. apply find_some in HT; tauto.
Qed.

Lemma leave_keeps (gs : list GroupData) (l : list ShapeData)
    (shape : ShapeData) (h : Heap) :
  Keeps gs l h -> Keeps gs l (leaveOldGroup gs shape h).
Proof.
  intros HK. unfold leaveOldGroup.
  destruct (truthy (groupId shape)); [|exact HK].
  destruct (find _ gs) as [oldGroup|]; [|exact HK].
  destruct (List.length _ <=? 2)%nat; [|exact HK].
  intros j s c' Hs Hc'. rewrite dissolve_slots, nth_error_map in Hc'.
  destruct (nth_error (slots h) j) as [c|] eqn:Hc; [|discriminate].
  injection Hc' as <-. apply dissolved_keeps, (HK j s c Hs Hc).
Qed.

Section AddLoopKeeps.
Variable gs : list GroupData.
Variable T : GroupData.
Variable l : list ShapeData.
Hypothesis Hnd : NoDup (map id l).
Hypothesis HT : findGroup gs (gid T) = Some T.

Lemma spread_keeps :
  (forall s, In s l ->
             match groupId s with
             | None => group s = Layer
             | Some g => group s = GroupNode g /\ In g (map gid gs)
             end) ->
  Keeps gs l {| slots := spread l; removed := [] |}.
Proof.
  intros Hatt j s c Hs Hc. simpl in Hc. unfold spread in Hc.
  rewrite nth_error_map, Hs in Hc. injection Hc as <-.
  split; [reflexivity|]. split; [reflexivity|].
  unfold updated_groupId; simpl.
  pose proof (Hatt s (nth_error_In _ _ Hs)) as Ha.
  destruct (groupId s); [|exact Ha]. destruct Ha; auto.
Qed.

Lemma join_keeps (h : Heap) (i : Ref) (c : Slot) :
  map (fun c => id (obj c)) (slots h) = map id l ->
  ~ In (gid T) (removed h) ->
  nth_error (slots h) i = Some c ->
  Keeps gs l h ->
  Keeps gs l {| slots := joinTarget gs T i (slots h); removed := removed h |}.
Proof.
  intros Hids Hrem Hc HK.
  assert (Hnds : NoDup (map (fun c => id (obj c)) (slots h)))
    by (rewrite Hids; exact Hnd).
  rewrite joinTarget_roundOf.
  rewrite (roundOf_update _ _ (joinChange_id gs T) _ _ _ Hnds Hc).
  intros j s c' Hs Hc'. simpl in Hc'. rewrite nth_error_update_at in Hc'.
  simpl. destruct (Nat.eqb_spec i j) as [<-|Hij].
  - rewrite Hc in Hc'; injection Hc' as <-.
    apply joined_keeps; [exact HT|exact Hrem|]. apply (HK i s c Hs Hc).
  - apply (HK j s c' Hs Hc').
Qed.

Lemma addLoop_keeps (refs : list Ref) :
  forall (done : list Ref) (h : Heap),
    NoDup refs ->
    (forall i, In i refs -> isDone done i = false) ->
    (forall i, In i refs ->
               exists s, nth_error l i = Some s /\ notMemberOf T s = true) ->
    LoopInv gs (gid T) l done h ->
    Keeps gs l h ->
    Keeps gs l (fold_left (addOne gs T) refs h).
Proof.
  induction refs as [|i refs IH]; intros done h Hrefs Hfresh Hp Hinv HK; simpl.
  - exact HK.
  - inversion Hrefs as [|? ? Hnotin Hrefs']; subst.
    destruct (Hp i (or_introl eq_refl)) as (s & Hs & Hnm).
    assert (Hlen : forall h', LoopInv gs (gid T) l done h' ->
                              exists c, nth_error (slots h') i = Some c).
    { intros h' Hinv'. destruct (nth_error (slots h') i) as [c|] eqn:E; [eauto|].
      apply nth_error_None in E.
      rewrite (map_ids_length _ _ (inv_ids _ _ _ _ _ Hinv')) in E.
      apply nth_error_None in E. congruence. }
    destruct (Hlen h Hinv) as (c & Hc).
    unfold addOne at 2. rewrite Hc.
    destruct (leave_keeps_inv gs T l done h i s c Hinv Hs Hc
                (Hfresh i (or_introl eq_refl)) Hnm) as [Hinv1 HF].
    pose proof (leave_keeps gs l (obj c) h HK) as HK1.
    destruct (Hlen _ Hinv1) as (c1 & Hc1).
    pose proof (join_keeps_inv gs T l Hnd done _ i s c1 Hinv1 Hs Hc1 HF) as Hinv2.
    pose proof (join_keeps _ i c1 (inv_ids _ _ _ _ _ Hinv1)
                  (inv_target _ _ _ _ _ Hinv1) Hc1 HK1) as HK2.
    apply (IH (i :: done)); try assumption.
    + intros i' Hi'. simpl. rewrite (Hfresh i' (or_intror Hi')).
      replace (Nat.eqb i' i) with false; [reflexivity|].
      symmetry; apply Nat.eqb_neq; intros ->; contradiction.
    + intros i' Hi'; apply Hp; right; exact Hi'.
Qed.

End AddLoopKeeps.

(** ** The groups after adding to a group *)

Lemma findGroup_on_group (gs : list GroupData) (tid : string)
    (f : GroupData -> GroupData) (g : string) :
  (forall G, gid (f G) = gid G) ->
  findGroup (on_group tid f gs) g =
  option_map (fun G => if String.eqb (gid G) tid then f G else G)
             (findGroup gs g).
Proof.
  intros Hf. unfold on_group, findGroup.
  induction gs as [|H gs IH]; simpl; [reflexivity|].
  destruct (String.eqb (gid H) tid) eqn:Et; simpl.
  - rewrite Hf. destruct (String.eqb (gid H) g) eqn:Eg; simpl.
    + rewrite Et; reflexivity.
    + destruct (find (fun g0 => String.eqb (gid g0) g) gs) as [G|] eqn:EG;
        simpl; [|reflexivity].
      apply find_some in EG. destruct EG as [_ EG].
      apply String.eqb_eq in EG, Et. apply String.eqb_neq in Eg.
      destruct (String.eqb_spec (gid G) tid); [congruence|reflexivity].
  - destruct (findIndex (fun G => String.eqb (gid G) tid) gs) as [j|]; simpl.
    + destruct (String.eqb (gid H) g) eqn:Eg; simpl; [rewrite Et; reflexivity|].
      exact IH.
    + destruct (String.eqb (gid H) g) eqn:Eg; simpl; [rewrite Et; reflexivity|].
      exact IH.
Qed.

Lemma on_group_In (tid : string) (f : GroupData -> GroupData)
    (gs : list GroupData) (G' : GroupData) :
  In G' (on_group tid f gs) ->
  In G' gs \/ exists G, In G gs /\ gid G = tid /\ G' = f G.
Proof.
  unfold on_group. induction gs as [|H gs IH]; simpl; [tauto|].
  destruct (String.eqb_spec (gid H) tid) as [E|E]; simpl.
  - intros [<-|Hin]; [right; exists H; auto|left; right; exact Hin].
  - destruct (findIndex (fun G => String.eqb (gid G) tid) gs) as [j|]; simpl.
    + intros [<-|Hin]; [left; left; reflexivity|].
      destruct (IH Hin) as [Hold|(G & HG & Hgid & ->)]; [left; right; exact Hold|].
      right; exists G; auto.
    + tauto.
Qed.

Lemma groups_left_ids (gs : list GroupData) (rem : list string) (tid : string)
    (f : GroupData -> GroupData) (g : string) :
  (forall G, gid (f G) = gid G) ->
  In g (map gid (filter (fun G => negb (includes rem (gid G))) (on_group tid f gs))) <->
  In g (map gid gs) /\ ~ In g rem.
Proof.
  intros Hf. rewrite <- (on_group_gids tid f gs Hf). rewrite !in_map_iff. split.
  - intros (G & <- & HG). apply filter_In in HG. destruct HG as [HG Hrem].
    split; [eauto|]. intros Hin; apply includes_In in Hin.
    rewrite Hin in Hrem; discriminate.
  - intros [(G & <- & HG) Hrem]. exists G; split; [reflexivity|].
    apply filter_In; split; [exact HG|].
    apply negb_true_iff, not_true_is_false. intros E; apply includes_In in E.
    contradiction.
Qed.

Lemma groups_left_lookup (gs : list GroupData) (rem : list string) (tid : string)
    (f : GroupData -> GroupData) (g : string) :
  (forall G, gid (f G) = gid G) ->
  (forall G, gnode (f G) = gnode G) ->
  ~ In g rem ->
  option_map gnode
    (findGroup (filter (fun G => negb (includes rem (gid G))) (on_group tid f gs)) g) =
  option_map gnode (findGroup gs g).
Proof.
  intros Hf Hn Hrem. unfold findGroup at 1.
  rewrite find_filter_implied.
  - fold (findGroup (on_group tid f gs) g). rewrite findGroup_on_group by exact Hf.
    destruct (findGroup gs g) as [G|]; simpl; [|reflexivity].
    destruct (String.eqb (gid G) tid); [rewrite Hn|]; reflexivity.
  - intros G E. apply String.eqb_eq in E. subst g.
    apply negb_true_iff, not_true_is_false. intros E; apply includes_In in E.
    contradiction.
Qed.

Lemma selectedGroups_first (st : State) (T : GroupData) :
  In T (selectedGroups st) -> findGroup (groups st) (gid T) = Some T.
Proof.
  unfold selectedGroups; intros H. apply in_flat_map in H.
  destruct H as (i & _ & Hi).
  destruct (findGroup (groups st) i) as [G|] eqn:E; [|contradiction].
  destruct Hi as [<-|[]]. rewrite (findGroup_gid _ _ _ E). exact E.
Qed.

(** What [addShapesToGroup] makes of each shape of a well-formed state. *)
Lemma addShapesToGroup_shape (st : State) (T : GroupData) :
  wellFormed st ->
  findGroup (groups st) (gid T) = Some T ->
  let refs := positions (fun shape => isSelectedShape st shape && notMemberOf T shape)
                        (shapes st) in
  let st' := addShapesToGroup T refs st in
  map id (shapes st') = map id (shapes st) /\
  (forall g, In g (map gid (groups st')) -> In g (map gid (groups st))) /\
  NoDup (map gid (groups st')) /\
  (forall G', In G' (groups st') ->
              exists G, In G (groups st) /\ gid G' = gid G /\ gnode G' = gnode G) /\
  forall j s,
    nth_error (shapes st) j = Some s ->
    exists s',
      nth_error (shapes st') j = Some s' /\
      frame s' = frame s /\
      (Forall unscaled (groups st) ->
       placement (groups st') s' = placement (groups st) s) /\
      match groupId s' with
      | None => group s' = Layer
      | Some g => group s' = GroupNode g /\ In g (map gid (groups st'))
      end.
Proof.
  intros Hwf HT refs st'.
  pose proof (wf_shape_ids st Hwf) as Hnd.
  assert (Hrefs : forall i, In i refs ->
            exists s, nth_error (shapes st) i = Some s /\ notMemberOf T s = true).
  { intros i Hi. apply positions_spec in Hi. destruct Hi as (s & Hs & Hp).
    exists s; split; [exact Hs|]. apply andb_true_iff in Hp; tauto. }
  destruct (addLoop_inv (groups st) T (shapes st) Hnd refs []
              {| slots := spread (shapes st); removed := [] |}
              (positions_NoDup _ _) (fun _ _ => eq_refl) Hrefs
              (spread_inv (groups st) T (shapes st)))
    as (done & Hinv & _).
  pose proof (addLoop_keeps (groups st) T (shapes st) Hnd HT refs []
                {| slots := spread (shapes st); removed := [] |}
                (positions_NoDup _ _) (fun _ _ => eq_refl) Hrefs
                (spread_inv (groups st) T (shapes st))
                (spread_keeps (groups st) (shapes st) (wf_attached st Hwf)))
    as HK.
  set (hN := fold_left (addOne (groups st) T) refs
               {| slots := spread (shapes st); removed := [] |}) in *.
  set (f := fun g0 => updateGroupBoundingBox g0
                (filter (fun shape => is_id (groupId shape) (gid T))
                        (map updated (slots hN)))).
  assert (Hfg : forall G, gid (f G) = gid G) by reflexivity.
  assert (Hfn : forall G, gnode (f G) = gnode G) by reflexivity.
  assert (Egroups : groups st' =
            filter (fun g => negb (includes (removed hN) (gid g)))
                   (on_group (gid T) f (groups st))) by reflexivity.
  assert (Eshapes : shapes st' = map updated (slots hN)) by reflexivity.
  destruct Hinv as [Hids _ _ _].
  split; [rewrite Eshapes, map_map, <- Hids; apply map_ext; reflexivity|].
  split; [intros g Hg; rewrite Egroups in Hg;
          apply (groups_left_ids _ _ _ f g Hfg) in Hg; tauto|].
  split.
  { rewrite Egroups. apply NoDup_map_filter.
    rewrite (on_group_gids _ f _ Hfg). apply (wf_group_ids st Hwf). }
  split.
  { intros G' HG'. rewrite Egroups in HG'. apply filter_In in HG'.
    destruct HG' as [HG' _]. apply on_group_In in HG'.
    destruct HG' as [HG'|(G & HG & _ & ->)]; [exists G'; auto|exists G; auto]. }
  intros j s Hs.
  assert (Hc : exists c, nth_error (slots hN) j = Some c).
  { destruct (nth_error (slots hN) j) as [c|] eqn:E; [eauto|].
    apply nth_error_None in E. rewrite (map_ids_length _ _ Hids) in E.
    apply nth_error_None in E; congruence. }
  destruct Hc as (c & Hc).
  rewrite Eshapes, nth_error_map, Hc; simpl. eexists; split; [reflexivity|].
  destruct (HK j s c Hs Hc) as (Hf & Hp & Ha).
  assert (Hatt : match updated_groupId c with
                 | None => group (obj c) = Layer
                 | Some g => group (obj c) = GroupNode g /\
                             In g (map gid (groups st'))
                 end).
  { destruct (updated_groupId c) as [g|]; [|exact Ha].
    destruct Ha as (Hg & Hlive & Hrem). split; [exact Hg|].
    rewrite Egroups. apply (groups_left_ids _ _ _ f g Hfg). tauto. }
  split; [exact Hf|]. split; [|exact Hatt].
  intros Hun.
  transitivity (placement (groups st') (obj c)); [reflexivity|].
  rewrite <- (Hp Hun). apply placement_lookup. intros g Hg.
  rewrite Egroups. apply groups_left_lookup; try assumption.
  destruct (updated_groupId c) as [g'|].
  - destruct Ha as (Hg' & _ & Hrem). rewrite Hg' in Hg. injection Hg as <-. exact Hrem.
  - rewrite Ha in Hg; discriminate.
Qed.

(** ** Making a new group in a well-formed state *)

Lemma isUngroupedSelected_layer (st : State) (s : ShapeData) :
  wellFormed st -> In s (shapes st) -> isUngroupedSelected st s = true ->
  groupId s = None /\ group s = Layer.
Proof.
  intros Hwf Hs E. unfold isUngroupedSelected in E.
  apply andb_true_iff in E. destruct E as [_ E].
  rewrite (wf_truthy st s Hwf Hs) in E.
  pose proof (wf_attached st Hwf s Hs) as Ha.
  destruct (groupId s); [discriminate|]. split; [reflexivity|exact Ha].
Qed.

Lemma createNewGroup_scene (now : Z) (st : State) :
  wellFormed st ->
  ~ In (mkGroupId now) (map gid (groups st)) ->
  (2 <= List.length (filter (isUngroupedSelected st) (shapes st)))%nat ->
  let st' := fst (createNewGroup now st) in
  wellFormed st' /\
  map id (shapes st') = map id (shapes st) /\
  (forall G', In G' (groups st') ->
              In G' (groups st) \/ (gid G' = mkGroupId now /\ unscaled G')) /\
  selectedIds st' = [mkGroupId now] /\
  keepsScene st st'.
Proof.
  intros Hwf Hfresh Htwo.
  destruct (createNewGroup_result now st (wf_shape_ids st Hwf) Htwo) as (bg & E).
  cbv zeta in E. rewrite E. cbv zeta. cbn [fst].
  set (avgX := average (fun shape => px (position (node shape)))
                       (filter (isUngroupedSelected st) (shapes st))) in *.
  set (avgY := average (fun shape => py (position (node shape)))
                       (filter (isUngroupedSelected st) (shapes st))) in *.
  set (G := {| gid := mkGroupId now;
               gnode := {| g_position := {| px := avgX; py := avgY |};
                           g_rotation := 0; g_scaleX := 1; g_scaleY := 1;
                           g_draggable := true |};
               backgroundNode := bg |}).
  set (change := fun s => if isUngroupedSelected st s
                          then grouped (groups st) (mkGroupId now) avgX avgY s
                          else s).
  assert (Hids : map id (map change (shapes st)) = map id (shapes st)).
  { rewrite map_map. apply map_ext. intros s. unfold change.
    destruct (isUngroupedSelected st s); reflexivity. }
  split; [|split; [exact Hids|split; [|split; [reflexivity|]]]].
  - constructor; cbn [shapes groups].
    + rewrite Hids. apply (wf_shape_ids st Hwf).
    + rewrite map_app. apply NoDup_snoc; [apply (wf_group_ids st Hwf)|exact Hfresh].
    + intros s' Hs'. apply in_map_iff in Hs'. destruct Hs' as (s & <- & Hs).
      destruct (wf_shape_names st Hwf s Hs) as (t & Ht). exists t.
      unfold change. destruct (isUngroupedSelected st s); exact Ht.
    + intros G' HG'. apply in_app_or in HG'. destruct HG' as [HG'|[<-|[]]].
      * apply (wf_group_names st Hwf G' HG').
      * exists now; reflexivity.
    + intros s' Hs'. apply in_map_iff in Hs'. destruct Hs' as (s & <- & Hs).
      unfold change. destruct (isUngroupedSelected st s).
      * cbn [grouped groupId group with_groupId groupChange with_node moveTo].
        split; [reflexivity|]. rewrite map_app. apply in_or_app; right.
        left; reflexivity.
      * pose proof (wf_attached st Hwf s Hs) as Ha.
        destruct (groupId s) as [g|]; [|exact Ha].
        destruct Ha as [Hg Hin]. split; [exact Hg|].
        rewrite map_app. apply in_or_app; left; exact Hin.
  - cbn [groups]. intros G' HG'. apply in_app_or in HG'.
    destruct HG' as [HG'|[<-|[]]]; [left; exact HG'|right; repeat split].
  - intros j s Hs. cbn [shapes groups]. rewrite nth_error_map, Hs. cbn [option_map].
    eexists; split; [reflexivity|].
    pose proof (nth_error_In _ _ Hs) as Hin.
    unfold change. destruct (isUngroupedSelected st s) eqn:Eu.
    + split; [reflexivity|].
      destruct (isUngroupedSelected_layer st s Hwf Hin Eu) as [_ HL].
      unfold placement. apply f_equal2.
      * exact (grouped_keeps_place (groups st) G s Hfresh eq_refl (conj eq_refl eq_refl)).
      * exact (grouped_keeps_turn (groups st) G s avgX avgY Hfresh eq_refl
                 (conj eq_refl eq_refl) HL).
    + split; [reflexivity|].
      apply placement_lookup. intros g Hg.
      pose proof (wf_attached st Hwf s Hin) as Ha.
      destruct (groupId s) as [g'|].
      * destruct Ha as [Hg' Hlive]. rewrite Hg' in Hg. injection Hg as <-.
        destruct (findGroup_live _ _ Hlive) as (G0 & HG0).
        rewrite (findGroup_app_old _ [G] _ _ HG0), HG0. reflexivity.
      * rewrite Ha in Hg; discriminate.
Qed.

(** ** The outcomes of [createGroup] *)

Lemma addToExisting_cases (T : GroupData) (st : State) :
  (exists msg, addToExisting T st = (st, Some msg)) \/
  addToExisting T st =
  (setSelectedIds [gid T]
     (addShapesToGroup T
        (positions (fun shape => isSelectedShape st shape && notMemberOf T shape)
                   (shapes st)) st), None).
Proof.
  unfold addToExisting.
  destruct (List.length _ =? 0)%nat; [left; eexists; reflexivity|right; reflexivity].
Qed.

Lemma createNewGroup_cases (now : Z) (st : State) :
  (exists msg, createNewGroup now st = (st, Some msg)) \/
  (2 <= List.length (filter (isUngroupedSelected st) (shapes st)))%nat.
Proof.
  unfold createNewGroup.
  destruct (List.length (filter (isUngroupedSelected st) (shapes st)) <? 2)%nat eqn:E;
    [left; eexists; reflexivity|right; apply Nat.ltb_ge, E].
Qed.

Lemma createGroup_cases (now : Z) (st : State) :
  (exists msg, createGroup now st = (st, Some msg)) \/
  (exists T,
     findGroup (groups st) (gid T) = Some T /\
     createGroup now st =
     (setSelectedIds [gid T]
        (addShapesToGroup T
           (positions (fun shape => isSelectedShape st shape && notMemberOf T shape)
                      (shapes st)) st), None)) \/
  ((2 <= List.length (filter (isUngroupedSelected st) (shapes st)))%nat /\
   createGroup now st = createNewGroup now st).
Proof.
  unfold createGroup.
  destruct (List.length (selectedIds st) <? 2)%nat; [left; eexists; reflexivity|].
  assert (Hnew : (exists msg, createNewGroup now st = (st, Some msg)) \/
                 (exists T,
                    findGroup (groups st) (gid T) = Some T /\
                    createNewGroup now st =
                    (setSelectedIds [gid T]
                       (addShapesToGroup T
                          (positions (fun shape => isSelectedShape st shape
                                                   && notMemberOf T shape)
                                     (shapes st)) st), None)) \/
                 ((2 <= List.length (filter (isUngroupedSelected st) (shapes st)))%nat /\
                  createNewGroup now st = createNewGroup now st)).
  { destruct (createNewGroup_cases now st) as [H|H]; [left; exact H|].
    right; right; split; [exact H|reflexivity]. }
  destruct (selectedGroups st) as [|T [|T' gs]] eqn:Esel; try exact Hnew.
  assert (HT : findGroup (groups st) (gid T) = Some T).
  { apply selectedGroups_first. rewrite Esel; left; reflexivity. }
  assert (Hadd : (exists msg, addToExisting T st = (st, Some msg)) \/
                 (exists T0,
                    findGroup (groups st) (gid T0) = Some T0 /\
                    addToExisting T st =
                    (setSelectedIds [gid T0]
                       (addShapesToGroup T0
                          (positions (fun shape => isSelectedShape st shape
                                                   && notMemberOf T0 shape)
                                     (shapes st)) st), None)) \/
                 ((2 <= List.length (filter (isUngroupedSelected st) (shapes st)))%nat /\
                  addToExisting T st = createNewGroup now st)).
  { destruct (addToExisting_cases T st) as [H|H]; [left; exact H|].
    right; left; exists T; split; [exact HT|exact H]. }
  destruct (existsb _ _); [exact Hadd|].
  destruct (0 <? _)%nat; [exact Hadd|exact Hnew].
Qed.

(** ** What each operation keeps *)

Lemma keepsScene_refl (st st' : State) :
  shapes st' = shapes st -> groups st' = groups st -> keepsScene st st'.
Proof.
  intros Es Eg j s Hs. exists s. rewrite Es, Eg. repeat split; assumption.
Qed.

Lemma keepsScene_trans (a b c : State) :
  keepsScene a b -> keepsScene b c -> keepsScene a c.
Proof.
  intros Hab Hbc j s Hs.
  destruct (Hab j s Hs) as (s1 & H1 & Hf1 & Hp1).
  destruct (Hbc j s1 H1) as (s2 & H2 & Hf2 & Hp2).
  exists s2. split; [exact H2|]. split; congruence.
Qed.

Lemma same_ids_In (l l' : list ShapeData) (s' : ShapeData) :
  map id l' = map id l -> In s' l' -> exists s, In s l /\ id s = id s'.
Proof.
  intros E Hin. apply (in_map id) in Hin. rewrite E in Hin.
  apply in_map_iff in Hin. destruct Hin as (s & Hs & Hin). eauto.
Qed.

Lemma createGroup_scene (now : Z) (st : State) :
  wellFormed st ->
  ~ In (mkGroupId now) (map gid (groups st)) ->
  let st' := fst (createGroup now st) in
  wellFormed st' /\
  map id (shapes st') = map id (shapes st) /\
  (forall G', In G' (groups st') ->
              (exists G, In G (groups st) /\ gid G' = gid G /\ gnode G' = gnode G) \/
              (gid G' = mkGroupId now /\ unscaled G')) /\
  (NoDup (selectedIds st) -> NoDup (selectedIds st')) /\
  (Forall unscaled (groups st) -> keepsScene st st').
Proof.
  intros Hwf Hfresh.
  destruct (createGroup_cases now st) as [(msg & E)|[(T & HT & E)|(Htwo & E)]];
    rewrite E; cbv zeta; cbn [fst].
  - split; [exact Hwf|]. split; [reflexivity|]. split; [eauto|].
    split; [tauto|]. intros _. apply keepsScene_refl; reflexivity.
  - destruct (addShapesToGroup_shape st T Hwf HT) as (Hids & Hsub & Hnd & Hgs & Hsh).
    cbv zeta in *.
    set (st1 := addShapesToGroup T _ st) in *.
    assert (Hwf1 : wellFormed st1).
    { constructor.
      - rewrite Hids. apply (wf_shape_ids st Hwf).
      - exact Hnd.
      - intros s' Hs'. destruct (same_ids_In _ _ s' Hids Hs') as (s & Hs & Eid).
        rewrite <- Eid. apply (wf_shape_names st Hwf s Hs).
      - intros G' HG'. destruct (Hgs G' HG') as (G & HG & -> & _).
        apply (wf_group_names st Hwf G HG).
      - intros s' Hs'. apply In_nth_error in Hs'. destruct Hs' as (j & Hj).
        assert (Hs : exists s, nth_error (shapes st) j = Some s).
        { destruct (nth_error (shapes st) j) as [s|] eqn:Es; [eauto|].
          apply nth_error_None in Es.
          assert (Hlen : List.length (shapes st1) = List.length (shapes st))
            by (rewrite <- (length_map id (shapes st1)), Hids; apply length_map).
          assert (Hlt : (j < List.length (shapes st1))%nat)
            by (apply nth_error_Some; congruence).
          lia. }
        destruct Hs as (s & Hs). destruct (Hsh j s Hs) as (s'' & Hj' & _ & _ & Ha).
        rewrite Hj in Hj'. injection Hj' as <-. exact Ha. }
    split; [apply setSelectedIds_wf, Hwf1|]. split; [exact Hids|].
    split; [intros G' HG'; left; apply Hgs, HG'|].
    split; [intros _; constructor; [simpl; tauto|constructor]|].
    intros Hun j s Hs. destruct (Hsh j s Hs) as (s' & Hj & Hf & Hp & _).
    exists s'. split; [exact Hj|]. split; [exact Hf|exact (Hp Hun)].
  - destruct (createNewGroup_scene now st Hwf Hfresh Htwo) as (H1 & H2 & H3 & H4 & H5).
    cbv zeta in *. split; [exact H1|]. split; [exact H2|].
    split; [intros G' HG'; destruct (H3 G' HG'); [left; eauto|right; assumption]|].
    split; [intros _; rewrite H4; constructor; [simpl; tauto|constructor]|].
    intros _. exact H5.
Qed.

Lemma ungroup_scene (st : State) :
  wellFormed st ->
  let st' := fst (ungroup st) in
  wellFormed st' /\
  map id (shapes st') = map id (shapes st) /\
  (forall G', In G' (groups st') -> In G' (groups st)) /\
  (NoDup (selectedIds st) -> NoDup (selectedIds st')) /\
  (Forall unscaled (groups st) -> keepsScene st st').
Proof.
  intros Hwf.
  destruct (ungroup_cases st) as [(msg & E)|(g & G & Hsel & HG)]; cbv zeta.
  - rewrite E; cbn [fst]. split; [exact Hwf|]. split; [reflexivity|].
    split; [tauto|]. split; [tauto|]. intros _. apply keepsScene_refl; reflexivity.
  - rewrite (ungroup_result st g G (wf_shape_ids st Hwf) Hsel HG). cbn [fst].
    split; [apply (ungroup_wf st g G Hwf HG)|].
    split.
    { cbn [shapes]. rewrite map_map. apply map_ext_in. intros s Hs.
      destruct (ungroup_shape st g G s Hwf HG Hs) as (Hf & _).
      unfold frame in Hf. congruence. }
    split.
    { cbn [groups]. intros G' HG'. apply filter_In in HG'. tauto. }
    split.
    { intros _. cbn [selectedIds]. apply NoDup_map_filter_ids, (wf_shape_ids st Hwf). }
    intros Hun j s Hs. cbn [shapes groups]. rewrite nth_error_map, Hs.
    cbn [option_map]. eexists; split; [reflexivity|].
    destruct (ungroup_shape st g G s Hwf HG (nth_error_In _ _ Hs)) as (Hf & Hp & _).
    split; [exact Hf|]. apply Hp.
    rewrite Forall_forall in Hun. apply Hun.
    unfold findGroup in HG. apply (find_some _ _ HG).
Qed.

Lemma appended_scene (st : State) (s0 : ShapeData) :
  wellFormed st ->
  ~ In (id s0) (map id (shapes st)) ->
  (exists t, id s0 = rectId t \/ id s0 = circleId t) ->
  groupId s0 = None -> group s0 = Layer ->
  let st' := {| shapes := shapes st ++ [s0]; groups := groups st;
                selectedIds := selectedIds st; hoveredId := hoveredId st |} in
  wellFormed st' /\ keepsScene st st'.
Proof.
  intros Hwf Hfresh Hname Hg HL. cbv zeta. split.
  - constructor; cbn [shapes groups].
    + rewrite map_app. apply NoDup_snoc; [apply (wf_shape_ids st Hwf)|exact Hfresh].
    + apply (wf_group_ids st Hwf).
    + intros s Hs. apply in_app_or in Hs. destruct Hs as [Hs|[<-|[]]];
        [apply (wf_shape_names st Hwf s Hs)|exact Hname].
    + apply (wf_group_names st Hwf).
    + intros s Hs. apply in_app_or in Hs. destruct Hs as [Hs|[<-|[]]];
        [apply (wf_attached st Hwf s Hs)|rewrite Hg; exact HL].
  - intros j s Hs. exists s. cbn [shapes groups].
    split; [|split; reflexivity].
    rewrite nth_error_app1; [exact Hs|]. apply nth_error_Some; congruence.
Qed.

Lemma toggle_NoDup (i : string) (prev : list string) :
  NoDup prev -> NoDup (toggle i prev).
Proof.
  intros Hnd. unfold toggle. destruct (includes prev i) eqn:E.
  - apply NoDup_filter, Hnd.
  - apply NoDup_snoc; [exact Hnd|]. intros Hin. apply includes_In in Hin. congruence.
Qed.

Lemma handleShapeClick_NoDup (captured : list ShapeData) (i : string)
    (isShiftKey : bool) (prev : list string) :
  NoDup prev -> NoDup (handleShapeClick captured i isShiftKey prev).
Proof.
  intros Hnd.
  assert (H1 : forall j : string, NoDup [j]).
  { intros j. constructor; [simpl; tauto|constructor]. }
  unfold handleShapeClick.
  destruct (find _ captured) as [[? ? ? ? [g|]]|];
    repeat match goal with
           | |- NoDup (if ?b then _ else _) => destruct b
           end; auto using toggle_NoDup.
Qed.

Lemma madeBefore_mono (b b' : Z) (st : State) :
  (b <= b')%Z -> madeBefore b st -> madeBefore b' st.
Proof.
  intros Hle [Hs Hg]. split.
  - intros s Hin. destruct (Hs s Hin) as (t & Ht & E). exists t. split; [lia|exact E].
  - intros G Hin. destruct (Hg G Hin) as (t & Ht & E). exists t. split; [lia|exact E].
Qed.

Lemma madeBefore_fresh (b t : Z) (st : State) :
  madeBefore b st -> (b <= t)%Z ->
  ~ In (rectId t) (map id (shapes st)) /\
  ~ In (circleId t) (map id (shapes st)) /\
  ~ In (mkGroupId t) (map gid (groups st)).
Proof.
  intros [Hs Hg] Hle. repeat split; intros Hin; apply in_map_iff in Hin.
  - destruct Hin as (s & E & Hin). destruct (Hs s Hin) as (t' & Ht' & Hid).
    rewrite E in Hid. destruct (made_ids t t') as (R1 & _ & _ & R2 & _).
    destruct Hid as [Hid|Hid]; [apply R1 in Hid; lia|exact (R2 Hid)].
  - destruct Hin as (s & E & Hin). destruct (Hs s Hin) as (t' & Ht' & Hid).
    rewrite E in Hid. destruct (made_ids t t') as (_ & R1 & _).
    destruct (made_ids t' t) as (_ & _ & _ & R2 & _).
    destruct Hid as [Hid|Hid]; [exact (R2 (eq_sym Hid))|apply R1 in Hid; lia].
  - destruct Hin as (G & E & Hin). destruct (Hg G Hin) as (t' & Ht' & Hid).
    rewrite E in Hid. destruct (made_ids t t') as (_ & _ & R1 & _).
    apply R1 in Hid; lia.
Qed.

Lemma perform_sound (last : Z) (st : State) (a : Action) :
  sound last st ->
  match clockOf a with Some t => (last < t)%Z | None => True end ->
  sound (match clockOf a with Some t => t | None => last end) (perform st a) /\
  (isClearAll a = false -> keepsScene st (perform st a)).
Proof.
  intros (Hwf & Hmade & Hsel & Hun) Hclock.
  destruct a as [now x y color|now x y color|captured i shift| |i| |now| |];
    cbn [clockOf perform isClearAll] in *.
  - destruct (madeBefore_fresh _ now st Hmade ltac:(lia)) as (Hr & _ & _).
    destruct (appended_scene st
                {| id := rectId now;
                   node := {| position := {| px := x; py := y |}; rotation := 0;
                              draggable := true; width := 100; height := 50;
                              radius := 0; fill := color |};
                   group := Layer; type := rectangle; groupId := None |}
                Hwf Hr (ex_intro _ now (or_introl eq_refl)) eq_refl eq_refl)
      as [Hwf' Hk].
    split; [|intros _; exact Hk].
    split; [exact Hwf'|]. split; [|split; [exact Hsel|exact Hun]].
    destruct Hmade as [Hs Hg]. split.
    + intros s Hin. cbn [addRectangle shapes] in Hin. apply in_app_or in Hin.
      destruct Hin as [Hin|[<-|[]]].
      * destruct (Hs s Hin) as (t & Ht & E). exists t; split; [lia|exact E].
      * exists now; split; [lia|left; reflexivity].
    + intros G Hin. destruct (Hg G Hin) as (t & Ht & E). exists t; split; [lia|exact E].
  - destruct (madeBefore_fresh _ now st Hmade ltac:(lia)) as (_ & Hc & _).
    destruct (appended_scene st
                {| id := circleId now;
                   node := {| position := {| px := x; py := y |}; rotation := 0;
                              draggable := true; width := 0; height := 0;
                              radius := 50; fill := color |};
                   group := Layer; type := circle; groupId := None |}
                Hwf Hc (ex_intro _ now (or_intror eq_refl)) eq_refl eq_refl)
      as [Hwf' Hk].
    split; [|intros _; exact Hk].
    split; [exact Hwf'|]. split; [|split; [exact Hsel|exact Hun]].
    destruct Hmade as [Hs Hg]. split.
    + intros s Hin. cbn [addCircle shapes] in Hin. apply in_app_or in Hin.
      destruct Hin as [Hin|[<-|[]]].
      * destruct (Hs s Hin) as (t & Ht & E). exists t; split; [lia|exact E].
      * exists now; split; [lia|right; reflexivity].
    + intros G Hin. destruct (Hg G Hin) as (t & Ht & E). exists t; split; [lia|exact E].
  - split; [|intros _; apply keepsScene_refl; reflexivity].
    split; [apply setSelectedIds_wf, Hwf|]. split; [exact Hmade|].
    split; [apply handleShapeClick_NoDup, Hsel|exact Hun].
  - split; [|intros _; apply keepsScene_refl; reflexivity].
    split; [apply setSelectedIds_wf, Hwf|]. split; [exact Hmade|].
    split; [constructor|exact Hun].
  - split; [|intros _; apply keepsScene_refl; reflexivity].
    split; [destruct Hwf; constructor; assumption|]. split; [exact Hmade|].
    split; [exact Hsel|exact Hun].
  - split; [|intros _; apply keepsScene_refl; reflexivity].
    split; [destruct Hwf; constructor; assumption|]. split; [exact Hmade|].
    split; [exact Hsel|exact Hun].
  - destruct (madeBefore_fresh _ now st Hmade ltac:(lia)) as (_ & _ & Hfresh).
    destruct (createGroup_scene now st Hwf Hfresh) as (H1 & H2 & H3 & H4 & H5).
    cbv zeta in *. split; [|intros _; exact (H5 Hun)].
    split; [exact H1|]. split; [|split; [exact (H4 Hsel)|]].
    + destruct Hmade as [Hs Hg]. split.
      * intros s' Hin. destruct (same_ids_In _ _ s' H2 Hin) as (s & Hs' & Eid).
        destruct (Hs s Hs') as (t & Ht & E). exists t. rewrite <- Eid.
        split; [lia|exact E].
      * intros G' Hin. destruct (H3 G' Hin) as [(G & HG & E & _)|[E _]].
        -- destruct (Hg G HG) as (t & Ht & E'). exists t. rewrite E.
           split; [lia|exact E'].
        -- exists now; split; [lia|exact E].
    + apply Forall_forall. intros G' Hin.
      destruct (H3 G' Hin) as [(G & HG & _ & E)|[_ E]]; [|exact E].
      rewrite Forall_forall in Hun. unfold unscaled. rewrite E. apply (Hun G HG).
  - destruct (ungroup_scene st Hwf) as (H1 & H2 & H3 & H4 & H5).
    cbv zeta in *. split; [|intros _; exact (H5 Hun)].
    split; [exact H1|]. split; [|split; [exact (H4 Hsel)|]].
    + destruct Hmade as [Hs Hg]. split.
      * intros s' Hin. destruct (same_ids_In _ _ s' H2 Hin) as (s & Hs' & Eid).
        destruct (Hs s Hs') as (t & Ht & E). exists t. rewrite <- Eid.
        split; [exact Ht|exact E].
      * intros G' Hin. apply (Hg G' (H3 G' Hin)).
    + apply Forall_forall. intros G' Hin.
      rewrite Forall_forall in Hun. apply (Hun G' (H3 G' Hin)).
  - split; [|discriminate].
    split; [|split; [split; intros ? []|split; constructor]].
    constructor; cbn; try constructor; intros ? [].
Qed.

Lemma run_sound (l : list Action) :
  forall (last : Z) (st : State),
    sound last st -> ticking last l ->
    sound (lastClock last l) (run l st) /\
    (forallb (fun a => negb (isClearAll a)) l = true -> keepsScene st (run l st)).
Proof.
  induction l as [|a l IH]; intros last st Hs Ht.
  - split; [exact Hs|intros _; apply keepsScene_refl; reflexivity].
  - cbn [run lastClock fold_left]. cbn [ticking] in Ht.
    assert (Hc : match clockOf a with Some t => (last < t)%Z | None => True end).
    { destruct (clockOf a); tauto. }
    destruct (perform_sound last st a Hs Hc) as [Hs' Hk].
    assert (Ht' : ticking (match clockOf a with Some t => t | None => last end) l).
    { destruct (clockOf a); tauto. }
    destruct (IH _ _ Hs' Ht') as [Hl Hkl].
    split; [exact Hl|].
    intros Hall. cbn [forallb] in Hall. apply andb_true_iff in Hall.
    destruct Hall as [Ha Hall]. apply negb_true_iff in Ha.
    eapply keepsScene_trans; [apply Hk, Ha|apply Hkl, Hall].
Qed.

Lemma ticking_app (l0 l : list Action) :
  forall last : Z,
    ticking last (l0 ++ l) -> ticking last l0 /\ ticking (lastClock last l0) l.
Proof.
  induction l0 as [|a l0 IH]; intros last Ht; [split; [exact I|exact Ht]|].
  change (ticking last (a :: (l0 ++ l))) in Ht.
  change (lastClock last (a :: l0))
    with (lastClock (match clockOf a with Some t => t | None => last end) l0).
  cbn [ticking] in *.
  destruct (clockOf a) as [t|].
  - destruct Ht as [Hlt Ht]. destruct (IH t Ht). tauto.
  - apply IH, Ht.
Qed.

Lemma run_app (l0 l : list Action) (st : State) :
  run (l0 ++ l) st = run l (run l0 st).
Proof. apply fold_left_app. Qed.

Lemma sound_initialState (last : Z) : sound last initialState.
Proof.
  split; [|split; [split; intros ? []|split; constructor]].
  constructor; cbn; try constructor; intros ? [].
Qed.

(** X4.  As long as no group has been resized, [createGroup] moves and
    turns nothing on the canvas: in a well-formed state in which the id of
    the new group is not in use and the node of every group is at scale 1,
    whichever way it goes (a message, shapes added to the selected group,
    with the groups they leave dissolved when they empty, or a new group),
    every shape is afterwards at its index with the id, type, size and fill
    it had, and has the absolute position and the absolute rotation it had,
    as Konva reads them off the absolute transform. *)
Theorem createGroup_keeps_every_shape_in_place :
  forall (now : Z) (st : State),
    wellFormed st ->
    ~ In (mkGroupId now) (map gid (groups st)) ->
    Forall unscaled (groups st) ->
    forall j s,
      nth_error (shapes st) j = Some s ->
      exists s',
        nth_error (shapes (fst (createGroup now st))) j = Some s' /\
        frame s' = frame s /\
        getAbsolutePosition (groups (fst (createGroup now st))) s' =
          getAbsolutePosition (groups st) s /\
        getAbsoluteRotation (groups (fst (createGroup now st))) s' =
          getAbsoluteRotation (groups st) s.
Proof.
  intros now st Hwf Hfresh Hun j s Hs.
  destruct (createGroup_scene now st Hwf Hfresh) as (_ & _ & _ & _ & Hk).
  destruct (Hk Hun j s Hs) as (s' & Hj & Hf & Hp).
  exists s'. split; [exact Hj|]. split; [exact Hf|].
  unfold placement in Hp.
  split; [exact (f_equal fst Hp)|exact (f_equal snd Hp)].
Qed.

Lemma createGroup_keeps_every_shape_in_place_witness :
  exists s',
    nth_error (shapes (fst (createGroup 9 twoLeaveAGroupOfThree))) 0 = Some s' /\
    getAbsolutePosition (groups (fst (createGroup 9 twoLeaveAGroupOfThree))) s' =
    getAbsolutePosition (groups twoLeaveAGroupOfThree)
      (nth 0 (shapes twoLeaveAGroupOfThree) (rectAt "" 0 0 Layer None)).
Proof.
  destruct (createGroup_keeps_every_shape_in_place 9 twoLeaveAGroupOfThree
              (setSelectedIds_wf _ _ wellFormed_twoGroupsAndAShape)
              ltac:(run_engine; intuition discriminate)
              ltac:(run_engine;
                    repeat (apply Forall_cons; [split; reflexivity|]);
                    apply Forall_nil)
              0%nat (nth 0 (shapes twoLeaveAGroupOfThree) (rectAt "" 0 0 Layer None))
              eq_refl)
    as (s' & H1 & _ & H3 & _).
  exists s'. split; [exact H1|exact H3].
Defined.

(** X5.  Every state a run reaches from the empty canvas is well formed,
    provided the clock advances from one creation to the next: the shape
    ids are pairwise different, the group ids are pairwise different, every
    shape with a [groupId] hangs in the node of a group that is in
    [groups], every shape without one hangs in the layer, and no id is
    selected twice. *)
Theorem every_run_is_well_formed :
  forall (l : list Action) (last : Z),
    ticking last l ->
    wellFormed (run l initialState) /\ NoDup (selectedIds (run l initialState)).
Proof.
  intros l last Ht.
  destruct (run_sound l last initialState (sound_initialState last) Ht)
    as [(Hwf & _ & Hsel & _) _].
  split; assumption.
Qed.

Lemma every_run_is_well_formed_witness :
  wellFormed
    (run [AddRectangle 1 10 20 "blue"; AddCircle 2 30 40 "red";
          Click [] (rectId 1) false; Click [] (circleId 2) true;
          CreateGroup 3; Ungroup] initialState).
Proof.
  apply (every_run_is_well_formed
           [AddRectangle 1 10 20 "blue"; AddCircle 2 30 40 "red";
            Click [] (rectId 1) false; Click [] (circleId 2) true;
            CreateGroup 3; Ungroup] 0).
  simpl. lia.
Defined.

(** X6.  No run moves a shape: whatever is added, clicked, hovered, grouped
    and ungrouped after a state reached from the empty canvas, in whatever
    order, as long as the canvas is not cleared and the clock advances from
    one creation to the next, every shape of that state is afterwards still
    at its index, with its id, type, size and fill, at the absolute
    position and absolute rotation it had. *)
Theorem no_run_moves_a_shape :
  forall (before after : list Action) (last : Z),
    ticking last (before ++ after) ->
    forallb (fun a => negb (isClearAll a)) after = true ->
    forall j s,
      nth_error (shapes (run before initialState)) j = Some s ->
      exists s',
        nth_error (shapes (run (before ++ after) initialState)) j = Some s' /\
        frame s' = frame s /\
        getAbsolutePosition (groups (run (before ++ after) initialState)) s' =
          getAbsolutePosition (groups (run before initialState)) s /\
        getAbsoluteRotation (groups (run (before ++ after) initialState)) s' =
          getAbsoluteRotation (groups (run before initialState)) s.
Proof.
  intros before after last Ht Hall j s Hs.
  destruct (ticking_app before after last Ht) as [Ht0 Ht1].
  destruct (run_sound before last initialState (sound_initialState last) Ht0)
    as [Hsound _].
  destruct (run_sound after _ _ Hsound Ht1) as [_ Hk].
  rewrite run_app.
  destruct (Hk Hall j s Hs) as (s' & Hj & Hf & Hp).
  exists s'. split; [exact Hj|]. split; [exact Hf|].
  unfold placement in Hp.
  split; [exact (f_equal fst Hp)|exact (f_equal snd Hp)].
Qed.

Lemma no_run_moves_a_shape_witness :
  exists s',
    nth_error
      (shapes (run ([AddRectangle 1 10 20 "blue"; AddCircle 2 30 40 "red";
                     Click [] (rectId 1) false; Click [] (circleId 2) true]
                    ++ [CreateGroup 3; Ungroup]) initialState)) 0 = Some s' /\
    id s' = rectId 1.
Proof.
  destruct (no_run_moves_a_shape
              [AddRectangle 1 10 20 "blue"; AddCircle 2 30 40 "red";
               Click [] (rectId 1) false; Click [] (circleId 2) true]
              [CreateGroup 3; Ungroup] 0
              ltac:(simpl; lia) eq_refl 0%nat
              {| id := rectId 1;
                 node := {| position := {| px := 10; py := 20 |}; rotation := 0;
                            draggable := true; width := 100; height := 50;
                            radius := 0; fill := "blue" |};
                 group := Layer; type := rectangle; groupId := None |}
              eq_refl)
    as (s' & H1 & H2 & _).
  exists s'. split; [exact H1|].
  exact (f_equal (fun x => fst (fst (fst (fst (fst x))))) H2).
Defined.

(** ** The background of a group *)

Lemma boundingBox_covers (points : list Point) (p : Point) :
  In p points ->
  minX (boundingBox points) <= px p <= maxX (boundingBox points) /\
  minY (boundingBox points) <= py p <= maxY (boundingBox points).
Proof.
  intros Hin. unfold boundingBox.
  destruct (fold_addPoint points noBounds) as (E1 & E2 & E3 & E4).
  rewrite E1, E2, E3, E4.
  destruct (fold_Rmin_spec (map px points) (minX noBounds)) as (_ & Hx & _).
  destruct (fold_Rmin_spec (map py points) (minY noBounds)) as (_ & Hy & _).
  destruct (fold_Rmax_spec (map px points) (maxX noBounds)) as (_ & HX & _).
  destruct (fold_Rmax_spec (map py points) (maxY noBounds)) as (_ & HY & _).
  pose proof (in_map px _ _ Hin) as Hpx. pose proof (in_map py _ _ Hin) as Hpy.
  repeat split; auto.
Qed.

Lemma within_abs (a c w lo hi : R) :
  lo <= c - w -> lo <= c + w -> c - w <= hi -> c + w <= hi ->
  Rabs (a - c) <= Rabs w -> lo <= a <= hi.
Proof.
  intros H1 H2 H3 H4 Ha. unfold Rabs in Ha.
  destruct (Rcase_abs (a - c)), (Rcase_abs w); lra.
Qed.

Lemma square_le_abs (a b : R) : a * a <= b * b -> Rabs a <= Rabs b.
Proof. intros H. apply Rsqr_le_abs_0. exact H. Qed.

Lemma padded_in_bounds (points : list Point) (shape : ShapeData) (q : Point) :
  (forall p, In p (paddedOutline shape) -> In p points) ->
  inPadded shape q ->
  minX (boundingBox points) <= px q <= maxX (boundingBox points) /\
  minY (boundingBox points) <= py q <= maxY (boundingBox points).
Proof.
  intros Hsub Hq. unfold inPadded, paddedOutline in *. cbv zeta in *.
  destruct (type shape).
  - destruct Hq as [Hx Hy].
    destruct (boundingBox_covers points _ (Hsub _ (or_introl eq_refl))) as [A1 A2].
    destruct (boundingBox_covers points _
                (Hsub _ (or_intror (or_intror (or_intror (or_introl eq_refl))))))
      as [B1 B2].
    cbn [px py] in A1, A2, B1, B2.
    split.
    + apply (within_abs _ (px (position (node shape)))
                        (width (node shape) / 2 + 10)); try lra; exact Hx.
    + apply (within_abs _ (py (position (node shape)))
                        (height (node shape) / 2 + 10)); try lra; exact Hy.
  - destruct (boundingBox_covers points _ (Hsub _ (or_introl eq_refl))) as [A1 _].
    destruct (boundingBox_covers points _ (Hsub _ (or_intror (or_introl eq_refl))))
      as [B1 _].
    destruct (boundingBox_covers points _
                (Hsub _ (or_intror (or_intror (or_introl eq_refl))))) as [_ C2].
    destruct (boundingBox_covers points _
                (Hsub _ (or_intror (or_intror (or_intror (or_introl eq_refl))))))
      as [_ D2].
    cbn [px py] in A1, B1, C2, D2.
    set (dx := px q - px (position (node shape))) in *.
    set (dy := py q - py (position (node shape))) in *.
    set (r := radius (node shape) + 10) in *.
    assert (Hdx : Rabs dx <= Rabs r).
    { apply square_le_abs. pose proof (Rle_0_sqr dy) as H0. unfold Rsqr in H0. lra. }
    assert (Hdy : Rabs dy <= Rabs r).
    { apply square_le_abs. pose proof (Rle_0_sqr dx) as H0. unfold Rsqr in H0. lra. }
    split.
    + apply (within_abs _ (px (position (node shape))) r); try lra; exact Hdx.
    + apply (within_abs _ (py (position (node shape))) r); try lra; exact Hdy.
Qed.

Lemma background_covers (group : GroupData) (groupShapes : list ShapeData)
    (shape : ShapeData) (q : Point) :
  In shape groupShapes -> inPadded shape q ->
  covers (backgroundNode (updateGroupBoundingBox group groupShapes)) q.
Proof.
  intros Hin Hq.
  destruct (padded_in_bounds (flat_map paddedOutline groupShapes) shape q) as [Hx Hy].
  - intros p Hp. apply in_flat_map. exists shape. split; assumption.
  - exact Hq.
  - unfold covers, updateGroupBoundingBox, backgroundOf. cbn.
    split; lra.
Qed.

(** X7.  The background [updateGroupBoundingBox] gives a group covers every
    shape it is given, padding included: each point of the box that the four
    points of a rectangle span, and each point of the disc of radius
    [radius + 10] around a circle, lies on the background rectangle,
    wherever the shapes lie: the background can be larger than the bounding
    box of the shapes, never smaller. *)
Theorem background_covers_every_member :
  forall (group : GroupData) (groupShapes : list ShapeData)
         (shape : ShapeData) (q : Point),
    In shape groupShapes ->
    inPadded shape q ->
    covers (backgroundNode (updateGroupBoundingBox group groupShapes)) q.
Proof. exact background_covers. Qed.

Lemma background_covers_every_member_witness :
  covers (backgroundNode
            (updateGroupBoundingBox (groupAt "group-1" 0 0)
               [rectAt "rect-1" (-200) 0 Layer None; circleAt "circle-2" (-100) 0 50]))
         {| px := -140; py := 30 |}.
Proof.
  apply (background_covers_every_member (groupAt "group-1" 0 0)
           [rectAt "rect-1" (-200) 0 Layer None; circleAt "circle-2" (-100) 0 50]
           (circleAt "circle-2" (-100) 0 50)).
  - right; left; reflexivity.
  - unfold inPadded; cbn. lra.
Defined.

Lemma createGroup_add_path (now : Z) (st st' : State) (T : GroupData) :
  selectedGroups st = [T] ->
  createGroup now st = (st', None) ->
  st' = setSelectedIds [gid T]
          (addShapesToGroup T
             (positions (fun shape => isSelectedShape st shape && notMemberOf T shape)
                        (shapes st)) st).
Proof.
  intros Hsel. unfold createGroup.
  destruct (List.length (selectedIds st) <? 2)%nat; [discriminate|].
  rewrite Hsel.
  assert (Hadd : addToExisting T st = (st', None) ->
                 st' = setSelectedIds [gid T]
                         (addShapesToGroup T
                            (positions (fun shape => isSelectedShape st shape
                                                     && notMemberOf T shape)
                                       (shapes st)) st)).
  { unfold addToExisting. destruct (List.length _ =? 0)%nat; [discriminate|].
    intros [= <-]. reflexivity. }
  destruct (existsb _ _); [exact Hadd|].
  destruct (0 <? _)%nat eqn:E0; [exact Hadd|].
  apply Nat.ltb_ge in E0.
  unfold createNewGroup.
  replace (filter (isUngroupedSelected st) (shapes st)) with (@nil ShapeData);
    [simpl; discriminate|].
  symmetry. apply filter_nil. intros s Hs.
  destruct (isUngroupedSelected st s) eqn:Eu; [|reflexivity].
  exfalso.
  assert (Hin : In s (filter (isSelectedShape st) (shapes st))).
  { apply filter_In; split; [exact Hs|].
    unfold isUngroupedSelected in Eu. apply andb_true_iff in Eu.
    unfold isSelectedShape. destruct Eu as [-> _]. reflexivity. }
  destruct (filter (isSelectedShape st) (shapes st)); [contradiction|simpl in E0; lia].
Qed.

Lemma addShapesToGroup_target (st : State) (T : GroupData) :
  NoDup (map id (shapes st)) ->
  findGroup (groups st) (gid T) = Some T ->
  let st' := addShapesToGroup T
               (positions (fun shape => isSelectedShape st shape && notMemberOf T shape)
                          (shapes st)) st in
  findGroup (groups st') (gid T) =
    Some (updateGroupBoundingBox T (members (gid T) st')) /\
  forall G, In G (groups st') -> gid G <> gid T -> In G (groups st).
Proof.
  intros Hnd HT st'.
  set (refs := positions (fun shape => isSelectedShape st shape && notMemberOf T shape)
                         (shapes st)) in *.
  assert (Hrefs : forall i, In i refs ->
            exists s, nth_error (shapes st) i = Some s /\ notMemberOf T s = true).
  { intros i Hi. apply positions_spec in Hi. destruct Hi as (s & Hs & Hp).
    exists s; split; [exact Hs|]. apply andb_true_iff in Hp; tauto. }
  destruct (addLoop_inv (groups st) T (shapes st) Hnd refs []
              {| slots := spread (shapes st); removed := [] |}
              (positions_NoDup _ _) (fun _ _ => eq_refl) Hrefs
              (spread_inv (groups st) T (shapes st)))
    as (done & Hinv & _).
  set (hN := fold_left (addOne (groups st) T) refs
               {| slots := spread (shapes st); removed := [] |}) in *.
  set (f := fun g0 => updateGroupBoundingBox g0 (members (gid T) st')).
  assert (Hfg : forall G, gid (f G) = gid G) by reflexivity.
  assert (Egroups : groups st' =
            filter (fun g => negb (includes (removed hN) (gid g)))
                   (on_group (gid T) f (groups st))) by reflexivity.
  pose proof (inv_target _ _ _ _ _ Hinv) as Htarget.
  split.
  - rewrite Egroups. unfold findGroup at 1. rewrite find_filter_implied.
    + fold (findGroup (on_group (gid T) f (groups st)) (gid T)).
      rewrite (findGroup_on_group _ _ f _ Hfg), HT. simpl.
      rewrite String.eqb_refl. reflexivity.
    + intros G E. apply String.eqb_eq in E. rewrite E.
      apply negb_true_iff, not_true_is_false. intros E'. apply includes_In in E'.
      contradiction.
  - intros G HG Hne. rewrite Egroups in HG. apply filter_In in HG.
    destruct HG as [HG _]. apply on_group_In in HG.
    destruct HG as [HG|(G0 & _ & E0 & ->)]; [exact HG|].
    exfalso; apply Hne. rewrite Hfg. exact E0.
Qed.

(** X8.  When [createGroup] adds shapes to the one selected group [T], the
    group stays in [groups] with its node as it was, every other group that
    is left is untouched, and the background [T] gets covers every shape
    that names [T] afterwards, the members it had and the ones it gained,
    padding included. *)
Theorem added_to_group_background_covers_all_members :
  forall (now : Z) (st st' : State) (T : GroupData),
    NoDup (map id (shapes st)) ->
    selectedGroups st = [T] ->
    createGroup now st = (st', None) ->
    exists T',
      findGroup (groups st') (gid T) = Some T' /\
      gnode T' = gnode T /\
      (forall G, In G (groups st') -> gid G <> gid T -> In G (groups st)) /\
      forall shape q,
        In shape (members (gid T) st') ->
        inPadded shape q ->
        covers (backgroundNode T') q.
Proof.
  intros now st st' T Hnd Hsel Hcreate.
  assert (HT : findGroup (groups st) (gid T) = Some T).
  { apply selectedGroups_first. rewrite Hsel; left; reflexivity. }
  rewrite (createGroup_add_path now st st' T Hsel Hcreate).
  destruct (addShapesToGroup_target st T Hnd HT) as [Hfind Hothers].
  cbv zeta in Hfind, Hothers.
  eexists. split; [exact Hfind|]. split; [reflexivity|]. split; [exact Hothers|].
  intros shape q Hin Hq. apply (background_covers T _ shape q Hin Hq).
Qed.

Lemma added_to_group_background_covers_all_members_witness :
  exists T',
    findGroup (groups (fst (createGroup 10 membersLeftOfOrigin))) (mkGroupId 7)
      = Some T' /\
    forall shape q,
      In shape (members (mkGroupId 7) (fst (createGroup 10 membersLeftOfOrigin))) ->
      inPadded shape q ->
      covers (backgroundNode T') q.
Proof.
  destruct (added_to_group_background_covers_all_members 10 membersLeftOfOrigin
              (fst (createGroup 10 membersLeftOfOrigin))
              (nth 0 (selectedGroups membersLeftOfOrigin) (groupAt "" 0 0)))
    as (T' & H1 & _ & _ & H4).
  - run_engine. repeat constructor; simpl; intuition discriminate.
  - reflexivity.
  - reflexivity.
  - exists T'. split; [exact H1|exact H4].
Defined.

(** ** The background of a new group *)

Lemma objects_positions_from (F : ShapeData -> Slot) (p : ShapeData -> bool)
    (l : list ShapeData) :
  forall pre : list Slot,
    objects (pre ++ map F l) (positions_from p (List.length pre) l) =
    map (fun s => obj (F s)) (filter p l).
Proof.
  induction l as [|a l IH]; intros pre; [reflexivity|].
  assert (Hrest : objects (pre ++ map F (a :: l))
                          (positions_from p (S (List.length pre)) l) =
                  map (fun s => obj (F s)) (filter p l)).
  { specialize (IH (pre ++ [F a])).
    rewrite <- app_assoc, length_app, Nat.add_1_r in IH. exact IH. }
  cbn [positions_from filter]. destruct (p a); [|exact Hrest].
  unfold objects in *. cbn [flat_map]. rewrite Hrest.
  rewrite nth_error_app2 by lia. rewrite Nat.sub_diag. reflexivity.
Qed.

Lemma objects_positions (F : ShapeData -> Slot) (p : ShapeData -> bool)
    (l : list ShapeData) :
  objects (map F l) (positions p l) = map (fun s => obj (F s)) (filter p l).
Proof. exact (objects_positions_from F p l []). Qed.

Lemma fold_addShapeBounds (l : list ShapeData) :
  forall b : Bounds,
    minX (fold_left addShapeBounds l b) =
      fold_left Rmin (map (fun s => minX (paddedBox s)) l) (minX b) /\
    minY (fold_left addShapeBounds l b) =
      fold_left Rmin (map (fun s => minY (paddedBox s)) l) (minY b) /\
    maxX (fold_left addShapeBounds l b) =
      fold_left Rmax (map (fun s => maxX (paddedBox s)) l) (maxX b) /\
    maxY (fold_left addShapeBounds l b) =
      fold_left Rmax (map (fun s => maxY (paddedBox s)) l) (maxY b).
Proof.
  induction l as [|s l IH]; intros b; [repeat split|].
  cbn [fold_left map]. destruct (IH (addShapeBounds b s)) as (E1 & E2 & E3 & E4).
  rewrite E1, E2, E3, E4.
  unfold addShapeBounds, paddedBox. destruct (type s); repeat split.
Qed.

Lemma sum_above (f : ShapeData -> R) (c : R) (l : list ShapeData) :
  (forall s, In s l -> c < f s) ->
  INR (List.length l) * c <= fold_right Rplus 0 (map f l) /\
  (l <> [] -> INR (List.length l) * c < fold_right Rplus 0 (map f l)).
Proof.
  induction l as [|a l IH]; intros H.
  - simpl. split; [lra|congruence].
  - destruct IH as [IH _]; [intros s Hs; apply H; right; exact Hs|].
    pose proof (H a (or_introl eq_refl)) as Ha.
    change (List.length (a :: l)) with (S (List.length l)). rewrite S_INR.
    cbn [map fold_right]. split; [|intros _]; lra.
Qed.

Lemma sum_below (f : ShapeData -> R) (c : R) (l : list ShapeData) :
  (forall s, In s l -> f s < c) ->
  fold_right Rplus 0 (map f l) <= INR (List.length l) * c /\
  (l <> [] -> fold_right Rplus 0 (map f l) < INR (List.length l) * c).
Proof.
  induction l as [|a l IH]; intros H.
  - simpl. split; [lra|congruence].
  - destruct IH as [IH _]; [intros s Hs; apply H; right; exact Hs|].
    pose proof (H a (or_introl eq_refl)) as Ha.
    change (List.length (a :: l)) with (S (List.length l)). rewrite S_INR.
    cbn [map fold_right]. split; [|intros _]; lra.
Qed.

Lemma some_or_all (f : ShapeData -> R) (c : R) (l : list ShapeData) :
  ((exists s, In s l /\ f s <= c) \/ (forall s, In s l -> c < f s)) /\
  ((exists s, In s l /\ c <= f s) \/ (forall s, In s l -> f s < c)).
Proof.
  induction l as [|a l [IH1 IH2]]; [split; right; intros ? []|]. split.
  - destruct (Rle_lt_dec (f a) c) as [Ha|Ha]; [left; exists a; simpl; auto|].
    destruct IH1 as [(s & Hs & Hle)|Hall]; [left; exists s; simpl; auto|].
    right. intros s [<-|Hs]; auto.
  - destruct (Rle_lt_dec c (f a)) as [Ha|Ha]; [left; exists a; simpl; auto|].
    destruct IH2 as [(s & Hs & Hle)|Hall]; [left; exists s; simpl; auto|].
    right. intros s [<-|Hs]; auto.
Qed.

(** Some value is at most the mean and some value is at least the mean. *)
Lemma mean_between (f : ShapeData -> R) (l : list ShapeData) :
  l <> [] ->
  (exists s, In s l /\ f s <= average f l) /\
  (exists s, In s l /\ average f l <= f s).
Proof.
  intros Hne.
  assert (Hn : 0 < INR (List.length l)).
  { apply lt_0_INR. destruct l; [congruence|simpl; lia]. }
  assert (Hsum : INR (List.length l) * average f l = fold_right Rplus 0 (map f l)).
  { rewrite average_is_mean. field. lra. }
  destruct (some_or_all f (average f l) l) as [H1 H2]. split.
  - destruct H1 as [H1|H1]; [exact H1|].
    destruct (sum_above f _ l H1) as [_ Hlt]. specialize (Hlt Hne). lra.
  - destruct H2 as [H2|H2]; [exact H2|].
    destruct (sum_below f _ l H2) as [_ Hlt]. specialize (Hlt Hne). lra.
Qed.

Lemma MIN_VALUE_small : MIN_VALUE <= 1.
Proof.
  unfold MIN_VALUE. rewrite <- Rinv_1.
  apply Rinv_le_contravar; [lra|]. apply pow_R1_Rle; lra.
Qed.

(** The scan that starts at [Number.MAX_VALUE] ends at the least value once
    some value is below it; the scan that starts at [Number.MIN_VALUE] ends
    at the greatest value once some value is above it. *)
Lemma fold_Rmin_attained (xs : list R) (a x0 : R) :
  In x0 xs -> x0 < a ->
  (forall x, In x xs -> fold_left Rmin xs a <= x) /\ In (fold_left Rmin xs a) xs.
Proof.
  intros Hin Hlt. destruct (fold_Rmin_spec xs a) as (_ & Hall & Hat).
  split; [exact Hall|]. destruct Hat as [E|Hat]; [|exact Hat].
  specialize (Hall x0 Hin). lra.
Qed.

Lemma fold_Rmax_attained (xs : list R) (a x0 : R) :
  In x0 xs -> a < x0 ->
  (forall x, In x xs -> x <= fold_left Rmax xs a) /\ In (fold_left Rmax xs a) xs.
Proof.
  intros Hin Hlt. destruct (fold_Rmax_spec xs a) as (_ & Hall & Hat).
  split; [exact Hall|]. destruct Hat as [E|Hat]; [|exact Hat].
  specialize (Hall x0 Hin). lra.
Qed.

Lemma createNewGroup_background (now : Z) (st : State) :
  NoDup (map id (shapes st)) ->
  (2 <= List.length (filter (isUngroupedSelected st) (shapes st)))%nat ->
  let members := filter (isUngroupedSelected st) (shapes st) in
  let avgX := average (fun shape => px (position (node shape))) members in
  let avgY := average (fun shape => py (position (node shape))) members in
  createNewGroup now st =
  ({| shapes := map (fun s => if isUngroupedSelected st s
                              then grouped (groups st) (mkGroupId now) avgX avgY s
                              else s) (shapes st);
      groups := groups st ++
        [ {| gid := mkGroupId now;
             gnode := {| g_position := {| px := avgX; py := avgY |};
                         g_rotation := 0; g_scaleX := 1; g_scaleY := 1;
                           g_draggable := true |};
             backgroundNode :=
               backgroundOf
                 (fold_left addShapeBounds
                    (map (grouped (groups st) (mkGroupId now) avgX avgY) members)
                    noBounds) |} ];
      selectedIds := [mkGroupId now];
      hoveredId := hoveredId st |}, None).
Proof.
  intros Hnd Htwo members avgX avgY. unfold createNewGroup.
  replace (List.length (filter (isUngroupedSelected st) (shapes st)) <? 2)%nat
    with false by (symmetry; apply Nat.ltb_ge; exact Htwo).
  fold members; fold avgX; fold avgY.
  rewrite groupOne_roundOf.
  rewrite (forEach_positions (groupChange (groups st) (mkGroupId now) avgX avgY)
             (Some (mkGroupId now)) (fun _ _ => eq_refl) _ _ Hnd).
  rewrite objects_positions. fold members.
  f_equal. f_equal.
  - rewrite map_map. apply map_ext; intros s.
    destruct (isUngroupedSelected st s); [reflexivity|apply updated_spread].
  - f_equal. f_equal. f_equal. f_equal.
    assert (E : forall (l : list ShapeData) b,
              fold_left addShapeBounds
                (map (fun s => obj (if isUngroupedSelected st s
                                    then settled (groupChange (groups st) (mkGroupId now)
                                                    avgX avgY)
                                           (Some (mkGroupId now))
                                           {| obj := s; copied := None |}
                                    else {| obj := s; copied := None |})) 
                     (filter (isUngroupedSelected st) l)) b =
              fold_left addShapeBounds
                (map (grouped (groups st) (mkGroupId now) avgX avgY)
                     (filter (isUngroupedSelected st) l)) b).
    { induction l as [|a l IH]; intros b; [reflexivity|].
      cbn [filter]. destruct (isUngroupedSelected st a) eqn:Ea; [|apply IH].
      cbn [map fold_left]. rewrite Ea. rewrite <- IH. f_equal. }
    apply E.
Qed.

Lemma scan_exact (L : list ShapeData) :
  (exists m, In m L /\ minX (paddedBox m) < MAX_VALUE) ->
  (exists m, In m L /\ MIN_VALUE < maxX (paddedBox m)) ->
  (exists m, In m L /\ minY (paddedBox m) < MAX_VALUE) ->
  (exists m, In m L /\ MIN_VALUE < maxY (paddedBox m)) ->
  let b := fold_left addShapeBounds L noBounds in
  (forall m, In m L ->
             minX b <= minX (paddedBox m) /\ maxX (paddedBox m) <= maxX b /\
             minY b <= minY (paddedBox m) /\ maxY (paddedBox m) <= maxY b) /\
  (exists m, In m L /\ minX (paddedBox m) = minX b) /\
  (exists m, In m L /\ maxX (paddedBox m) = maxX b) /\
  (exists m, In m L /\ minY (paddedBox m) = minY b) /\
  (exists m, In m L /\ maxY (paddedBox m) = maxY b).
Proof.
  intros (m1 & Hm1 & H1) (m2 & Hm2 & H2) (m3 & Hm3 & H3) (m4 & Hm4 & H4) b.
  destruct (fold_addShapeBounds L noBounds) as (E1 & E2 & E3 & E4).
  fold b in E1, E2, E3, E4. rewrite E1, E2, E3, E4. cbn [noBounds minX minY maxX maxY].
  destruct (fold_Rmin_attained (map (fun s => minX (paddedBox s)) L) MAX_VALUE _
              (in_map (fun s => minX (paddedBox s)) _ _ Hm1) H1) as [A1 B1].
  destruct (fold_Rmax_attained (map (fun s => maxX (paddedBox s)) L) MIN_VALUE _
              (in_map (fun s => maxX (paddedBox s)) _ _ Hm2) H2) as [A2 B2].
  destruct (fold_Rmin_attained (map (fun s => minY (paddedBox s)) L) MAX_VALUE _
              (in_map (fun s => minY (paddedBox s)) _ _ Hm3) H3) as [A3 B3].
  destruct (fold_Rmax_attained (map (fun s => maxY (paddedBox s)) L) MIN_VALUE _
              (in_map (fun s => maxY (paddedBox s)) _ _ Hm4) H4) as [A4 B4].
  split.
  - intros m Hm. repeat split.
    + apply A1, (in_map (fun s => minX (paddedBox s)) _ _ Hm).
    + apply A2, (in_map (fun s => maxX (paddedBox s)) _ _ Hm).
    + apply A3, (in_map (fun s => minY (paddedBox s)) _ _ Hm).
    + apply A4, (in_map (fun s => maxY (paddedBox s)) _ _ Hm).
  - apply in_map_iff in B1, B2, B3, B4.
    destruct B1 as (n1 & F1 & G1), B2 as (n2 & F2 & G2),
             B3 as (n3 & F3 & G3), B4 as (n4 & F4 & G4).
    repeat split; eauto.
Qed.

Lemma paddedBox_grouped (gs : list GroupData) (g : string) (avgX avgY : R)
    (s : ShapeData) :
  group s = Layer ->
  0 <= width (node s) -> 0 <= height (node s) -> 0 <= radius (node s) ->
  let m := grouped gs g avgX avgY s in
  minX (paddedBox m) <= px (position (node s)) - avgX - 10 /\
  px (position (node s)) - avgX + 10 <= maxX (paddedBox m) /\
  minY (paddedBox m) <= py (position (node s)) - avgY - 10 /\
  py (position (node s)) - avgY + 10 <= maxY (paddedBox m).
Proof.
  intros HL Hw Hh Hr. cbv zeta.
  unfold paddedBox, grouped, groupChange, getAbsolutePosition, getAbsoluteTransform.
  rewrite HL.
  cbn [type with_groupId with_node moveTo node position set_draggable set_position
       px py width height radius shapeTransform getTransform m_e m_f].
  destruct (type s); cbn [minX minY maxX maxY]; repeat split; lra.
Qed.

(** X9.  The background of a new group is exactly the bounding box of its
    members: when [createGroup] makes a group of at least two free selected
    shapes whose sizes are not negative, the background covers the padded
    box of every member, and each of its four sides touches the padded box
    of some member.  (The scan starts from [Number.MAX_VALUE] and
    [Number.MIN_VALUE]; as the members lie around their mean, the origin of
    the group, both are always overtaken.) *)
Theorem new_group_background_is_the_bounding_box :
  forall (now : Z) (st : State),
    wellFormed st ->
    ~ In (mkGroupId now) (map gid (groups st)) ->
    (2 <= List.length (selectedIds st))%nat ->
    List.length (selectedGroups st) <> 1%nat ->
    (2 <= List.length (filter (isUngroupedSelected st) (shapes st)))%nat ->
    (forall s, In s (filter (isUngroupedSelected st) (shapes st)) ->
               0 <= width (node s) /\ 0 <= height (node s) /\ 0 <= radius (node s)) ->
    exists G,
      findGroup (groups (fst (createGroup now st))) (mkGroupId now) = Some G /\
      let bg := backgroundNode G in
      let ms := members (mkGroupId now) (fst (createGroup now st)) in
      (forall m, In m ms ->
                 px (bg_position bg) <= minX (paddedBox m) /\
                 maxX (paddedBox m) <= px (bg_position bg) + bg_width bg /\
                 py (bg_position bg) <= minY (paddedBox m) /\
                 maxY (paddedBox m) <= py (bg_position bg) + bg_height bg) /\
      (exists m, In m ms /\ minX (paddedBox m) = px (bg_position bg)) /\
      (exists m, In m ms /\ maxX (paddedBox m) = px (bg_position bg) + bg_width bg) /\
      (exists m, In m ms /\ minY (paddedBox m) = py (bg_position bg)) /\
      (exists m, In m ms /\ maxY (paddedBox m) = py (bg_position bg) + bg_height bg).
Proof.
  intros now st Hwf Hfresh Hsel Hgroups Htwo Hsizes.
  rewrite (createGroup_new now st Hsel Hgroups).
  rewrite (createNewGroup_background now st (wf_shape_ids st Hwf) Htwo).
  cbv zeta. cbn [fst groups].
  set (ms0 := filter (isUngroupedSelected st) (shapes st)) in *.
  set (avgX := average (fun shape => px (position (node shape))) ms0).
  set (avgY := average (fun shape => py (position (node shape))) ms0).
  set (L := map (grouped (groups st) (mkGroupId now) avgX avgY) ms0).
  set (b := fold_left addShapeBounds L noBounds).
  set (G := {| gid := mkGroupId now;
               gnode := {| g_position := {| px := avgX; py := avgY |};
                           g_rotation := 0; g_scaleX := 1; g_scaleY := 1;
                           g_draggable := true |};
               backgroundNode := backgroundOf b |}).
  exists G. split; [exact (findGroup_fresh (groups st) G Hfresh)|].
  assert (Hne : ms0 <> []) by (destruct ms0; [simpl in Htwo; lia|congruence]).
  assert (Hlayer : forall s, In s ms0 -> group s = Layer).
  { intros s Hs. apply filter_In in Hs. destruct Hs as [Hs Hp].
    apply (isUngroupedSelected_layer st s Hwf Hs Hp). }
  assert (Hbox : forall s, In s ms0 ->
            let m := grouped (groups st) (mkGroupId now) avgX avgY s in
            minX (paddedBox m) <= px (position (node s)) - avgX - 10 /\
            px (position (node s)) - avgX + 10 <= maxX (paddedBox m) /\
            minY (paddedBox m) <= py (position (node s)) - avgY - 10 /\
            py (position (node s)) - avgY + 10 <= maxY (paddedBox m)).
  { intros s Hs. destruct (Hsizes s Hs) as (Hw & Hh & Hr).
    apply paddedBox_grouped; auto. }
  destruct (mean_between (fun shape => px (position (node shape))) ms0 Hne)
    as [(s1 & Hs1 & Hle1) (s2 & Hs2 & Hle2)].
  destruct (mean_between (fun shape => py (position (node shape))) ms0 Hne)
    as [(s3 & Hs3 & Hle3) (s4 & Hs4 & Hle4)].
  fold avgX in Hle1, Hle2. fold avgY in Hle3, Hle4.
  pose proof MAX_VALUE_large as Hmax. pose proof MIN_VALUE_small as Hmin.
  destruct (scan_exact L) as (Hall & Ex1 & Ex2 & Ex3 & Ex4).
  { exists (grouped (groups st) (mkGroupId now) avgX avgY s1).
    split; [apply in_map, Hs1|]. destruct (Hbox s1 Hs1) as (B & _). lra. }
  { exists (grouped (groups st) (mkGroupId now) avgX avgY s2).
    split; [apply in_map, Hs2|]. destruct (Hbox s2 Hs2) as (_ & B & _). lra. }
  { exists (grouped (groups st) (mkGroupId now) avgX avgY s3).
    split; [apply in_map, Hs3|]. destruct (Hbox s3 Hs3) as (_ & _ & B & _). lra. }
  { exists (grouped (groups st) (mkGroupId now) avgX avgY s4).
    split; [apply in_map, Hs4|]. destruct (Hbox s4 Hs4) as (_ & _ & _ & B). lra. }
  fold b in Hall, Ex1, Ex2, Ex3, Ex4.
  assert (Hmem : forall m,
            In m (members (mkGroupId now)
                    {| shapes := map (fun s => if isUngroupedSelected st s
                                               then grouped (groups st) (mkGroupId now)
                                                      avgX avgY s
                                               else s) (shapes st);
                       groups := groups st ++ [G];
                       selectedIds := [mkGroupId now];
                       hoveredId := hoveredId st |}) <-> In m L).
  { intros m. unfold members. cbn [shapes]. rewrite filter_In, in_map_iff. split.
    - intros [(s & <- & Hs) Hin]. apply in_map_iff.
      destruct (isUngroupedSelected st s) eqn:Ep.
      + exists s. split; [reflexivity|]. apply filter_In; auto.
      + exfalso. pose proof (wf_attached st Hwf s Hs) as Ha.
        unfold inGroup, is_id in Hin.
        destruct (groupId s) as [g|]; [|discriminate].
        apply String.eqb_eq in Hin. subst g. destruct Ha as [_ Ha]. contradiction.
    - intros Hm. apply in_map_iff in Hm. destruct Hm as (s & <- & Hs).
      apply filter_In in Hs. destruct Hs as [Hs Hp]. split.
      + exists s. rewrite Hp. auto.
      + unfold inGroup, grouped. cbn [groupId with_groupId is_id].
        apply String.eqb_refl. }
  cbn [backgroundNode G backgroundOf bg_position bg_width bg_height px py].
  split.
  - intros m Hm. apply Hmem in Hm. destruct (Hall m Hm) as (A1 & A2 & A3 & A4).
    repeat split; lra.
  - destruct Ex1 as (m1 & M1 & E1), Ex2 as (m2 & M2 & E2),
             Ex3 as (m3 & M3 & E3), Ex4 as (m4 & M4 & E4).
    split; [exists m1; split; [apply Hmem, M1|exact E1]|].
    split; [exists m2; split; [apply Hmem, M2|lra]|].
    split; [exists m3; split; [apply Hmem, M3|exact E3]|].
    exists m4; split; [apply Hmem, M4|lra].
Qed.

Lemma wellFormed_twoSelected : wellFormed twoSelected.
Proof.
  exact (proj1 (proj1 (run_sound
                         [AddRectangle 1 10 20 "blue"; AddCircle 2 30 40 "red";
                          Click [] (rectId 1) false; Click [] (circleId 2) true]
                         0 initialState (sound_initialState 0)
                         (conj eq_refl (conj eq_refl I))))).
Qed.

Lemma new_group_background_is_the_bounding_box_witness :
  exists G,
    findGroup (groups (fst (createGroup 3 twoSelected))) (mkGroupId 3) = Some G /\
    (exists m, In m (members (mkGroupId 3) (fst (createGroup 3 twoSelected))) /\
               minX (paddedBox m) = px (bg_position (backgroundNode G))) /\
    (exists m, In m (members (mkGroupId 3) (fst (createGroup 3 twoSelected))) /\
               maxX (paddedBox m) =
               px (bg_position (backgroundNode G)) + bg_width (backgroundNode G)).
Proof.
  destruct (new_group_background_is_the_bounding_box 3 twoSelected)
    as (G & H1 & _ & H3 & H4 & _).
  - exact wellFormed_twoSelected.
  - simpl; tauto.
  - simpl; lia.
  - simpl; lia.
  - simpl; lia.
  - apply Forall_forall. run_engine.
    repeat (apply Forall_cons; [repeat split; lra|]). apply Forall_nil.
  - exists G. split; [exact H1|]. split; [exact H3|exact H4].
Defined.

(** ** The selection transformer after grouping and ungrouping *)

Lemma findIndex_map {A B : Type} (h : A -> B) (p : B -> bool) (l : list A) :
  findIndex p (map h l) = findIndex (fun a => p (h a)) l.
Proof. induction l as [|a l IH]; simpl; [reflexivity|]. rewrite IH. reflexivity. Qed.

Lemma findIndex_ext {A : Type} (p q : A -> bool) (l : list A) :
  (forall a, In a l -> p a = q a) -> findIndex p l = findIndex q l.
Proof.
  induction l as [|a l IH]; simpl; intros H; [reflexivity|].
  rewrite (H a (or_introl eq_refl)), IH; [reflexivity|].
  intros b Hb; apply H; right; exact Hb.
Qed.

Lemma findIndex_none {A : Type} (p : A -> bool) (l : list A) :
  (forall a, In a l -> p a = false) -> findIndex p l = None.
Proof.
  induction l as [|a l IH]; simpl; intros H; [reflexivity|].
  rewrite (H a (or_introl eq_refl)), IH; [reflexivity|].
  intros b Hb; apply H; right; exact Hb.
Qed.

Lemma find_none {A : Type} (p : A -> bool) (l : list A) :
  (forall a, In a l -> p a = false) -> find p l = None.
Proof.
  induction l as [|a l IH]; simpl; intros H; [reflexivity|].
  rewrite (H a (or_introl eq_refl)). apply IH.
  intros b Hb; apply H; right; exact Hb.
Qed.

Lemma findIndex_id (l : list ShapeData) :
  NoDup (map id l) ->
  forall j a, nth_error l j = Some a ->
              findIndex (fun s => String.eqb (id s) (id a)) l = Some j.
Proof.
  induction l as [|b l IH]; intros Hnd j a Hj; [destruct j; discriminate|].
  inversion Hnd as [|? ? Hb Hl]; subst. destruct j as [|j]; simpl in *.
  - injection Hj as ->. rewrite String.eqb_refl. reflexivity.
  - destruct (String.eqb_spec (id b) (id a)) as [E|_].
    + exfalso. apply Hb. rewrite E. apply in_map, (nth_error_In _ _ Hj).
    + rewrite (IH Hl j a Hj). reflexivity.
Qed.

Lemma find_id (l : list ShapeData) :
  NoDup (map id l) ->
  forall a, In a l -> find (fun s => String.eqb (id s) (id a)) l = Some a.
Proof.
  induction l as [|b l IH]; intros Hnd a Ha; [contradiction|].
  inversion Hnd as [|? ? Hb Hl]; subst. simpl.
  destruct Ha as [->|Ha]; [rewrite String.eqb_refl; reflexivity|].
  destruct (String.eqb_spec (id b) (id a)) as [E|_]; [|apply IH; assumption].
  exfalso. apply Hb. rewrite E. apply in_map, Ha.
Qed.

(** [positions] names, in order, the places of what [filter] keeps. *)
Lemma positions_from_filter {A : Type} (p : A -> bool) (l : list A) :
  forall pre : list A,
    Forall2 (fun a r => nth_error (pre ++ l) r = Some a)
            (filter p l) (positions_from p (List.length pre) l).
Proof.
  induction l as [|a l IH]; intros pre; [constructor|].
  assert (Hrest : Forall2 (fun x r => nth_error (pre ++ a :: l) r = Some x)
                          (filter p l) (positions_from p (S (List.length pre)) l)).
  { specialize (IH (pre ++ [a])).
    rewrite <- app_assoc, length_app, Nat.add_1_r in IH. exact IH. }
  cbn [filter positions_from]. destruct (p a); [|exact Hrest].
  constructor; [|exact Hrest].
  rewrite nth_error_app2 by lia. rewrite Nat.sub_diag. reflexivity.
Qed.

Lemma positions_filter {A : Type} (p : A -> bool) (l : list A) :
  Forall2 (fun a r => nth_error l r = Some a) (filter p l) (positions p l).
Proof. exact (positions_from_filter p l []). Qed.

(** The nodes of selected shape ids, when every one of them is the id of
    a shape of the state. *)
Lemma selectedNodes_shapes (st : State) (sel : list ShapeData) (refs : list Ref)
    (l : list ShapeData) :
  NoDup (map id l) ->
  map id (shapes st) = map id l ->
  Forall2 (fun a r => nth_error l r = Some a) sel refs ->
  flat_map (fun i => match nodeOf st i with
                     | Some n => [n]
                     | None => []
                     end) (map id sel) = map OfShape refs.
Proof.
  intros Hnd Hids H. induction H as [|a r sel refs Ha _ IH]; [reflexivity|].
  cbn [map flat_map]. rewrite IH. unfold nodeOf.
  assert (E : findIndex (fun s => String.eqb (id s) (id a)) (shapes st) = Some r).
  { rewrite <- (findIndex_id l Hnd r a Ha).
    rewrite <- (findIndex_map id (fun i => String.eqb i (id a)) (shapes st)).
    rewrite <- (findIndex_map id (fun i => String.eqb i (id a)) l).
    rewrite Hids. reflexivity. }
  rewrite E. reflexivity.
Qed.

(** X10.  After [ungroup] dissolves a group, the selection transformer is
    attached to the nodes of the released shapes, in the order of [shapes],
    with rotation, resizing and all eight anchors enabled; when the group
    had no member, it is attached to nothing. *)
Theorem ungroup_hands_the_members_to_the_transformer :
  forall (st : State) (g : string) (G : GroupData) (t : Transformer),
    wellFormed st ->
    selectedIds st = [g] ->
    findGroup (groups st) g = Some G ->
    updateSelectionTransformer (fst (ungroup st)) t =
    match members g st with
    | [] => attach [] t
    | _ =>
        {| rotateEnabled := true; resizeEnabled := true; anchorSize := 6;
           borderStroke := "rgba(0,161,255,1)"; borderDash := [];
           borderStrokeWidth := 4; rotateAnchorOffset := 30;
           enabledAnchors := allAnchors;
           nodes := map OfShape (positions (inGroup g) (shapes st)) |}
    end.
Proof.
  intros st g G t Hwf Hsel HG.
  pose proof (wf_shape_ids st Hwf) as Hnd.
  rewrite (ungroup_result st g G Hnd Hsel HG). cbn [fst].
  set (h := fun s => goesWith g (if inGroup g s then ungrouped (groups st) G s else s)).
  set (st' := {| shapes := map h (shapes st);
                 groups := filter (fun G' => negb (String.eqb (gid G') g)) (groups st);
                 selectedIds := map id (filter (inGroup g) (shapes st));
                 hoveredId := hoveredId st |}).
  assert (Hh : forall s, In s (shapes st) ->
                         id (h s) = id s /\ (inGroup g s = true -> groupId (h s) = None)).
  { intros s Hs. destruct (ungroup_shape st g G s Hwf HG Hs) as (Hf & _ & Hrel & _).
    split; [exact (f_equal (fun x => fst (fst (fst (fst (fst x))))) Hf)|].
    intros E. apply (Hrel E). }
  assert (Hids : map id (shapes st') = map id (shapes st)).
  { cbn [st' shapes]. rewrite map_map. apply map_ext_in. intros s Hs. apply (Hh s Hs). }
  assert (Hfree : isAnySelectedInGroup st' = false).
  { unfold isAnySelectedInGroup. cbn [selectedIds st'].
    apply not_true_is_false. intros E. apply existsb_exists in E.
    destruct E as (i & Hi & E). apply in_map_iff in Hi.
    destruct Hi as (s & <- & Hs). apply filter_In in Hs. destruct Hs as [Hs Hp].
    cbn [shapes st'] in E.
    assert (Hfind : find (fun s0 => String.eqb (id s0) (id s)) (map h (shapes st))
                    = Some (h s)).
    { destruct (Hh s Hs) as [Eid _]. rewrite <- Eid. apply find_id.
      - change (NoDup (map id (shapes st'))). rewrite Hids. exact Hnd.
      - apply in_map, Hs. }
    rewrite Hfind in E. destruct (Hh s Hs) as [_ Hnone].
    rewrite (Hnone Hp) in E. discriminate. }
  assert (Hnodes : selectedNodes st' = map OfShape (positions (inGroup g) (shapes st))).
  { unfold selectedNodes. cbn [selectedIds st'].
    apply (selectedNodes_shapes st' _ _ (shapes st) Hnd Hids).
    apply positions_filter. }
  unfold updateSelectionTransformer. rewrite Hfree, Hnodes.
  cbn [selectedIds st']. rewrite length_map. unfold members.
  destruct (filter (inGroup g) (shapes st)); reflexivity.
Qed.

Lemma ungroup_hands_the_members_to_the_transformer_witness :
  nodes (updateSelectionTransformer
           (fst (ungroup (setSelectedIds [mkGroupId 8] twoGroupsAndAShape)))
           newSelectionTransformer) = [OfShape 3%nat; OfShape 4%nat] /\
  rotateEnabled (updateSelectionTransformer
                   (fst (ungroup (setSelectedIds [mkGroupId 8] twoGroupsAndAShape)))
                   newSelectionTransformer) = true.
Proof.
  rewrite (ungroup_hands_the_members_to_the_transformer
             (setSelectedIds [mkGroupId 8] twoGroupsAndAShape) (mkGroupId 8)
             (nth 1 (groups twoGroupsAndAShape) (groupAt "" 0 0))
             newSelectionTransformer
             (setSelectedIds_wf _ _ wellFormed_twoGroupsAndAShape)
             eq_refl eq_refl).
  split; reflexivity.
Defined.

Lemma createGroup_selects_group (now : Z) (st st' : State) :
  wellFormed st ->
  ~ In (mkGroupId now) (map gid (groups st)) ->
  createGroup now st = (st', None) ->
  wellFormed st' /\
  exists G, selectedIds st' = [gid G] /\ findGroup (groups st') (gid G) = Some G.
Proof.
  intros Hwf Hfresh Hcreate.
  destruct (createGroup_scene now st Hwf Hfresh) as (Hwf' & _).
  cbv zeta in Hwf'. rewrite Hcreate in Hwf'. cbn [fst] in Hwf'.
  split; [exact Hwf'|].
  destruct (createGroup_cases now st) as [(msg & E)|[(T & HT & E)|(Htwo & E)]];
    rewrite E in Hcreate.
  - discriminate.
  - injection Hcreate as <-.
    destruct (addShapesToGroup_target st T (wf_shape_ids st Hwf) HT) as [Hfind _].
    cbv zeta in Hfind. set (st1 := addShapesToGroup T _ st) in *.
    exists (updateGroupBoundingBox T (members (gid T) st1)).
    split; [reflexivity|exact Hfind].
  - rewrite (createNewGroup_background now st (wf_shape_ids st Hwf) Htwo) in Hcreate.
    cbv zeta in Hcreate. injection Hcreate as <-. cbn [selectedIds groups].
    eexists. split; [|apply findGroup_fresh; exact Hfresh]. reflexivity.
Qed.

(** X11.  After [createGroup] succeeds, whether it made a new group or
    added to the selected one, exactly that group is selected, it is in
    [groups], and the selection transformer is attached to the node of the
    group alone, with rotation, resizing and all eight anchors enabled. *)
Theorem createGroup_hands_the_group_to_the_transformer :
  forall (now : Z) (st st' : State) (t : Transformer),
    wellFormed st ->
    ~ In (mkGroupId now) (map gid (groups st)) ->
    createGroup now st = (st', None) ->
    exists g,
      selectedIds st' = [g] /\
      In g (map gid (groups st')) /\
      updateSelectionTransformer st' t =
      {| rotateEnabled := true; resizeEnabled := true; anchorSize := 6;
         borderStroke := "rgba(0,161,255,1)"; borderDash := [];
         borderStrokeWidth := 4; rotateAnchorOffset := 30;
         enabledAnchors := allAnchors;
         nodes := [OfGroup g] |}.
Proof.
  intros now st st' t Hwf Hfresh Hcreate.
  destruct (createGroup_selects_group now st st' Hwf Hfresh Hcreate)
    as (Hwf' & G & Hsel & HG).
  exists (gid G). split; [exact Hsel|].
  assert (HinG : In G (groups st')) by (apply (find_some _ _ HG)).
  split; [apply in_map, HinG|].
  assert (Hnone : forall s, In s (shapes st') -> String.eqb (id s) (gid G) = false).
  { intros s Hs. apply String.eqb_neq. apply (wf_shape_not_group st' s G Hwf' Hs HinG). }
  unfold updateSelectionTransformer, isAnySelectedInGroup, selectedNodes, nodeOf.
  rewrite Hsel. cbn [List.length Nat.ltb Nat.leb existsb flat_map].
  rewrite (find_none _ _ Hnone), (findIndex_none _ _ Hnone), HG.
  reflexivity.
Qed.

Lemma createGroup_hands_the_group_to_the_transformer_witness :
  exists g,
    selectedIds (fst (createGroup 3 twoSelected)) = [g] /\
    nodes (updateSelectionTransformer (fst (createGroup 3 twoSelected))
             newHoverTransformer) = [OfGroup g].
Proof.
  destruct (createGroup_hands_the_group_to_the_transformer 3 twoSelected
              (fst (createGroup 3 twoSelected)) newHoverTransformer
              wellFormed_twoSelected ltac:(simpl; tauto) eq_refl)
    as (g & H1 & _ & H3).
  exists g. split; [exact H1|]. rewrite H3. reflexivity.
Defined.

(** ** Transform gestures *)

Lemma boundBoxFunc_cases (oldBox newBox : Box) :
  (boundBoxFunc oldBox newBox = newBox /\
   5 <= box_width newBox /\ 5 <= box_height newBox) \/
  (boundBoxFunc oldBox newBox = oldBox /\
   (box_width newBox < 5 \/ box_height newBox < 5)).
Proof.
  unfold boundBoxFunc.
  destruct (Rlt_dec (box_width newBox) 5) as [Hw|Hw]; [right; auto|].
  destruct (Rlt_dec (box_height newBox) 5) as [Hh|Hh]; [right; auto|].
  left. repeat split; lra.
Qed.

(** X12.  The selection transformer never lets a gesture shrink a box
    below 5 by 5: from a box that is at least that large, whatever boxes
    the pointer proposes, the box the gesture ends with is at least 5 wide
    and 5 high, and it is the starting box or one of the proposed ones. *)
Theorem gesture_keeps_the_minimum_size :
  forall (proposals : list Box) (start : Box),
    5 <= box_width start ->
    5 <= box_height start ->
    5 <= box_width (gesture start proposals) /\
    5 <= box_height (gesture start proposals) /\
    (gesture start proposals = start \/ In (gesture start proposals) proposals).
Proof.
  unfold gesture. induction proposals as [|p proposals IH]; intros start Hw Hh.
  - simpl. auto.
  - cbn [fold_left].
    destruct (boundBoxFunc_cases start p) as [(E & Hpw & Hph)|(E & _)]; rewrite E.
    + destruct (IH p Hpw Hph) as (A & B & [C|C]).
      * repeat split; auto. right. left. symmetry. exact C.
      * repeat split; auto. right. right. exact C.
    + destruct (IH start Hw Hh) as (A & B & [C|C]).
      * repeat split; auto.
      * repeat split; auto. right. right. exact C.
Qed.

Lemma gesture_keeps_the_minimum_size_witness :
  5 <= box_width (gesture {| box_width := 100; box_height := 50 |}
                    [ {| box_width := 40; box_height := 20 |};
                      {| box_width := 4; box_height := 20 |};
                      {| box_width := 30; box_height := 2 |} ]).
Proof.
  apply (gesture_keeps_the_minimum_size
           [ {| box_width := 40; box_height := 20 |};
             {| box_width := 4; box_height := 20 |};
             {| box_width := 30; box_height := 2 |} ]
           {| box_width := 100; box_height := 50 |}); simpl; lra.
Defined.

(** X13.  The [transformend] listeners fold the scale of a gesture into
    the size attributes.  A rectangle is drawn as large as the gesture left
    it; a circle is drawn as the gesture left it exactly when the gesture
    scaled it by the same factor in both directions (or its radius is 0):
    otherwise it becomes the circle of the mean of the two factors.  A
    second [transformend] without a gesture in between changes nothing. *)
Theorem transformend_folds_the_scale_into_the_size :
  forall n : Sized,
    (shownWidth (rectTransformEnd n) = shownWidth n /\
     shownHeight (rectTransformEnd n) = shownHeight n /\
     rectTransformEnd (rectTransformEnd n) = rectTransformEnd n) /\
    ((shownRadiusX (circleTransformEnd n) = shownRadiusX n /\
      shownRadiusY (circleTransformEnd n) = shownRadiusY n) <->
     (sz_radius n = 0 \/ scaleX n = scaleY n)) /\
    shownRadiusX (circleTransformEnd n) = sz_radius n * ((scaleX n + scaleY n) / 2) /\
    shownRadiusY (circleTransformEnd n) = sz_radius n * ((scaleX n + scaleY n) / 2) /\
    circleTransformEnd (circleTransformEnd n) = circleTransformEnd n.
Proof.
  intros [w h r sx sy].
  unfold shownWidth, shownHeight, shownRadiusX, shownRadiusY,
         rectTransformEnd, circleTransformEnd.
  cbn [sz_width sz_height sz_radius scaleX scaleY].
  split; [|split; [|split; [|split]]].
  - split; [ring|]. split; [ring|]. f_equal; ring.
  - split.
    + intros [H1 H2]. destruct (Req_dec_T r 0) as [E|E]; [left; exact E|right].
      assert (H : r * (sx - sy) = 0) by lra.
      apply Rmult_integral in H. destruct H; [contradiction|lra].
    + intros [->| ->]; split; field.
  - ring.
  - ring.
  - f_equal. field.
Qed.

(** ** The label of the group button after a press *)

Lemma oneGroupSelected_true (sel : list string) (gs : list GroupData) :
  oneGroupSelected sel gs = true ->
  exists i G, sel = [i] /\ findGroup gs i = Some G.
Proof.
  unfold oneGroupSelected. destruct sel as [|i [|j sel]]; try discriminate.
  intros E. apply existsb_exists in E. destruct E as (G & HG & E).
  destruct (findGroup_live gs i) as (G' & HG').
  - apply String.eqb_eq in E. rewrite <- E. apply in_map, HG.
  - exists i, G'. auto.
Qed.

Lemma oneGroupSelected_group (G : GroupData) (gs : list GroupData) :
  findGroup gs (gid G) = Some G -> oneGroupSelected [gid G] gs = true.
Proof.
  intros H. unfold oneGroupSelected. apply existsb_exists.
  exists G. split; [apply (find_some _ _ H)|apply String.eqb_refl].
Qed.

Lemma oneGroupSelected_shapes (st : State) (sel : list ShapeData)
    (gs : list GroupData) :
  wellFormed st ->
  (forall s, In s sel -> In s (shapes st)) ->
  (forall G, In G gs -> In G (groups st)) ->
  oneGroupSelected (map id sel) gs = false.
Proof.
  intros Hwf Hs Hg. unfold oneGroupSelected.
  destruct sel as [|s [|s' sel]]; try reflexivity. cbn [map].
  apply not_true_is_false. intros E. apply existsb_exists in E.
  destruct E as (G & HG & E). apply String.eqb_eq in E.
  apply (wf_shape_not_group st s G Hwf (Hs s (or_introl eq_refl)) (Hg G HG)).
  symmetry. exact E.
Qed.

Lemma passed_None (r : State * option string) :
  passed r = true -> r = (fst r, None).
Proof. destruct r as [st [msg|]]; [discriminate|reflexivity]. Qed.

(** X14.  A press of the group button that goes through, and a press of
    "Clear All", keep the label right: in an editor whose callback is the
    one of its last commit and whose label is the one the callback's policy
    gives for the selection, after [ungroup] has dissolved the selected
    group the label is "Create Group", after [createGroup] has made or
    extended a group the label is "Ungroup", after [handleClearAll] it is
    "Create Group", and each time this is again the label of the policy and
    the callback is the one of the new commit. *)
Theorem accepted_press_keeps_the_label_right :
  forall (now : Z) (e : Editor),
    wellFormed (app e) ->
    ~ In (mkGroupId now) (map gid (groups (app e))) ->
    coherent e ->
    labelAgrees e ->
    (coherent (handleClearAll e) /\ labelAgrees (handleClearAll e) /\
     groupButtonText (handleClearAll e) = "Create Group") /\
    (passed (if oneGroupSelected (selectedIds (app e)) (groups (app e))
             then ungroup (app e) else createGroup now (app e)) = true ->
     coherent (handleGroupButton now e) /\ labelAgrees (handleGroupButton now e) /\
     groupButtonText (handleGroupButton now e) =
       if oneGroupSelected (selectedIds (app e)) (groups (app e))
       then "Create Group" else "Ungroup").
Proof.
  intros now e Hwf Hfresh Hco Hag.
  assert (Hquiet : runCallback (updateGroupButton e) = None).
  { rewrite Hco. unfold runCallback. cbn [cb_selectedIds cb_groups cb_groupButtonText].
    rewrite <- Hag. rewrite String.eqb_refl. reflexivity. }
  split.
  - unfold handleClearAll, commit. rewrite Hquiet.
    repeat split.
  - intros Hpass. unfold handleGroupButton.
    destruct (oneGroupSelected (selectedIds (app e)) (groups (app e))) eqn:Eone.
    + rewrite Hpass. unfold commit. rewrite Hquiet.
      split; [reflexivity|]. split; [|reflexivity].
      unfold labelAgrees. cbn [app groupButtonText].
      destruct (oneGroupSelected_true _ _ Eone) as (g & G & Hsel & HG).
      rewrite (ungroup_result (app e) g G (wf_shape_ids _ Hwf) Hsel HG).
      cbn [fst selectedIds groups]. unfold newButtonText.
      rewrite (oneGroupSelected_shapes (app e)); [reflexivity|exact Hwf| |].
      * intros s Hs. apply filter_In in Hs. tauto.
      * intros G' HG'. apply filter_In in HG'. tauto.
    + rewrite Hpass. unfold commit. rewrite Hquiet.
      split; [reflexivity|]. split; [|reflexivity].
      unfold labelAgrees. cbn [app groupButtonText].
      destruct (createGroup_selects_group now (app e) (fst (createGroup now (app e)))
                  Hwf Hfresh (passed_None _ Hpass)) as (_ & G & Hsel & HG).
      unfold newButtonText. rewrite Hsel, (oneGroupSelected_group G _ HG).
      reflexivity.
Qed.

Lemma accepted_press_keeps_the_label_right_witness :
  groupButtonText
    (handleGroupButton 3
       {| app := twoSelected; groupButtonText := "Create Group";
          updateGroupButton :=
            {| cb_selectedIds := selectedIds twoSelected;
               cb_groups := groups twoSelected;
               cb_groupButtonText := "Create Group" |} |}) = "Ungroup".
Proof.
  destruct (accepted_press_keeps_the_label_right 3
              {| app := twoSelected; groupButtonText := "Create Group";
                 updateGroupButton :=
                   {| cb_selectedIds := selectedIds twoSelected;
                      cb_groups := groups twoSelected;
                      cb_groupButtonText := "Create Group" |} |}
              wellFormed_twoSelected ltac:(simpl; tauto) eq_refl eq_refl)
    as [_ H].
  destruct (H eq_refl) as (_ & _ & H3). exact H3.
Defined.

(** ** The looks of the two transformers *)

Lemma updateSelectionTransformer_look (st : State) (t : Transformer) :
  attach [] t = newSelectionTransformer \/ attach [] t = newHoverTransformer ->
  attach [] (updateSelectionTransformer st t) = newSelectionTransformer \/
  attach [] (updateSelectionTransformer st t) = newHoverTransformer.
Proof.
  intros H. unfold updateSelectionTransformer.
  destruct (0 <? List.length (selectedIds st))%nat.
  - destruct (isAnySelectedInGroup st); [right|left]; reflexivity.
  - exact H.
Qed.

Lemma updateHoverTransformer_look (st : State) (t : Transformer) :
  attach [] t = newHoverTransformer ->
  (List.length (nodes t) <= 1)%nat ->
  attach [] (updateHoverTransformer st t) = newHoverTransformer /\
  (List.length (nodes (updateHoverTransformer st t)) <= 1)%nat.
Proof.
  intros H Hlen. unfold updateHoverTransformer.
  destruct (hoveredId st) as [h|]; [|split; [exact H|simpl; lia]].
  destruct (negb (String.eqb h "") && negb (includes (selectedIds st) h));
    [|split; [exact H|simpl; lia]].
  destruct (findIndex _ (shapes st)); [split; [exact H|simpl; lia]|].
  destruct (findGroup (groups st) h); split; try exact H; simpl; lia.
Qed.

(** X15.  However often the transformer effect runs, and on whatever
    states, the selection transformer has one of two looks, the one it was
    created with (rotation, resizing and the eight anchors enabled) or,
    attribute for attribute, the look of the hover transformer (nothing
    enabled, dashed border); the hover transformer keeps the look it was
    created with and is attached to at most one node. *)
Theorem transformers_keep_their_looks :
  forall sts : list State,
    (attach [] (fst (effects sts)) = newSelectionTransformer \/
     attach [] (fst (effects sts)) = newHoverTransformer) /\
    attach [] (snd (effects sts)) = newHoverTransformer /\
    (List.length (nodes (snd (effects sts))) <= 1)%nat.
Proof.
  intros sts. unfold effects.
  assert (H : forall ts,
            (attach [] (fst ts) = newSelectionTransformer \/
             attach [] (fst ts) = newHoverTransformer) ->
            attach [] (snd ts) = newHoverTransformer ->
            (List.length (nodes (snd ts)) <= 1)%nat ->
            (attach [] (fst (fold_left effect sts ts)) = newSelectionTransformer \/
             attach [] (fst (fold_left effect sts ts)) = newHoverTransformer) /\
            attach [] (snd (fold_left effect sts ts)) = newHoverTransformer /\
            (List.length (nodes (snd (fold_left effect sts ts))) <= 1)%nat).
  { induction sts as [|st sts IH]; intros ts H1 H2 H3; [simpl; auto|].
    cbn [fold_left]. destruct (updateHoverTransformer_look st (snd ts) H2 H3).
    apply IH; unfold effect; cbn [fst snd]; auto.
    apply updateSelectionTransformer_look, H1. }
  apply H; [left; reflexivity|reflexivity|simpl; lia].
Qed.

(** ** Groups that have been resized *)

(** The node of an unturned group scaled by a positive factor along its
    first axis decomposes to the rotation 0. *)
Lemma decompose_unturned_scaled (k c d e f : R) :
  0 < k ->
  decomposeRotation {| m_a := cos (0 * PI / 180) * k; m_b := sin (0 * PI / 180) * k;
                       m_c := c; m_d := d; m_e := e; m_f := f |} = 0.
Proof.
  intros Hk. unfold decomposeRotation. cbn [m_a m_b m_c m_d].
  replace (0 * PI / 180) with 0 by lra. rewrite cos_0, sin_0.
  rewrite (nonzero_true (1 * k) (0 * k)) by nra.
  destruct (Rlt_dec 0 (0 * k)) as [H|_]; [lra|].
  replace (1 * k * (1 * k) + 0 * k * (0 * k)) with (k * k) by ring.
  rewrite sqrt_square by lra. replace (1 * k / k) with 1 by (field; lra).
  rewrite acos_1. unfold Rdiv. ring.
Qed.

(** X16.  A shape added to a group that has been resized does not stay
    where it is: [addShapesToGroup] undoes the position and the rotation of
    the target group, not its scale.  With the shape on the layer at
    [(u, v)] and an unturned group at [(x, y)] scaled by [(sx, sy)], both
    selected, [createGroup] puts the shape into the group, and its absolute
    position becomes [(x + sx * (u - x), y + sy * (v - y))]; that is
    [(u, v)] only if, along each axis, the group is at scale 1 or the shape
    stood at the origin of the group. *)
Theorem adding_to_a_resized_group_moves_the_shape :
  forall x y sx sy u v : R,
    0 < sx ->
    exists st' s',
      createGroup 5 (resizedGroupAndAShape x y sx sy u v) = (st', None) /\
      nth_error (shapes st') 2 = Some s' /\
      groupId s' = Some (mkGroupId 3) /\
      getAbsolutePosition (groups st') s' =
        {| px := x + sx * (u - x); py := y + sy * (v - y) |} /\
      (getAbsolutePosition (groups st') s' = {| px := u; py := v |} <->
       (sx = 1 \/ u = x) /\ (sy = 1 \/ v = y)).
Proof.
  intros x y sx sy u v Hsx.
  assert (Hto : forall k a b : R, b + k * (a - b) = a <-> k = 1 \/ a = b).
  { intros k a b; split.
    - intros H. assert (H0 : (k - 1) * (a - b) = 0) by lra.
      destruct (Rmult_integral _ _ H0); [left|right]; lra.
    - intros [-> | ->]; ring. }
  eexists; eexists. split; [|split; [|split; [|split]]].
  - run_engine. rewrite !(decompose_unturned_scaled sx) by exact Hsx.
    destruct (Req_dec_T (0 * PI / 180) 0) as [_|n]; [|exfalso; apply n; lra].
    reflexivity.
  - reflexivity.
  - reflexivity.
  - run_engine. replace (0 * PI / 180) with 0 by lra. rewrite cos_0, sin_0.
    f_equal; ring.
  - run_engine. replace (0 * PI / 180) with 0 by lra. rewrite cos_0, sin_0.
    rewrite <- (Hto sx u x), <- (Hto sy v y). split.
    + intros H. split.
      * apply (f_equal px) in H. cbn [px] in H. lra.
      * apply (f_equal py) in H. cbn [py] in H. lra.
    + intros [H1 H2]. f_equal; lra.
Qed.

Lemma adding_to_a_resized_group_moves_the_shape_witness :
  exists st' s',
    createGroup 5 (resizedGroupAndAShape 0 0 2 2 10 20) = (st', None) /\
    nth_error (shapes st') 2 = Some s' /\
    getAbsolutePosition (groups st') s' = {| px := 0 + 2 * (10 - 0); py := 0 + 2 * (20 - 0) |}.
Proof.
  destruct (adding_to_a_resized_group_moves_the_shape 0 0 2 2 10 20
              ltac:(lra)) as (st' & s' & H1 & H2 & _ & H4 & _).
  exists st', s'. auto.
Defined.
